(** * Keboola component schema tester

    A shallow embedding of [component_schema_tester.py]: the Flask
    endpoints [load_schemas] and [sync_action] (Python) and the
    schema-driven form engine embedded in [HTML_CONTENT] (JavaScript):
    [splitAndFillConfig], [updateCombinedOutput], [checkDependencies],
    [detectFieldGroups], [preprocessSchema], the debounced watch of
    [setupAsyncField] and the response handling of [loadOptions].
    Around them: the auto-discovery functions, the startup block and the
    read-only endpoints [get_schemas], [get_config] and
    [get_discovery_info] (Python); [callSyncAction],
    [executeSyncAction], [setupWatchListeners],
    [organizeFieldsIntoSections], [handleFolderSelection] and
    [loadDiscoveryInfo] (JavaScript).

    Conventions.
    - JSON documents and in-memory JavaScript values share one type,
      [value]; Python's [None] is [VNull], a dict is a [VObj].
    - An object is an association list in insertion order, as
      [Object.keys] enumerates it; an object has no repeated key.  (Keys
      that are array indices, which [Object.keys] lists first, are not
      reordered by the model.)
    - Numbers are integers ([Z]); the schemas' [propertyOrder] is an integer.
    - What the page borrows from its libraries is modelled by what the page
      relies on: a JSONEditor instance is a cell holding the value last
      set; [setTimeout] and [clearTimeout] act on a list of pending timers
      under a clock counted in milliseconds.
    - Strings are sequences of 8-bit characters.  The character classes of
      the regular expressions in the source are ASCII ranges, so the model
      is exact on ASCII text. *)

From stdpp Require Import base option list strings gmap pretty.
From Stdlib Require Import ZArith Ascii String Bool Lia.

Open Scope Z_scope.

#[local] Set Warnings "-register-all".

(* ===================================================================== *)
(** ** Values *)
(* ===================================================================== *)

Inductive value : Type :=
  | VUndef
  | VNull
  | VBool (b : bool)
  | VNum (n : Z)
  | VStr (s : string)
  | VArr (l : list value)
  | VObj (o : list (string * value)).

(** An object literal and its fields. *)
Abbreviation obj := (list (string * value)).

(** [o[k]] on an own-property list; a missing key reads [undefined]. *)
Fixpoint obj_get (o : obj) (k : string) : value :=
  match o with
  | [] => VUndef
  | (k', v) :: o' => if String.eqb k' k then v else obj_get o' k
  end.

(** [k in o] / [hasOwnProperty]. *)
Fixpoint obj_has (o : obj) (k : string) : bool :=
  match o with
  | [] => false
  | (k', _) :: o' => String.eqb k' k || obj_has o' k
  end.

(** [o[k] = v]: overwrite in place, or append a new key. *)
Fixpoint obj_set (o : obj) (k : string) (v : value) : obj :=
  match o with
  | [] => [(k, v)]
  | (k', v') :: o' =>
      if String.eqb k' k then (k', v) :: o' else (k', v') :: obj_set o' k v
  end.

(** [Object.keys(o)]. *)
Definition Object_keys (o : obj) : list string := map fst o.

(** [{...a, ...b}]. *)
Definition spread (a b : obj) : obj :=
  fold_left (fun acc kv => obj_set acc (fst kv) (snd kv)) b a.

(* ===================================================================== *)
(** ** Character classes and string helpers *)
(* ===================================================================== *)

Definition is_upper (c : ascii) : bool :=
  ((65 <=? nat_of_ascii c) && (nat_of_ascii c <=? 90))%nat.

Definition is_lower (c : ascii) : bool :=
  ((97 <=? nat_of_ascii c) && (nat_of_ascii c <=? 122))%nat.

Definition is_digit (c : ascii) : bool :=
  ((48 <=? nat_of_ascii c) && (nat_of_ascii c <=? 57))%nat.

Definition is_newline (c : ascii) : bool := (nat_of_ascii c =? 10)%nat.

Definition to_lower (c : ascii) : ascii :=
  if is_upper c then ascii_of_nat (nat_of_ascii c + 32) else c.

Definition to_upper (c : ascii) : ascii :=
  if is_lower c then ascii_of_nat (nat_of_ascii c - 32) else c.

Fixpoint string_map (f : ascii -> ascii) (s : string) : string :=
  match s with
  | EmptyString => EmptyString
  | String c s' => String (f c) (string_map f s')
  end.

(** [sep.join(l)]. *)
Fixpoint join (sep : string) (l : list string) : string :=
  match l with
  | [] => EmptyString
  | [s] => s
  | s :: l' => s +:+ sep +:+ join sep l'
  end.

(* ===================================================================== *)
(** ** The Flask server *)
(* ===================================================================== *)

Module Server.

(** *** Python exceptions *)

(** Where an exception's class sits with respect to the two handlers of
    the source: [except ImportError] and [except Exception]. *)
Inductive exc_class :=
  | ImportError          (* ImportError and its subclasses *)
  | OtherException       (* any other class deriving from Exception *)
  | BaseExceptionOnly.   (* SystemExit, KeyboardInterrupt, GeneratorExit *)

Record pyexc := {
  exc_cls : exc_class;
  exc_str : string;          (* str(e) *)
  exc_traceback : string     (* traceback.format_exc() while e is handled *)
}.

Definition is_ImportError (e : pyexc) : bool :=
  match exc_cls e with ImportError => true | _ => false end.

Definition is_Exception (e : pyexc) : bool :=
  match exc_cls e with BaseExceptionOnly => false | _ => true end.

Inductive result (A : Type) :=
  | Ok (a : A)
  | Raise (e : pyexc).
Arguments Ok {A} a.
Arguments Raise {A} e.

(** *** Python truthiness of a JSON document *)
Definition py_truthy (v : value) : bool :=
  match v with
  | VUndef | VNull => false
  | VBool b => b
  | VNum n => negb (n =? 0)
  | VStr s => negb (String.eqb s EmptyString)
  | VArr l => match l with [] => false | _ => true end
  | VObj o => match o with [] => false | _ => true end
  end.

(** [d.get(k)] and [d.get(k, default)] on a dict. *)
Definition dict_get (d : obj) (k : string) : value :=
  if obj_has d k then obj_get d k else VNull.

Definition dict_get_default (d : obj) (k : string) (dflt : value) : value :=
  if obj_has d k then obj_get d k else dflt.

(** *** HTTP responses *)
Record http := { status_code : nat; body : value }.

(** What a view function does: it hands a response to Flask, or lets an
    exception escape. *)
Inductive outcome :=
  | Responded (r : http)
  | Propagated (e : pyexc).

(** Text of the exceptions the Python runtime itself raises in the two
    views: [str(e)] and the formatted traceback. *)
Inductive runtime_fault :=
  | GetOnNonDict        (* AttributeError: data.get on a body that is no dict *)
  | JoinNone            (* TypeError: os.path.join(None, ...) *)
  | SubNonString        (* TypeError: re.sub on an action that is no str *)
  | NotSerializable.    (* TypeError: jsonify of a non-JSON result *)

Record runtime := {
  fault_str : runtime_fault -> string;
  fault_traceback : runtime_fault -> string;
  py_repr : value -> string        (* str() of a list or a dict *)
}.

Definition fault (rt : runtime) (f : runtime_fault) : pyexc :=
  {| exc_cls := OtherException;
     exc_str := fault_str rt f;
     exc_traceback := fault_traceback rt f |}.

(** *** /api/load-schemas *)

(** The module globals written by [load_schemas]. *)
Record schemas := {
  loaded_component_schema : value;
  loaded_row_schema : value;
  loaded_component_name : value
}.

(** [f'{v}'] for a value taken from a JSON body. *)
Definition fstr (rt : runtime) (v : value) : string :=
  match v with
  | VStr s => s
  | VNull | VUndef => "None"
  | VBool true => "True"
  | VBool false => "False"
  | VNum n => pretty n
  | VArr _ | VObj _ => py_repr rt v
  end.

(** [load_schemas].  [data] is [request.json]: the parsed body, or the
    exception raised while parsing it. *)
Definition load_schemas (rt : runtime) (g : schemas) (data : result value)
  : outcome * schemas :=
  let handler (e : pyexc) (g' : schemas) :=
    if is_Exception e
    then (Responded {| status_code := 500;
                       body := VObj [("error", VStr (exc_str e))] |}, g')
    else (Propagated e, g') in
  match data with
  | Raise e => handler e g
  | Ok (VObj d) =>
      let g' := {| loaded_component_schema := dict_get d "componentSchema";
                   loaded_row_schema := dict_get d "rowSchema";
                   loaded_component_name :=
                     dict_get_default d "componentName" (VStr "Unknown") |} in
      if negb (py_truthy (loaded_component_schema g'))
         || negb (py_truthy (loaded_row_schema g'))
      then (Responded {| status_code := 400;
                         body := VObj [("error",
                                   VStr "Missing componentSchema or rowSchema")] |},
            g')
      else (Responded {| status_code := 200;
                         body := VObj [("status", VStr "success");
                                       ("message",
                                        VStr ("Schemas loaded for "
                                              +:+ fstr rt (loaded_component_name g')))] |},
            g')
  | Ok _ =>
      (* data.get raises before the first assignment *)
      handler (fault rt GetOnNonDict) g
  end.

(** *** /sync-action *)

(** The files written by [write_config]: path of config.json -> document. *)
Abbreviation store := (gmap string value).

(** What a method of the backend unit returns. *)
Inductive pyobj :=
  | PJson (v : value)      (* a JSON-serializable object *)
  | PNonJson.              (* anything jsonify rejects *)

(** An attribute of the [Component] instance. *)
Record attr := {
  attr_truthy : bool;                      (* bool(attribute) *)
  attr_callable : bool;                    (* callable(attribute) *)
  attr_call : store -> result pyobj        (* attribute(), reading the files *)
}.

(** The instance [comp]: its attributes by name. *)
Abbreviation component := (gmap string attr).

(** The operating system and the backend, as [sync_action] sees them. *)
Record world := {
  project_root : option string;                   (* module global *)
  os_path_isdir : string -> bool;
  os_path_exists : string -> bool;
  os_path_basename : string -> string;
  os_path_dirname : string -> string;
  os_path_join : string -> string -> string;
  write_fault : string -> option pyexc;           (* makedirs/open/json.dump *)
  import_Component : string -> result (result component)
     (* from component import Component, then Component() *)
}.

(** A computation of the view: it reads and writes the files and may raise. *)
Definition M (A : Type) : Type := store -> result A * store.

Definition ret {A} (a : A) : M A := fun fs => (Ok a, fs).
Definition raise {A} (e : pyexc) : M A := fun fs => (Raise e, fs).
Definition lift {A} (r : result A) : M A := fun fs => (r, fs).
Definition bind {A B} (m : M A) (k : A -> M B) : M B :=
  fun fs => match m fs with
            | (Ok a, fs') => k a fs'
            | (Raise e, fs') => (Raise e, fs')
            end.

Notation "x <~ m ;; k" := (bind m (fun x => k))
  (at level 100, m at next level, right associativity).

(** [os.path.join(root, p)] when [root] may be None. *)
Definition join_root (rt : runtime) (w : world) (root : option string) (p : string)
  : M string :=
  match root with
  | None => raise (fault rt JoinNone)
  | Some r => ret (os_path_join w r p)
  end.

(** [write_config(project_root, parameters)]. *)
Definition write_config (rt : runtime) (w : world)
    (root : option string) (parameters : value) : M unit :=
  data_dir <~ join_root rt w root "data" ;;
  let config_path := os_path_join w data_dir "config.json" in
  let config := VObj [("parameters", parameters)] in
  match write_fault w data_dir with
  | Some e => raise e
  | None => fun fs => (Ok tt, <[config_path := config]> fs)
  end.

(** [re.sub('(.)([A-Z][a-z]+)', r'\1_\2', s)].  The scanner is in [Scan]
    between matches, in [Upper] on the capital of a match, in [Run] inside
    the lower-case run that ends it. *)
Inductive mode := Scan | Upper | Run.

Fixpoint sub_word (m : mode) (s : string) : string :=
  match s with
  | EmptyString => EmptyString
  | String c tl =>
      match m with
      | Upper => String c (sub_word Run tl)
      | _ =>
          if (match m with Run => true | _ => false end) && is_lower c
          then String c (sub_word Run tl)
          else
            match tl with
            | String u (String l _) =>
                if negb (is_newline c) && is_upper u && is_lower l
                then String c (String "_" (sub_word Upper tl))
                else String c (sub_word Scan tl)
            | _ => String c (sub_word Scan tl)
            end
      end
  end.

(** [re.sub('([a-z0-9])([A-Z])', r'\1_\2', s)]; [copy] is set on the
    capital that closes a match. *)
Fixpoint sub_hump (copy : bool) (s : string) : string :=
  match s with
  | EmptyString => EmptyString
  | String c tl =>
      if copy then String c (sub_hump false tl)
      else
        match tl with
        | String u _ =>
            if (is_lower c || is_digit c) && is_upper u
            then String c (String "_" (sub_hump true tl))
            else String c (sub_hump false tl)
        | EmptyString => String c EmptyString
        end
  end.

Definition camel_to_snake (name : string) : string :=
  let s1 := sub_word Scan name in
  string_map to_lower (sub_hump false s1).

(** [action.replace('-', '_')]. *)
Definition replace_hyphen (action : string) : string :=
  string_map (fun c => if Ascii.eqb c "-" then "_"%char else c) action.

Definition possible_names (action : string) : list string :=
  [action; camel_to_snake action; replace_hyphen action].

(** The [for name in possible_names] loop: [getattr] of the first name
    for which [hasattr] holds. *)
Fixpoint find_method (comp : component) (names : list string) : option attr :=
  match names with
  | [] => None
  | name :: names' =>
      match comp !! name with
      | Some a => Some a
      | None => find_method comp names'
      end
  end.

Definition error_body (message : string) : value :=
  VObj [("status", VStr "error"); ("message", VStr message)].

Definition jsonify (rt : runtime) (r : pyobj) : M value :=
  match r with
  | PJson v => ret v
  | PNonJson => raise (fault rt NotSerializable)
  end.

(** The request body of /sync-action, after [request.json]. *)
Record request := {
  req_action : value;                 (* data.get('action') *)
  req_parameters : option value;      (* data.get('parameters', {}) *)
  req_componentPath : option string   (* data.get('componentPath') *)
}.

(** "Determine which project root to use". *)
Definition current_root (w : world) (component_path : option string)
  : option string :=
  match component_path with
  | Some p =>
      if negb (String.eqb p EmptyString) && os_path_isdir w p then
        if String.eqb (os_path_basename w p) "component_config"
        then Some (os_path_dirname w p)
        else if os_path_exists w (os_path_join w p "component_config")
        then Some p
        else Some p
      else project_root w
  | None => project_root w
  end.

(** The 400 answer of an action that resolves to nothing callable. *)
Definition unknown_action (action : string) (names : list string) : http :=
  {| status_code := 400;
     body := error_body ("Unknown action: " +:+ action
               +:+ " (tried: " +:+ join ", " names +:+ ")") |}.

(** [result = method(); return jsonify(result)]. *)
Definition call_method (rt : runtime) (method : attr) : M http :=
  result <~ (fun fs => (attr_call method fs, fs)) ;;
  v <~ jsonify rt result ;;
  ret {| status_code := 200; body := v |}.

(** From the instance [comp] on: naming patterns, lookup, call. *)
Definition dispatch (rt : runtime) (comp : component) (action : value) : M http :=
  match action with
  | VStr action =>
      let names := possible_names action in
      match find_method comp names with
      | Some method =>
          if negb (attr_truthy method) || negb (attr_callable method)
          then ret (unknown_action action names)
          else call_method rt method
      | None => ret (unknown_action action names)
      end
  | _ => raise (fault rt SubNonString)   (* camel_to_snake(action) *)
  end.

(** Where the first half of the [try] block ends: with an early [return],
    or with the instance [comp] in hand. *)
Inductive prepared :=
  | Early (r : http)
  | Loaded (comp : component).

(** The [try] block up to [comp = Component()]. *)
Definition prepare (rt : runtime) (w : world) (data : request) : M prepared :=
  let parameters := default (VObj []) (req_parameters data) in
  let current_project_root := current_root w (req_componentPath data) in
  _ <~ write_config rt w current_project_root parameters ;;
  src_path <~ join_root rt w current_project_root "src" ;;
  if negb (os_path_exists w src_path) then
    ret (Early {| status_code := 500;
                  body := error_body ("src/ directory not found in "
                            +:+ default "None" current_project_root) |})
  else
    let component_file := os_path_join w src_path "component.py" in
    if negb (os_path_exists w component_file) then
      ret (Early {| status_code := 500;
                    body := error_body ("component.py not found in "
                              +:+ src_path) |})
    else
      match import_Component w src_path with
      | Raise e =>
          if is_ImportError e
          then ret (Early {| status_code := 500;
                             body := error_body ("Could not import Component: "
                                       +:+ exc_str e) |})
          else raise e
      | Ok cls =>
          comp <~ lift cls ;;
          ret (Loaded comp)
      end.

(** The body of the [try] block of [sync_action]; [data] is
    [request.json], or the exception raised while parsing the body. *)
Definition sync_action_try (rt : runtime) (w : world) (data : result request)
  : M http :=
  data <~ lift data ;;
  p <~ prepare rt w data ;;
  match p with
  | Early r => ret r
  | Loaded comp => dispatch rt comp (req_action data)
  end.

(** The answer of the [except Exception] handler. *)
Definition failure (e : pyexc) : http :=
  {| status_code := 500;
     body := VObj [("status", VStr "error");
                   ("message", VStr (exc_str e));
                   ("traceback", VStr (exc_traceback e))] |}.

(** [except Exception as e]: what becomes of the outcome of the [try]
    block. *)
Definition handle (r : result http * store) : outcome * store :=
  match r with
  | (Ok r, fs') => (Responded r, fs')
  | (Raise e, fs') =>
      if is_Exception e then (Responded (failure e), fs')
      else (Propagated e, fs')
  end.

(** [sync_action]: the [try] block under its handler. *)
Definition sync_action (rt : runtime) (w : world) (data : result request)
    (fs : store) : outcome * store :=
  handle (sync_action_try rt w data fs).

(** The resolution rule in the words of the specification: the first
    variant that is a callable attribute of the unit.  It is compared
    with [find_method] below. *)
Fixpoint spec_first_callable (comp : component) (names : list string)
  : option attr :=
  match names with
  | [] => None
  | name :: names' =>
      match comp !! name with
      | Some a => if attr_callable a then Some a
                  else spec_first_callable comp names'
      | None => spec_first_callable comp names'
      end
  end.

(** The steps of the [try] block at which an exception [e] can arise,
    with what each needs to be reached: parsing the body, resolving the
    root, persisting the config, loading the unit (the import, unless it
    raises an ImportError, and the constructor), resolving the name,
    calling the method, serializing its result. *)
Inductive raises (rt : runtime) (w : world) (fs : store)
  : result request -> pyexc -> store -> Prop :=
  | raises_parse e :
      raises rt w fs (Raise e) e fs
  | raises_root data :
      current_root w (req_componentPath data) = None ->
      raises rt w fs (Ok data) (fault rt JoinNone) fs
  | raises_persist data root e :
      current_root w (req_componentPath data) = Some root ->
      write_fault w (os_path_join w root "data") = Some e ->
      raises rt w fs (Ok data) e fs
  | raises_import data root e :
      current_root w (req_componentPath data) = Some root ->
      write_fault w (os_path_join w root "data") = None ->
      os_path_exists w (os_path_join w root "src") = true ->
      os_path_exists w (os_path_join w (os_path_join w root "src") "component.py") = true ->
      import_Component w (os_path_join w root "src") = Raise e ->
      is_ImportError e = false ->
      raises rt w fs (Ok data) e
        (<[os_path_join w (os_path_join w root "data") "config.json"
           := VObj [("parameters", default (VObj []) (req_parameters data))]]> fs)
  | raises_construct data root e :
      current_root w (req_componentPath data) = Some root ->
      write_fault w (os_path_join w root "data") = None ->
      os_path_exists w (os_path_join w root "src") = true ->
      os_path_exists w (os_path_join w (os_path_join w root "src") "component.py") = true ->
      import_Component w (os_path_join w root "src") = Ok (Raise e) ->
      raises rt w fs (Ok data) e
        (<[os_path_join w (os_path_join w root "data") "config.json"
           := VObj [("parameters", default (VObj []) (req_parameters data))]]> fs)
  | raises_name data comp fs1 :
      prepare rt w data fs = (Ok (Loaded comp), fs1) ->
      (forall action, req_action data <> VStr action) ->
      raises rt w fs (Ok data) (fault rt SubNonString) fs1
  | raises_call data comp fs1 action a e :
      prepare rt w data fs = (Ok (Loaded comp), fs1) ->
      req_action data = VStr action ->
      find_method comp (possible_names action) = Some a ->
      attr_truthy a = true -> attr_callable a = true ->
      attr_call a fs1 = Raise e ->
      raises rt w fs (Ok data) e fs1
  | raises_jsonify data comp fs1 action a :
      prepare rt w data fs = (Ok (Loaded comp), fs1) ->
      req_action data = VStr action ->
      find_method comp (possible_names action) = Some a ->
      attr_truthy a = true -> attr_callable a = true ->
      attr_call a fs1 = Ok PNonJson ->
      raises rt w fs (Ok data) (fault rt NotSerializable) fs1.

End Server.

(* ===================================================================== *)
(** ** The JavaScript of the page: the language *)
(* ===================================================================== *)

Module Js.

(** [if (v)], [!v], [a || b]. *)
Definition truthy (v : value) : bool :=
  match v with
  | VUndef | VNull => false
  | VBool b => b
  | VNum n => negb (n =? 0)
  | VStr s => negb (String.eqb s EmptyString)
  | VArr _ | VObj _ => true
  end.

Definition or_else (a b : value) : value := if truthy a then a else b.

(** [a === b].  Primitives compare by type and value.  Two objects or two
    arrays are equal only if they are one object; every comparison of the
    source has its operands from different documents (a schema and a form
    value) or a string literal on one side, so they never are. *)
Definition strict_eq (a b : value) : bool :=
  match a, b with
  | VUndef, VUndef => true
  | VNull, VNull => true
  | VBool x, VBool y => Bool.eqb x y
  | VNum x, VNum y => x =? y
  | VStr x, VStr y => String.eqb x y
  | _, _ => false
  end.

(** [typeof v === 'object']. *)
Definition typeof_object (v : value) : bool :=
  match v with
  | VNull | VArr _ | VObj _ => true
  | _ => false
  end.

Definition isArray (v : value) : bool :=
  match v with VArr _ => true | _ => false end.

(** Errors thrown while the page runs. *)
Inductive js_error :=
  | TypeError_property         (* a property of null or undefined is read *)
  | TypeError_call             (* what is called is not a function *)
  | Error (message : string).  (* throw new Error(message) *)

Inductive completion (A : Type) :=
  | Normal (a : A)
  | Throw (e : js_error).
Arguments Normal {A} a.
Arguments Throw {A} e.

Definition cbind {A B} (c : completion A) (k : A -> completion B) : completion B :=
  match c with
  | Normal a => k a
  | Throw e => Throw e
  end.

Notation "x <- c ;; k" := (cbind c (fun x => k))
  (at level 100, c at next level, right associativity).

(** The own enumerable properties of a value, as [Object.keys] lists them:
    the fields of an object, the indices of an array or of a string. *)
Definition own_entries (v : value) : obj :=
  match v with
  | VObj o => o
  | VArr l => imap (fun i x => (pretty i, x)) l
  | VStr s => imap (fun i c => (pretty i, VStr (String c EmptyString)))
                   (list_ascii_of_string s)
  | _ => []
  end.

(** The index a property key denotes on an array or a string: a decimal
    numeral without leading zero. *)
Fixpoint parse_digits (acc : nat) (s : string) : option nat :=
  match s with
  | EmptyString => Some acc
  | String c s' =>
      if is_digit c
      then parse_digits (10 * acc + (nat_of_ascii c - 48)) s'
      else None
  end.

Definition array_index (k : string) : option nat :=
  match k with
  | EmptyString => None
  | String c EmptyString => parse_digits 0 k
  | String c _ => if Ascii.eqb c "0" then None else parse_digits 0 k
  end.

(** [v[k]] for a key [k] that no prototype defines: an own property, or
    undefined. *)
Definition own (v : value) (k : string) : value :=
  match v with
  | VObj o => obj_get o k
  | VArr l =>
      match array_index k with
      | Some i => nth i l VUndef
      | None => VUndef
      end
  | VStr s =>
      match array_index k with
      | Some i => match String.get i s with
                  | Some c => VStr (String c EmptyString)
                  | None => VUndef
                  end
      | None => VUndef
      end
  | _ => VUndef
  end.

(** [v.k] for the names the page reads from schema documents and
    responses; none of them is a property of a prototype.  Reading from
    null or undefined throws. *)
Definition get (v : value) (k : string) : completion value :=
  match v with
  | VUndef | VNull => Throw TypeError_property
  | _ => Normal (own v k)
  end.

(** [v?.k]. *)
Definition get_opt (v : value) (k : string) : value :=
  match v with
  | VUndef | VNull => VUndef
  | _ => own v k
  end.

(** [Object.keys(v)]. *)
Definition keys (v : value) : completion (list string) :=
  match v with
  | VUndef | VNull => Throw TypeError_property
  | _ => Normal (Object_keys (own_entries v))
  end.

(** [keys.includes(key)]. *)
Definition includes (l : list string) (key : string) : bool :=
  existsb (String.eqb key) l.

(** [String(v)], the conversion a DOM string attribute applies. *)
Fixpoint to_string (v : value) : string :=
  match v with
  | VUndef => "undefined"
  | VNull => "null"
  | VBool true => "true"
  | VBool false => "false"
  | VNum n => pretty n
  | VStr s => s
  | VArr l =>
      join "," (map (fun x => match x with
                              | VUndef | VNull => EmptyString
                              | _ => to_string x
                              end) l)
  | VObj _ => "[object Object]"
  end.

(** The built-ins of the engine the model does not compute. *)
Record engine := {
  StringToNumber : string -> option Z    (* Number(s); None is NaN *)
}.

(** [Number(v)]. *)
Definition ToNumber (en : engine) (v : value) : option Z :=
  match v with
  | VUndef => None
  | VNull => Some 0
  | VBool b => Some (if b then 1 else 0)
  | VNum n => Some n
  | VStr s => StringToNumber en s
  | VArr _ | VObj _ => StringToNumber en (to_string v)
  end.

(** [v >= n], [v <= n], [v > n] against a number literal. *)
Definition ge (en : engine) (v : value) (n : Z) : bool :=
  match ToNumber en v with Some x => n <=? x | None => false end.
Definition le (en : engine) (v : value) (n : Z) : bool :=
  match ToNumber en v with Some x => x <=? n | None => false end.
Definition gt (en : engine) (v : value) (n : Z) : bool :=
  match ToNumber en v with Some x => n <? x | None => false end.

(** The property names every object inherits from [Object.prototype]. *)
Definition Object_prototype : list string :=
  ["constructor"; "__defineGetter__"; "__defineSetter__"; "hasOwnProperty";
   "__lookupGetter__"; "__lookupSetter__"; "isPrototypeOf";
   "propertyIsEnumerable"; "toString"; "valueOf"; "__proto__";
   "toLocaleString"].

End Js.

(* ===================================================================== *)
(** ** Form state merger *)
(* ===================================================================== *)

Module Merger.
Import Js.

(** A JSONEditor instance, as far as the page uses it here: the schema
    it was built from, its [ready] flag, and the value it holds. *)
Record editor := {
  schema : value;
  ready : bool;
  current : obj
}.

Definition getValue (e : editor) : obj := current e.

Definition setValue (e : editor) (v : obj) : editor :=
  {| schema := schema e; ready := ready e; current := v |}.

(** The two globals [componentEditor] and [rowEditor]; [None] before
    [initializeEditors] ran. *)
Record editors := {
  componentEditor : option editor;
  rowEditor : option editor
}.

(** The loop over [Object.keys(config)] of [splitAndFillConfig]. *)
Definition split_step (componentKeys rowKeys : list string)
    (acc : obj * obj) (kv : string * value) : obj * obj :=
  let '(componentParams, rowParams) := acc in
  let '(key, v) := kv in
  let componentParams :=
    if includes componentKeys key then obj_set componentParams key v
    else componentParams in
  let rowParams :=
    if includes rowKeys key then obj_set rowParams key v else rowParams in
  (componentParams, rowParams).

Definition split (componentKeys rowKeys : list string) (config : obj) : obj * obj :=
  fold_left (split_step componentKeys rowKeys) config ([], []).

(** [Object.keys(editor.schema.properties || {})]. *)
Definition declared (e : editor) : completion (list string) :=
  properties <- get (schema e) "properties" ;;
  keys (or_else properties (VObj [])).

Definition splitAndFillConfig (config : value) (eds : editors)
  : completion editors :=
  match componentEditor eds, rowEditor eds with
  | Some ce, Some re =>
      componentKeys <- declared ce ;;
      rowKeys <- declared re ;;
      _ <- keys config ;;
      let '(componentParams, rowParams) :=
        split componentKeys rowKeys (own_entries config) in
      let ce' := if (0 <? List.length componentParams)%nat
                 then setValue ce componentParams else ce in
      let re' := if (0 <? List.length rowParams)%nat
                 then setValue re rowParams else re in
      Normal {| componentEditor := Some ce'; rowEditor := Some re' |}
  | _, _ => Normal eds      (* 'Editors not ready yet' *)
  end.

(** [updateCombinedOutput]: the document whose JSON text is written to
    #combined-output, or [None] when the function returns before. *)
Definition updateCombinedOutput (eds : editors) : option value :=
  match componentEditor eds, rowEditor eds with
  | Some ce, Some re =>
      if ready ce && ready re
      then Some (VObj [("parameters", VObj (spread (getValue ce) (getValue re)))])
      else None
  | _, _ => None
  end.

End Merger.

(* ===================================================================== *)
(** ** Dependency resolver *)
(* ===================================================================== *)

Module Dependencies.
Import Js.

(** [checkDependencies] of [setupDependencies], for the field whose
    [options.dependencies] is [dependencies]; [values] is
    [editor.getValue()].  The function exists only where [dependencies]
    is truthy.  It returns [shouldShow]. *)
Definition checkDependencies (dependencies : value) (values : obj) : bool :=
  fold_left
    (fun shouldShow depField =>
       let expectedValue := own dependencies depField in
       let actualValue := obj_get values depField in
       if negb (strict_eq actualValue expectedValue) then false else shouldShow)
    (Object_keys (own_entries dependencies))
    true.

(** [fieldEditor.container.style.display] after the check. *)
Definition display (shouldShow : bool) : string :=
  if shouldShow then EmptyString else "none".

End Dependencies.

(* ===================================================================== *)
(** ** Field group classifier *)
(* ===================================================================== *)

Module Groups.
Import Js.

(** The group name [detectFieldGroups] computes for one property. *)
Definition groupName (en : engine) (prop : value) : completion value :=
  g <- get prop "x-kbc-group" ;;
  let groupName := or_else g VNull in
  order <- get prop "propertyOrder" ;;
  let groupName :=
    if negb (truthy groupName) && negb (strict_eq order VUndef) then
      if ge en order 1 && le en order 4 then VStr "Connection"
      else if ge en order 5 && le en order 7 then VStr "Data Selection"
      else if ge en order 8 then VStr "Destination"
      else groupName
    else groupName in
  let groupName :=
    if negb (truthy groupName) then VStr "Configuration" else groupName in
  Normal groupName.

(** [groups]: group name -> keys, in insertion order. *)
Abbreviation groups := (list (string * list string)).

Fixpoint groups_get (gs : groups) (g : string) : option (list string) :=
  match gs with
  | [] => None
  | (g', l) :: gs' => if String.eqb g' g then Some l else groups_get gs' g
  end.

Fixpoint groups_push (gs : groups) (g : string) (key : string) : groups :=
  match gs with
  | [] => [(g, [key])]
  | (g', l) :: gs' =>
      if String.eqb g' g then (g', l ++ [key]) :: gs'
      else (g', l) :: groups_push gs' g key
  end.

(** [if (!groups[g]) groups[g] = []; groups[g].push(key)].  A name that
    [Object.prototype] defines reads truthy on the fresh object, is never
    assigned, and has no [push]. *)
Definition push (gs : groups) (g : string) (key : string) : completion groups :=
  if includes Object_prototype g then Throw TypeError_call
  else Normal (groups_push gs g key).

Definition detectFieldGroups (en : engine) (schema : value) : completion groups :=
  properties <- get schema "properties" ;;
  if negb (truthy properties) then Normal []
  else
    fold_left
      (fun acc kv =>
         gs <- acc ;;
         name <- groupName en (snd kv) ;;
         push gs (to_string name) (fst kv))
      (own_entries properties)
      (Normal []).

(** [groups[g]] lists [key]. *)
Definition listed (gs : groups) (g key : string) : Prop :=
  exists l, groups_get gs g = Some l /\ key ∈ l.

(** The properties on which the loop of [detectFieldGroups] does not
    throw: objects whose group name is not a name of [Object.prototype]. *)
Definition groupable (en : engine) (prop : value) : Prop :=
  exists p name, prop = VObj p /\ groupName en prop = Normal name
                 /\ includes Object_prototype (to_string name) = false.

End Groups.

(* ===================================================================== *)
(** ** Schema normalizer *)
(* ===================================================================== *)

Module Normalizer.
Import Js.

(** [format.replace(/-([a-z])/g, (g) => g[1].toUpperCase())]. *)
Fixpoint camelize (s : string) : string :=
  match s with
  | EmptyString => EmptyString
  | String c tl =>
      match tl with
      | String l rest =>
          if Ascii.eqb c "-" && is_lower l
          then String (to_upper l) (camelize rest)
          else String c (camelize tl)
      | EmptyString => String c EmptyString
      end
  end.

(** [v.k = x] on an object. *)
Definition set_prop (v : value) (k : string) (x : value) : value :=
  match v with
  | VObj o => VObj (obj_set o k x)
  | _ => v
  end.

(** The string field that replaces a button [prop] (whose [type] was
    read already, so [prop] is neither null nor undefined).  The source
    has this block twice: for a top-level property ([toplevel = true]),
    and for a property of a top-level object, where the branch on
    [format] does not set the label. *)
Definition button (toplevel : bool) (prop : value) : completion value :=
  let title := own prop "title" in
  let format := own prop "format" in
  let label := or_else title (VStr "Button") in
  let async := get_opt (own prop "options") "async" in
  al <-
    (if truthy (get_opt async "action") then
       let action := own async "action" in
       let label := if truthy (own async "label") then own async "label"
                    else label in
       Normal (action, label)
     else if truthy format then
       match format with
       | VStr f =>
           let action := camelize f in
           let label := if toplevel && String.eqb action "testConnection"
                        then VStr "Test Connection" else label in
           Normal (VStr action, label)
       | _ => Throw TypeError_call      (* format.replace is no function *)
       end
     else Normal (VStr "unknown", label)) ;;
  Normal (VObj [("type", VStr "string");
                ("title", or_else title (VStr EmptyString));
                ("default", VStr EmptyString);
                ("options", VObj [("_isButton", VBool true);
                                  ("_action", fst al);
                                  ("_label", snd al);
                                  ("_format", format);
                                  ("inputAttributes",
                                   VObj [("style", VStr "display: none;")])]);
                ("propertyOrder", own prop "propertyOrder")]).

(** [Object.keys(v).forEach(key => { v[key] = f(v[key]) })]. *)
Fixpoint mapM {A B} (f : A -> completion B) (l : list A) : completion (list B) :=
  match l with
  | [] => Normal []
  | a :: l' => b <- f a ;; bs <- mapM f l' ;; Normal (b :: bs)
  end.

Definition map_own (f : value -> completion value) (v : value) : completion value :=
  match v with
  | VObj o => o' <- mapM (fun kv => x <- f (snd kv) ;; Normal (fst kv, x)) o ;;
              Normal (VObj o')
  | VArr l => l' <- mapM f l ;; Normal (VArr l')
  | _ => Normal v
  end.

(** The body of the inner loop: a property of a top-level object. *)
Definition nested_property (nestedProp : value) : completion value :=
  type <- get nestedProp "type" ;;
  if strict_eq type (VStr "button") then button false nestedProp
  else Normal nestedProp.

(** The body of the outer loop: a top-level property. *)
Definition property (prop : value) : completion value :=
  type <- get prop "type" ;;
  if strict_eq type (VStr "button") then
    (* processed.properties[key] is replaced; what follows in the loop
       body acts on the old object and reads no property of null *)
    button true prop
  else
    (* async selects *)
    let prop :=
      if strict_eq (own prop "format") (VStr "select")
         && truthy (get_opt (own prop "options") "async")
      then set_prop prop "options"
             (set_prop (own prop "options") "_hasAsync" (VBool true))
      else prop in
    (* multiselect arrays *)
    let prop :=
      if strict_eq (own prop "type") (VStr "array")
         && strict_eq (own prop "format") (VStr "select")
      then
        let prop := if negb (truthy (own prop "options"))
                    then set_prop prop "options" (VObj []) else prop in
        set_prop prop "uniqueItems" (VBool true)
      else prop in
    (* enum_titles: a console warning only *)
    (* nested objects *)
    if strict_eq (own prop "type") (VStr "object")
       && truthy (own prop "properties")
    then
      nested <- map_own nested_property (own prop "properties") ;;
      Normal (set_prop prop "properties" nested)
    else Normal prop.

(** [preprocessSchema].  [schema] is a JSON document, on which the deep
    clone [JSON.parse(JSON.stringify(schema))] is the identity. *)
Definition preprocessSchema (schema : value) : completion value :=
  let processed := schema in
  properties <- get processed "properties" ;;
  if truthy properties then
    properties' <- map_own property properties ;;
    Normal (set_prop processed "properties" properties')
  else Normal processed.

End Normalizer.

(* ===================================================================== *)
(** ** Async option loader: handling the response *)
(* ===================================================================== *)

Module Loader.
Import Js.

(** An <option> of the select. *)
Record option_element := { value_attr : string; text : string }.

(** [fieldEditor.input]. *)
Record input_element := {
  tagName : string;
  disabled : bool;
  opacity : string;
  options : list option_element
}.

(** An [alert] of the catch block. *)
Record notice := { about : string; error : js_error }.

Definition set_busy (busy : bool) (el : option input_element)
  : option input_element :=
  match el with
  | Some e => Some {| tagName := tagName e; disabled := busy;
                      opacity := if busy then "0.6" else "1";
                      options := options e |}
  | None => None
  end.

(** "Handle different response formats". *)
Definition response_options (result : value) : completion value :=
  o <- get result "options" ;;
  if truthy o then Normal o
  else
    let d := own result "data" in
    if truthy d then Normal d
    else if isArray result then Normal result
    else Normal (VArr []).

(** [options.length]. *)
Definition length_of (v : value) : value :=
  match v with
  | VArr l => VNum (Z.of_nat (List.length l))
  | VStr s => VNum (Z.of_nat (String.length s))
  | _ => own v "length"
  end.

(** [options.map(f)]. *)
Definition array_map {B} (f : value -> completion B) (v : value)
  : completion (list B) :=
  match v with
  | VArr l => Normalizer.mapM f l
  | _ => Throw TypeError_call
  end.

(** [typeof opt === 'object' ? opt.k : opt]. *)
Definition member (k : string) (opt : value) : completion value :=
  if typeof_object opt then get opt k else Normal opt.

Definition make_option (value label : value) : option_element :=
  {| value_attr := to_string value; text := to_string label |}.

Definition empty_option : option_element :=
  {| value_attr := EmptyString; text := "-- Select --" |}.

(** From the resolved [result] to the end of the [if (options.length > 0)]
    block. *)
Definition populate (en : engine) (prop : value) (el : option input_element)
    (result : value) : completion (option input_element) :=
  options <- response_options result ;;
  if gt en (length_of options) 0 then
    values <- array_map (member "value") options ;;
    labels <- array_map (member "label") options ;;
    match el with
    | Some e =>
        if String.eqb (tagName e) "SELECT" then
          let head := if negb (truthy (own prop "required"))
                      then [empty_option] else [] in
          let new := zip_with make_option values labels in
          Normal (Some {| tagName := tagName e; disabled := disabled e;
                          opacity := opacity e; options := head ++ new |})
        else Normal el       (* 'Field is not a select element' *)
    | None => Normal el
    end
  else Normal el.

(** [loadOptions] from the moment [callSyncAction] settles: [response] is
    the parsed body, or the error the await throws.  [prop] is the
    field's declaration in the original schema (truthy where
    [loadOptions] exists). *)
Definition loadOptions (en : engine) (prop : value) (fieldPath : string)
    (el : option input_element) (response : completion value)
  : option input_element * list notice :=
  let busy := set_busy true el in
  match (result <- response ;; populate en prop busy result) with
  | Normal el' => (set_busy false el', [])
  | Throw e =>
      (set_busy false busy,
       [{| about := to_string (or_else (own prop "title") (VStr fieldPath));
           error := e |}])
  end.

(** The elements the specification names: [{value, label}] pairs and bare
    scalars. *)
Definition entry (opt : value) : Prop :=
  match opt with
  | VObj _ | VStr _ | VNum _ | VBool _ => True
  | _ => False
  end.

(** The three response shapes of the specification: a bare array,
    [{options: array}], [{data: array}]. *)
Definition carries (result : value) (arr : list value) : Prop :=
  result = VArr arr
  \/ (exists o, result = VObj o /\ obj_get o "options" = VArr arr)
  \/ (exists o, result = VObj o /\ truthy (obj_get o "options") = false
                /\ obj_get o "data" = VArr arr).

(** The <option> the specification expects for an element. *)
Definition spec_option (opt : value) : option_element :=
  match opt with
  | VObj o => {| value_attr := to_string (obj_get o "value");
                 text := to_string (obj_get o "label") |}
  | _ => {| value_attr := to_string opt; text := to_string opt |}
  end.

End Loader.

(* ===================================================================== *)
(** ** Async option loader: the debounced watch *)
(* ===================================================================== *)

Module Watch.
Import Js.

(** The two closures [setupAsyncField] hands to [setTimeout]; both end in
    [loadOptions()] of the field. *)
Inductive callback :=
  | Debounced (fieldPath watchField : string)  (* 'Watch triggered: ...' *)
  | Autoload (fieldPath : string).             (* 'Auto-loading options ...' *)

Definition field_of (cb : callback) : string :=
  match cb with
  | Debounced f _ => f
  | Autoload f => f
  end.

(** A timer of the event loop. *)
Record timer := { id : nat; due : Z; run : callback }.

(** A call of [loadOptions]: when, from which closure, and the
    [editor.getValue()] it read. *)
Record load := { at_time : Z; by_callback : callback; parameters : obj }.

(** [editor.watch(path, ...)] of [setupAsyncField]. *)
Record watcher := { path : string; fieldPath : string; watchField : string }.

(** The page: clock in milliseconds, timers in creation order, the global
    [watchDebounceTimers], the watch registry of the editor, the editor's
    value, and the log of [loadOptions] calls. *)
Record page := {
  now : Z;
  next_id : nat;
  pending : list timer;
  watchDebounceTimers : gmap string nat;
  watchers : list watcher;
  form : obj;
  loads : list load
}.

(** [setTimeout(cb, delay)]: the id it returns, and the page after. *)
Definition setTimeout (cb : callback) (delay : Z) (pg : page) : nat * page :=
  (next_id pg,
   {| now := now pg;
      next_id := S (next_id pg);
      pending := pending pg ++ [{| id := next_id pg; due := now pg + delay; run := cb |}];
      watchDebounceTimers := watchDebounceTimers pg;
      watchers := watchers pg;
      form := form pg;
      loads := loads pg |}).

(** [clearTimeout(t)]. *)
Definition clearTimeout (t : nat) (pg : page) : page :=
  {| now := now pg;
     next_id := next_id pg;
     pending := filter (fun tm => id tm <> t) (pending pg);
     watchDebounceTimers := watchDebounceTimers pg;
     watchers := watchers pg;
     form := form pg;
     loads := loads pg |}.

Definition set_timer_key (timerKey : string) (t : nat) (pg : page) : page :=
  {| now := now pg;
     next_id := next_id pg;
     pending := pending pg;
     watchDebounceTimers := <[timerKey := t]> (watchDebounceTimers pg);
     watchers := watchers pg;
     form := form pg;
     loads := loads pg |}.

(** The function passed to [editor.watch]. *)
Definition on_watch (w : watcher) (pg : page) : page :=
  let timerKey := fieldPath w +:+ "_" +:+ watchField w in
  let pg :=
    match watchDebounceTimers pg !! timerKey with
    | Some t => if negb (Nat.eqb t 0) then clearTimeout t pg else pg
    | None => pg
    end in
  let '(t, pg) := setTimeout (Debounced (fieldPath w) (watchField w)) 1000 pg in
  set_timer_key timerKey t pg.

(** [watchFieldRaw.replace(/^parameters\./, '')]. *)
Definition strip_parameters (raw : string) : string :=
  if String.prefix "parameters." raw
  then String.substring 11 (String.length raw - 11) raw
  else raw.

Definition add_watcher (w : watcher) (pg : page) : page :=
  {| now := now pg;
     next_id := next_id pg;
     pending := pending pg;
     watchDebounceTimers := watchDebounceTimers pg;
     watchers := watchers pg ++ [w];
     form := form pg;
     loads := loads pg |}.

(** The part of [setupAsyncField] that registers the watches and the
    mount-time load, for a field whose editor exists; [asyncOptions] is
    [prop.options.async]. *)
Definition setupAsyncField (fieldPath : string) (asyncOptions : value)
    (pg : page) : completion page :=
  let autoloadConfig := own asyncOptions "autoload" in
  let watchFields := match autoloadConfig with VArr l => l | _ => [] end in
  let autoload := strict_eq autoloadConfig (VBool true)
                  || (isArray autoloadConfig && (0 <? List.length watchFields)%nat) in
  pg <- fold_left
          (fun acc watchFieldRaw =>
             pg <- acc ;;
             match watchFieldRaw with
             | VStr raw =>
                 let watchField := strip_parameters raw in
                 Normal (add_watcher {| path := "root." +:+ watchField;
                                        fieldPath := fieldPath;
                                        watchField := watchField |} pg)
             | _ => Throw TypeError_call   (* watchFieldRaw.replace *)
             end)
          watchFields (Normal pg) ;;
  Normal (if autoload then snd (setTimeout (Autoload fieldPath) 500 pg) else pg).

(** A timer fires: its closure calls [loadOptions], which reads the form. *)
Definition fire (pg : page) (tm : timer) : page :=
  {| now := due tm;
     next_id := next_id pg;
     pending := pending pg;
     watchDebounceTimers := watchDebounceTimers pg;
     watchers := watchers pg;
     form := form pg;
     loads := loads pg ++ [{| at_time := due tm; by_callback := run tm;
                              parameters := form pg |}] |}.

(** Timers fire in the order of their due times, and in creation order
    among equal ones. *)
Fixpoint insert_by_due (tm : timer) (l : list timer) : list timer :=
  match l with
  | [] => [tm]
  | tm' :: l' =>
      if due tm <? due tm' then tm :: tm' :: l'
      else tm' :: insert_by_due tm l'
  end.

Definition by_due (l : list timer) : list timer :=
  fold_left (fun acc tm => insert_by_due tm acc) l [].

(** The event loop runs until the clock reads [t]. *)
Definition run_until (t : Z) (pg : page) : page :=
  let fired := by_due (filter (fun tm => due tm <= t) (pending pg)) in
  let pg := {| now := now pg;
               next_id := next_id pg;
               pending := filter (fun tm => ~ due tm <= t) (pending pg);
               watchDebounceTimers := watchDebounceTimers pg;
               watchers := watchers pg;
               form := form pg;
               loads := loads pg |} in
  let pg := fold_left fire fired pg in
  {| now := Z.max (now pg) t;
     next_id := next_id pg;
     pending := pending pg;
     watchDebounceTimers := watchDebounceTimers pg;
     watchers := watchers pg;
     form := form pg;
     loads := loads pg |}.

(** At time [t] the user changes the field at [p]; the editor then holds
    [form'] and calls the watchers registered on [p]. *)
Record change := { when : Z; where_ : string; form_after : obj }.

Definition set_form (f : obj) (pg : page) : page :=
  {| now := now pg;
     next_id := next_id pg;
     pending := pending pg;
     watchDebounceTimers := watchDebounceTimers pg;
     watchers := watchers pg;
     form := f;
     loads := loads pg |}.

Definition on_change (c : change) (pg : page) : page :=
  let pg := run_until (when c) pg in
  let pg := set_form (form_after c) pg in
  fold_left (fun pg w => on_watch w pg)
            (filter (fun w => path w = where_ c) (watchers pg)) pg.

Definition run_changes (cs : list change) (pg : page) : page :=
  fold_left (fun pg c => on_change c pg) cs pg.

#[global] Instance callback_eq_dec : EqDecision callback.
Proof. solve_decision. Defined.

(** The ids the browser hands out are positive and fresh: every id in
    use is below the next one. *)
Definition well_formed (pg : page) : Prop :=
  (0 < next_id pg)%nat
  /\ (forall tm, tm ∈ pending pg -> (0 < id tm < next_id pg)%nat)
  /\ (forall k t, watchDebounceTimers pg !! k = Some t -> (t < next_id pg)%nat).

(** The registry is the work of [setupAsyncField]. *)
Definition registered (pg : page) : Prop :=
  forall w, w ∈ watchers pg -> path w = "root." +:+ watchField w.

(** Changes in quick succession: each comes no earlier than the one
    before it (at [t]) and less than the delay of 1000 after it. *)
Fixpoint rapid (t : Z) (cs : list change) : Prop :=
  match cs with
  | [] => True
  | c :: cs' => t <= when c < t + 1000 /\ rapid (when c) cs'
  end.

(** The pending debounce timers and the reloads of one (field, watched
    field) pair. *)
Definition debounce_timers (F W : string) (pg : page) : list timer :=
  filter (fun tm => run tm = Debounced F W) (pending pg).

Definition debounce_loads (F W : string) (pg : page) : list load :=
  filter (fun l => by_callback l = Debounced F W) (loads pg).

(** The invariant of the debounce: at most one timer of the pair is
    pending, [watchDebounceTimers] holds its id under the pair's key and
    under no other key, and no reload of the pair was added to [before]. *)
Definition debounce_inv (F W : string) (before : list load) (pg : page)
    (o : option timer) : Prop :=
  well_formed pg
  /\ registered pg
  /\ debounce_timers F W pg = option_list o
  /\ debounce_loads F W pg = before
  /\ (forall tm, o = Some tm ->
        watchDebounceTimers pg !! (F +:+ "_" +:+ W) = Some (id tm)
        /\ forall k, k <> F +:+ "_" +:+ W ->
                     watchDebounceTimers pg !! k <> Some (id tm)).

End Watch.

(* ===================================================================== *)
(** ** Sample inputs *)
(* ===================================================================== *)

Module Sample.
Import Server.

Definition rt : runtime :=
  {| fault_str := fun _ => "TypeError";
     fault_traceback := fun _ => "Traceback (most recent call last): ...";
     py_repr := fun _ => "{...}" |}.

(** A machine on which every path exists, with the project at /code. *)
Definition world_with (unit : result (result component)) : world :=
  {| project_root := Some "/code";
     os_path_isdir := fun _ => true;
     os_path_exists := fun _ => true;
     os_path_basename := fun p => p;
     os_path_dirname := fun p => p;
     os_path_join := fun a b => a +:+ "/" +:+ b;
     write_fault := fun _ => None;
     import_Component := fun _ => unit |}.

Definition request_of (action : string) : request :=
  {| req_action := VStr action;
     req_parameters := Some (VObj [("host", VStr "db")]);
     req_componentPath := None |}.

Definition success : value := VObj [("status", VStr "success")].

(** A method that returns [{"status": "success"}]. *)
Definition method_ok : attr :=
  {| attr_truthy := true; attr_callable := true;
     attr_call := fun _ => Ok (PJson success) |}.

(** A method that raises. *)
Definition boom : pyexc :=
  {| exc_cls := OtherException; exc_str := "connection refused";
     exc_traceback := "Traceback (most recent call last): ... UserException" |}.

Definition method_raising : attr :=
  {| attr_truthy := true; attr_callable := true;
     attr_call := fun _ => Raise boom |}.

(** A plain data attribute, such as a class constant. *)
Definition data_attribute : attr :=
  {| attr_truthy := true; attr_callable := false;
     attr_call := fun _ => Ok PNonJson |}.

(** A unit whose only attribute is the method [test_connection]. *)
Definition unit_snake : component := {[ "test_connection" := method_ok ]}.

(** A unit with a data attribute [testConnection] beside the method. *)
Definition unit_shadowed : component :=
  <[ "testConnection" := data_attribute ]> unit_snake.

Definition unit_raising : component := {[ "test_connection" := method_raising ]}.

Definition no_module : pyexc :=
  {| exc_cls := ImportError; exc_str := "No module named 'component'";
     exc_traceback := "Traceback (most recent call last): ... ModuleNotFoundError" |}.

Definition engine : Js.engine := {| Js.StringToNumber := fun _ => None |}.

(** A button declared by its format alone. *)
Definition test_button : value :=
  VObj [("type", VStr "button"); ("format", VStr "test-connection");
        ("propertyOrder", VNum 3)].

(** The same button at depth one, two and three of a schema. *)
Definition schema_depth1 : value :=
  VObj [("type", VStr "object");
        ("properties", VObj [("test", test_button)])].

Definition schema_depth2 : value :=
  VObj [("type", VStr "object");
        ("properties",
         VObj [("db", VObj [("type", VStr "object");
                            ("properties", VObj [("test", test_button)])])])].

Definition schema_depth3 : value :=
  VObj [("type", VStr "object");
        ("properties",
         VObj [("source",
                VObj [("type", VStr "object");
                      ("properties",
                       VObj [("db", VObj [("type", VStr "object");
                                          ("properties",
                                           VObj [("test", test_button)])])])])])].

(** What the button is replaced with, given its label. *)
Definition hidden_field (label : string) : value :=
  VObj [("type", VStr "string");
        ("title", VStr EmptyString);
        ("default", VStr EmptyString);
        ("options", VObj [("_isButton", VBool true);
                          ("_action", VStr "testConnection");
                          ("_label", VStr label);
                          ("_format", VStr "test-connection");
                          ("inputAttributes",
                           VObj [("style", VStr "display: none;")])]);
        ("propertyOrder", VNum 3)].

(** A select that already lists one option. *)
Definition select_with_old : Loader.input_element :=
  {| Loader.tagName := "SELECT"; Loader.disabled := false;
     Loader.opacity := "1";
     Loader.options := [{| Loader.value_attr := "t1"; Loader.text := "Table 1" |}] |}.

(** A page before and after [setupAsyncField] for the select [table],
    which reloads when [base_id] changes. *)
Definition fresh_page : Watch.page :=
  {| Watch.now := 0; Watch.next_id := 1; Watch.pending := [];
     Watch.watchDebounceTimers := ∅; Watch.watchers := [];
     Watch.form := [("base_id", VStr EmptyString)]; Watch.loads := [] |}.

Definition async_tables : value :=
  VObj [("action", VStr "listTables");
        ("autoload", VArr [VStr "parameters.base_id"])].

Definition mounted_page : Watch.page :=
  {| Watch.now := 0; Watch.next_id := 2;
     Watch.pending := [{| Watch.id := 1; Watch.due := 500;
                          Watch.run := Watch.Autoload "table" |}];
     Watch.watchDebounceTimers := ∅;
     Watch.watchers := [{| Watch.path := "root.base_id";
                           Watch.fieldPath := "table";
                           Watch.watchField := "base_id" |}];
     Watch.form := [("base_id", VStr EmptyString)]; Watch.loads := [] |}.

(** Three keystrokes in [base_id], 500 and 600 apart. *)
Definition keystroke (t : Z) (text : string) : Watch.change :=
  {| Watch.when := t; Watch.where_ := "root.base_id";
     Watch.form_after := [("base_id", VStr text)] |}.

Definition typing : list Watch.change :=
  [keystroke 100 "a"; keystroke 600 "ap"; keystroke 1200 "app"].

Definition stored : Server.schemas :=
  {| loaded_component_schema := VObj [("type", VStr "object")];
     loaded_row_schema := VObj [("type", VStr "object")];
     loaded_component_name := VStr "ex-demo" |}.

End Sample.

(* ===================================================================== *)
(** ** Auto-discovery and the read-only views *)
(* ===================================================================== *)

Module Discovery.
Import Server.

(** What the discovery functions ask of the process beyond [world]:
    [os.path.abspath] and the location of the script ([__file__]). *)
Record process := {
  os_path_abspath : string -> string;
  script_file : string
}.

(** The [while] loop of [find_project_root]; [budget] is what is left of
    [max_depth - depth]. *)
Fixpoint climb (w : world) (budget : nat) (current : string) : option string :=
  match budget with
  | O => None
  | S budget' =>
      if String.eqb current "/" then None
      else if os_path_exists w (os_path_join w current "component_config")
      then Some current
      else climb w budget' (os_path_dirname w current)
  end.

(** Where the search starts. *)
Definition start_of (p : process) (w : world) (start_path : option string)
  : string :=
  match start_path with
  | Some s =>
      if negb (String.eqb s EmptyString) then os_path_abspath p s
      else os_path_dirname w (os_path_abspath p (script_file p))
  | None => os_path_dirname w (os_path_abspath p (script_file p))
  end.

Definition find_project_root (p : process) (w : world)
    (start_path : option string) : option string :=
  climb w 10 (start_of p w start_path).

Definition resolve_component_path (p : process) (w : world)
    (path_arg : option string) : option string :=
  match path_arg with
  | None => None
  | Some a =>
      if String.eqb a EmptyString then None
      else
        let abs_path := os_path_abspath p a in
        if String.eqb (os_path_basename w abs_path) "component_config"
           && os_path_isdir w abs_path
        then Some (os_path_dirname w abs_path)
        else if os_path_exists w (os_path_join w abs_path "component_config")
        then Some abs_path
        else find_project_root p w (Some abs_path)
  end.

Definition find_component_config (w : world) (project_root : string) : string :=
  os_path_join w project_root "component_config".

Definition find_config_json (w : world) (project_root : string) : option string :=
  let path := os_path_join w (os_path_join w project_root "data") "config.json" in
  if os_path_exists w path then Some path else None.

(** The [k]-th ancestor of a path: [os.path.dirname] applied [k] times. *)
Definition ancestor (w : world) (k : nat) (path : string) : string :=
  Nat.iter k (os_path_dirname w) path.

End Discovery.

Module Views.
Import Server.

(** The two path globals set at startup. *)
Record paths := {
  component_config_path : option string;
  config_json_path : option string
}.

(** [open(path)] and [json.load]: the document, or the exception raised. *)
Abbreviation reader := (string -> result value).

(** [request.args.get('path')] if truthy, else the global. *)
Definition path_or (manual_path global : option string) : option string :=
  match manual_path with
  | Some m => if negb (String.eqb m EmptyString) then Some m else global
  | None => global
  end.

Definition ok (v : value) : outcome :=
  Responded {| status_code := 200; body := v |}.

(** [get_discovery_info]. *)
Definition get_discovery_info (g : paths) : outcome :=
  let show (o : option string) :=
    match o with
    | Some s => if negb (String.eqb s EmptyString) then VStr s else VNull
    | None => VNull
    end in
  ok (VObj [("componentConfig", show (component_config_path g));
            ("configJson", show (config_json_path g))]).

(** [get_config]. *)
Definition get_config (w : world) (read : reader) (g : paths)
    (manual_path : option string) : outcome :=
  match path_or manual_path (config_json_path g) with
  | Some config_path =>
      if negb (String.eqb config_path EmptyString) && os_path_exists w config_path
      then
        match read config_path with
        | Ok (VObj config) =>
            ok (dict_get_default config "parameters" (VObj []))
        | Ok _ => ok (VObj [])     (* config.get raises AttributeError *)
        | Raise e => if is_Exception e then ok (VObj []) else Propagated e
        end
      else ok (VObj [])
  | None => ok (VObj [])
  end.

(** [f'{config_path}'] in the 404 message. *)
Definition show_path (o : option string) : string :=
  match o with
  | Some s => s
  | None => "None"
  end.

(** [get_schemas]. *)
Definition get_schemas (w : world) (read : reader) (s : schemas) (g : paths)
    (manual_path : option string) : outcome :=
  let handler (e : pyexc) :=
    if is_Exception e
    then Responded {| status_code := 500;
                      body := VObj [("error", VStr (exc_str e))] |}
    else Propagated e in
  if py_truthy (loaded_component_schema s) && py_truthy (loaded_row_schema s)
  then ok (VObj [("componentSchema", loaded_component_schema s);
                 ("rowSchema", loaded_row_schema s)])
  else
    let config_path := path_or manual_path (component_config_path g) in
    match config_path with
    | Some cp =>
        if negb (String.eqb cp EmptyString) && os_path_exists w cp then
          match read (os_path_join w cp "configSchema.json") with
          | Raise e => handler e
          | Ok component_schema =>
              match read (os_path_join w cp "configRowSchema.json") with
              | Raise e => handler e
              | Ok row_schema =>
                  ok (VObj [("componentSchema", component_schema);
                            ("rowSchema", row_schema)])
              end
          end
        else Responded {| status_code := 404;
                          body := VObj [("error",
                                    VStr ("Component config folder not found: "
                                          +:+ show_path config_path))] |}
    | None => Responded {| status_code := 404;
                           body := VObj [("error",
                                     VStr ("Component config folder not found: "
                                           +:+ show_path config_path))] |}
    end.

(** The state in which nothing was uploaded. *)
Definition nothing_uploaded : schemas :=
  {| loaded_component_schema := VNull;
     loaded_row_schema := VNull;
     loaded_component_name := VNull |}.

(** Reading the files that [write_config] wrote; [missing] is the
    FileNotFoundError of a path without a file. *)
Definition read_store (missing : pyexc) (fs : store) : reader :=
  fun path => match fs !! path with
              | Some doc => Ok doc
              | None => Raise missing
              end.

End Views.

Module Startup.
Import Server Discovery Views.

(** How the [__main__] block ends: with [sys.exit(1)], or serving with
    the three path globals set. *)
Inductive started :=
  | Exit (code : nat)
  | Serving (w : world) (g : paths).

Definition nonempty (o : option string) : option string :=
  match o with
  | Some s => if String.eqb s EmptyString then None else Some s
  | None => None
  end.

(** The [__main__] block up to [app.run]; [args_path] is the optional
    positional argument, [w] the machine with [project_root] still unset. *)
Definition main (p : process) (w : world) (args_path : option string) : started :=
  let root :=
    match nonempty args_path with
    | Some a => resolve_component_path p w (Some a)
    | None => find_project_root p w None
    end in
  match nonempty root with
  | None => Exit 1
  | Some r =>
      let ccp := find_component_config w r in
      let cjp := find_config_json w r in
      if negb (os_path_exists w (os_path_join w ccp "configSchema.json"))
      then Exit 1
      else if negb (os_path_exists w (os_path_join w ccp "configRowSchema.json"))
      then Exit 1
      else Serving
             {| project_root := Some r;
                os_path_isdir := os_path_isdir w;
                os_path_exists := os_path_exists w;
                os_path_basename := os_path_basename w;
                os_path_dirname := os_path_dirname w;
                os_path_join := os_path_join w;
                write_fault := write_fault w;
                import_Component := import_Component w |}
             {| component_config_path := Some ccp;
                config_json_path := cjp |}
  end.

(** The machine later on: the same paths and project root, with other
    files on disk. *)
Definition same_paths (w w' : world) : Prop :=
  project_root w' = project_root w /\
  os_path_join w' = os_path_join w.

End Startup.

(* ===================================================================== *)
(** ** A POSIX machine for the examples *)
(* ===================================================================== *)

Module Posix.
Import Server Discovery Views.

(** A path cut at its last slash. *)
Fixpoint split_last (s : string) : option (string * string) :=
  match s with
  | EmptyString => None
  | String c tl =>
      match split_last tl with
      | Some (h, t) => Some (String c h, t)
      | None => if Ascii.eqb c "/" then Some (EmptyString, tl) else None
      end
  end.

Definition dirname (s : string) : string :=
  match split_last s with
  | Some (EmptyString, _) => "/"
  | Some (h, _) => h
  | None => EmptyString
  end.

Definition basename (s : string) : string :=
  match split_last s with
  | Some (_, t) => t
  | None => s
  end.

Definition path_join (a b : string) : string :=
  match b with
  | String "/" _ => b
  | _ => if String.eqb a "/" then a +:+ b else a +:+ "/" +:+ b
  end.

Definition mem (s : string) (l : list string) : bool :=
  existsb (String.eqb s) l.

(** A machine with the given directories and files and no project root
    yet, on which the component imports as [unit]. *)
Definition machine (dirs files : list string)
    (unit : result (result component)) : world :=
  {| project_root := None;
     os_path_isdir := fun s => mem s dirs;
     os_path_exists := fun s => mem s dirs || mem s files;
     os_path_basename := basename;
     os_path_dirname := dirname;
     os_path_join := path_join;
     write_fault := fun _ => None;
     import_Component := fun _ => unit |}.

(** The script, started in its own directory; paths are given absolute. *)
Definition script (file : string) : process :=
  {| os_path_abspath := fun s => s; script_file := file |}.

(** A component checked out at /work/ex-demo, the tester deep inside it. *)
Definition checkout : world :=
  machine ["/"; "/work"; "/work/ex-demo"; "/work/ex-demo/component_config";
           "/work/ex-demo/src"; "/work/ex-demo/tools"; "/work/ex-demo/tools/ui"]
          ["/work/ex-demo/component_config/configSchema.json";
           "/work/ex-demo/component_config/configRowSchema.json";
           "/work/ex-demo/src/component.py";
           "/work/ex-demo/tools/ui/component_schema_tester.py"]
          (Ok (Ok Sample.unit_snake)).

Definition tester : process := script "/work/ex-demo/tools/ui/component_schema_tester.py".

Definition file_not_found : pyexc :=
  {| exc_cls := OtherException;
     exc_str := "[Errno 2] No such file or directory";
     exc_traceback := "Traceback (most recent call last): ... FileNotFoundError" |}.

Definition keyboard_interrupt : pyexc :=
  {| exc_cls := BaseExceptionOnly; exc_str := EmptyString;
     exc_traceback := "Traceback (most recent call last): ... KeyboardInterrupt" |}.

End Posix.

(* ===================================================================== *)
(** ** Action names across the page and the server *)
(* ===================================================================== *)

Module Names.
Import Server.

(** [s] is [t] with an underscore put directly before some of the
    upper-case letters of [t], at most one before each. *)
Inductive underscored : string -> string -> Prop :=
  | underscored_nil :
      underscored EmptyString EmptyString
  | underscored_copy c t s :
      underscored t s ->
      underscored (String c t) (String c s)
  | underscored_before u t s :
      is_upper u = true ->
      underscored t s ->
      underscored (String u t) (String "_" (String u s)).

(** No character of [s] is an upper-case letter. *)
Fixpoint no_upper (s : string) : bool :=
  match s with
  | EmptyString => true
  | String c tl => negb (is_upper c) && no_upper tl
  end.

(** The rest of a kebab-case name after a lower-case letter or digit:
    lower-case letters and digits, and hyphens each followed by a
    lower-case letter that ends the name or is followed by another
    letter or digit. *)
Fixpoint kebab_tail (s : string) : bool :=
  match s with
  | EmptyString => true
  | String c tl =>
      if Ascii.eqb c "-" then
        match tl with
        | String l EmptyString => is_lower l
        | String l (String c2 rest) =>
            is_lower l && (is_lower c2 || is_digit c2) && kebab_tail rest
        | EmptyString => false
        end
      else (is_lower c || is_digit c) && kebab_tail tl
  end.

(** A kebab-case name, such as "test-connection" or "list-tables2". *)
Definition kebab (s : string) : bool :=
  match s with
  | EmptyString => true
  | String c _ => negb (Ascii.eqb c "-") && kebab_tail s
  end.

End Names.

(* ===================================================================== *)
(** ** Action calls from the page *)
(* ===================================================================== *)

Module Actions.
Import Js Merger.

(** What [fetch] resolves to, as far as the page reads it. *)
Record response := {
  ok : bool;                       (* response.ok *)
  status : nat;                    (* response.status *)
  text : completion string;        (* await response.text() *)
  json : completion value          (* await response.json() *)
}.

(** Built-ins of the browser the model does not compute. *)
Record browser := {
  stringify : value -> string;         (* JSON.stringify(v, null, 2) *)
  TypeError_message : bool -> string   (* error.message of a TypeError:
                                          true for a property read of null
                                          or undefined, false for a call *)
}.

(** [error.message]. *)
Definition message (b : browser) (e : js_error) : string :=
  match e with
  | TypeError_property => TypeError_message b true
  | TypeError_call => TypeError_message b false
  | Error m => m
  end.

(** [componentEditor && componentEditor.ready ? componentEditor.getValue() : {}]. *)
Definition ready_component_value (eds : editors) : obj :=
  match componentEditor eds with
  | Some ce => if ready ce then getValue ce else []
  | None => []
  end.

(** The body [callSyncAction] posts to /sync-action. *)
Definition request_body (eds : editors) (action : value) (parameters : obj) : value :=
  let combinedParameters := spread (ready_component_value eds) parameters in
  let componentPath := VNull in
  VObj [("action", action);
        ("parameters", VObj combinedParameters);
        ("componentPath", or_else componentPath VNull)].

(** [callSyncAction]; [fetch] is the network: what the request resolves
    to, or the error it rejects with. *)
Definition callSyncAction (fetch : value -> completion response)
    (eds : editors) (action : value) (parameters : obj) : completion value :=
  response <- fetch (request_body eds action parameters) ;;
  if negb (ok response) then
    errorText <- text response ;;
    Throw (Error ("HTTP " +:+ pretty (status response) +:+ ": " +:+ errorText))
  else json response.

(** The button an action is run from. *)
Record button := {
  disabled : bool;
  opacity : string;
  textContent : string
}.

(** The three alerts of [executeSyncAction], by their fixed part, with
    the text that follows it. *)
Inductive alert :=
  | Succeeded (label : string) (detail : string)   (* '<label> succeeded!' *)
  | Failed (label : string) (detail : string)      (* '<label> failed:' *)
  | Errored (label : string) (detail : string).    (* '<label> error:' *)

Definition idle (label : string) : button :=
  {| disabled := false; opacity := "1"; textContent := "🔘 " +:+ label |}.

Definition busy (label : string) : button :=
  {| disabled := true; opacity := "0.6"; textContent := "⏳ " +:+ label +:+ "..." |}.

(** [{...componentConfig, ...rowConfig}] of [executeSyncAction];
    [editor] is the editor the button belongs to. *)
Definition button_parameters (eds : editors) (editor : editor) : obj :=
  let componentConfig :=
    match componentEditor eds with
    | Some ce => getValue ce
    | None => []
    end in
  let rowConfig := getValue editor in
  spread componentConfig rowConfig.

(** The [try] block of [executeSyncAction] after the button is set busy.
    The function is called from the button's own [onclick] listener, so
    that the global [event] read in its first line is the click and
    [event.target] the button. *)
Definition executeSyncAction_try (b : browser)
    (fetch : value -> completion response) (eds : editors) (editor : editor)
    (action : value) (label : string) : completion alert :=
  let parameters := button_parameters eds editor in
  result <- callSyncAction fetch eds action parameters ;;
  status <- get result "status" ;;
  if strict_eq status (VStr "success") || negb (truthy status)
  then Normal (Succeeded label (stringify b result))
  else Normal (Failed label
                 (to_string (or_else (own result "message")
                                     (VStr (stringify b result))))).

(** The global [event] ([window.event]) is the event whose listeners are
    running, and undefined when none is.  Every error of the [try] block
    is thrown after the awaited request has settled, in a continuation
    that no listener runs, and this is what the [catch] block reads. *)
Definition event_after_await : value := VUndef.

(** How the call of [executeSyncAction] ends: it returns after an alert,
    or its promise rejects and no alert was shown. *)
Inductive ending :=
  | Alerted (a : alert)
  | Rejected (e : js_error).

(** [executeSyncAction]: the button as it is left, and how the call
    ends.  The [try] block, run to its end, sets the button idle after
    its alert.  The [catch] block starts with
    [const button = event.target] and sets the button idle and shows
    the alert only after that. *)
Definition executeSyncAction (b : browser)
    (fetch : value -> completion response) (eds : editors) (editor : editor)
    (action : value) (label : string) : button * ending :=
  match executeSyncAction_try b fetch eds editor action label with
  | Normal a => (idle label, Alerted a)
  | Throw error =>
      match get event_after_await "target" with
      | Normal _ => (idle label, Alerted (Errored label (message b error)))
      | Throw e => (busy label, Rejected e)
      end
  end.

(** The response of the browser to an answer of a Flask view: [dumps] is
    the JSON text Flask sends. *)
Definition answered (dumps : value -> string) (r : Server.http) : response :=
  {| ok := (200 <=? Server.status_code r)%nat && (Server.status_code r <=? 299)%nat;
     status := Server.status_code r;
     text := Normal (dumps (Server.body r));
     json := Normal (Server.body r) |}.

End Actions.

(* ===================================================================== *)
(** ** Mounting the async fields *)
(* ===================================================================== *)

Module Mount.
Import Js.

(** A call of [setupAsyncField] that got past its first line, with
    [prop.options.async]. *)
Record call := { fieldPath : string; asyncOptions : value }.

(** What has been mounted, and the error that ended the walk, if any. *)
Abbreviation progress := (list call * option js_error)%type.

(** The head of [setupAsyncField]:
    [const prop = originalSchema.properties[fieldPath];
     if (!prop || !prop.options?.async) return;]
    and [prop.options.async] when it goes on. *)
Definition async_of (originalSchema : value) (fieldPath : string)
  : completion (option value) :=
  properties <- get originalSchema "properties" ;;
  prop <- get properties fieldPath ;;
  if negb (truthy prop) || negb (truthy (get_opt (own prop "options") "async"))
  then Normal None
  else Normal (Some (own (own prop "options") "async")).

(** [setupAsyncField]; [rest] is what it does once past its head (the
    editor lookup, the watches, the timer, the button): it completes, or
    throws. *)
Definition setupAsyncField (rest : call -> option js_error)
    (fieldPath : string) (originalSchema : value) (done : list call) : progress :=
  match async_of originalSchema fieldPath with
  | Throw e => (done, Some e)
  | Normal None => (done, None)
  | Normal (Some asyncOptions) =>
      let c := {| fieldPath := fieldPath; asyncOptions := asyncOptions |} in
      (done ++ [c], rest c)
  end.

(** [parentPath ? `${parentPath}.${fieldName}` : fieldName]. *)
Definition path_of (parentPath fieldName : string) : string :=
  if truthy (VStr parentPath) then parentPath +:+ "." +:+ fieldName
  else fieldName.

(** The callback of the [forEach] of [setupWatchListeners], from the
    progress so far; [walk] is the recursive call
    [setupWatchListeners(editor, prop, prop, fieldPath)]. *)
Definition visit (walk : value -> string -> list call -> option progress)
    (rest : call -> option js_error) (originalSchema : value)
    (parentPath : string) (acc : option progress) (fieldName : string)
  : option progress :=
  match acc with
  | Some (done, None) =>
      let fieldPath := path_of parentPath fieldName in
      match (properties <- get originalSchema "properties" ;;
             get properties fieldName) with
      | Throw e => Some (done, Some e)
      | Normal prop =>
          let '(done, thrown) :=
            if truthy prop
               && strict_eq (own prop "format") (VStr "select")
               && truthy (get_opt (own prop "options") "async")
            then setupAsyncField rest fieldPath originalSchema done
            else (done, None) in
          match thrown with
          | Some e => Some (done, Some e)
          | None =>
              if truthy prop
                 && strict_eq (own prop "type") (VStr "object")
                 && truthy (own prop "properties")
              then walk prop fieldPath done
              else Some (done, None)
          end
      end
  | _ => acc       (* an error ended the loop; or the depth is used up *)
  end.

(** [setupWatchListeners]; [depth] bounds the nesting it follows. *)
Fixpoint setupWatchListeners (depth : nat) (rest : call -> option js_error)
    (schema originalSchema : value) (parentPath : string) (done : list call)
  : option progress :=
  match depth with
  | O => None
  | S depth' =>
      match get schema "properties" with
      | Throw e => Some (done, Some e)
      | Normal properties =>
          if negb (truthy properties) then Some (done, None)
          else
            fold_left
              (visit (fun prop fieldPath done =>
                        setupWatchListeners depth' rest prop prop fieldPath done)
                     rest originalSchema parentPath)
              (Object_keys (own_entries properties))
              (Some (done, None))
      end
  end.

(** How deep a document nests. *)
Fixpoint height (v : value) : nat :=
  match v with
  | VArr l => S (fold_right (fun x n => Nat.max (height x) n) O l)
  | VObj o => S (fold_right (fun kv n => Nat.max (let '(_, x) := kv in height x) n) O o)
  | _ => O
  end.

Fixpoint has_dot (s : string) : bool :=
  match s with
  | EmptyString => false
  | String c s' => Ascii.eqb c "." || has_dot s'
  end.

(** No property name at any depth contains a dot. *)
Fixpoint dotless (v : value) : bool :=
  match v with
  | VArr l => forallb dotless l
  | VObj o => forallb (fun kv => let '(k, x) := kv in negb (has_dot k) && dotless x) o
  | _ => true
  end.

End Mount.

(* ===================================================================== *)
(** ** Field sections *)
(* ===================================================================== *)

Module Sections.
Import Js Groups.

Definition groupOrder : list string :=
  ["Connection"; "Data Selection"; "Destination"; "Configuration"].

(** A section of the reorganized form: its title, and the fields whose
    rows were appended to it, in order. *)
Abbreviation sections := (list (string * list string)).

(** What [organizeFieldsIntoSections] leaves in the object container,
    for a form in which every field has its row and the container is
    found: [None] when it returns without reorganizing, else the sections
    appended after [objectContainer.innerHTML = ''], each with the rows
    moved into it. *)
Definition organize (groups : groups) : option sections :=
  let groupNames := map fst groups in
  if (List.length groupNames <=? 1)%nat then None
  else
    Some (omap (fun groupName =>
                  match groups_get groups groupName with
                  | Some fieldNames => Some (groupName, fieldNames)
                  | None => None
                  end)
               groupOrder).

Definition organizeFieldsIntoSections (en : engine) (schema : value)
  : completion (option sections) :=
  groups <- detectFieldGroups en schema ;;
  Normal (organize groups).

End Sections.

(* ===================================================================== *)
(** ** Folder selection and schema upload *)
(* ===================================================================== *)

Module Upload.
Import Js.

(** A [File] of the picker's [FileList]. *)
Record file := {
  webkitRelativePath : string;
  name : string;
  text : completion string          (* await file.text() *)
}.

(** [file.webkitRelativePath || file.name]. *)
Definition path_of (f : file) : string :=
  if truthy (VStr (webkitRelativePath f)) then webkitRelativePath f else name f.

(** [path.split('/')]; it is never empty. *)
Fixpoint split_slash (s : string) : list string :=
  match s with
  | EmptyString => [EmptyString]
  | String c s' =>
      if Ascii.eqb c "/" then EmptyString :: split_slash s'
      else match split_slash s' with
           | seg :: segs => String c seg :: segs
           | [] => [String c EmptyString]
           end
  end.

(** [path.split('/').pop().toLowerCase()].  Lower-casing is that of the
    ASCII letters; a character outside ASCII never lower-cases to a
    letter of the two names compared with. *)
Definition fileName (f : file) : string :=
  string_map to_lower (default EmptyString (last (split_slash (path_of f)))).

(** [path.includes('/')]. *)
Fixpoint includes_slash (s : string) : bool :=
  match s with
  | EmptyString => false
  | String c s' => Ascii.eqb c "/" || includes_slash s'
  end.

(** The variables of the [for] loop. *)
Record found := {
  configSchemaFile : option file;
  rowSchemaFile : option file;
  folderName : string
}.

(** The body of the loop at index [i]. *)
Definition look (i : nat) (f : file) (st : found) : found :=
  let path := path_of f in
  let st :=
    if String.eqb (fileName f) "configschema.json"
    then {| configSchemaFile := Some f; rowSchemaFile := rowSchemaFile st;
            folderName := folderName st |}
    else if String.eqb (fileName f) "configrowschema.json"
    then {| configSchemaFile := configSchemaFile st; rowSchemaFile := Some f;
            folderName := folderName st |}
    else st in
  if Nat.eqb i 0 && includes_slash path
  then {| configSchemaFile := configSchemaFile st;
          rowSchemaFile := rowSchemaFile st;
          folderName := default EmptyString (head (split_slash path)) |}
  else st.

(** [for (let i = ...; i < files.length; i++)], from index [i] on. *)
Fixpoint scan (i : nat) (files : list file) (st : found) : found :=
  match files with
  | [] => st
  | f :: files' => scan (S i) files' (look i f st)
  end.

(** The body [uploadSchemas] posts to /api/load-schemas. *)
Definition upload_body (componentSchema rowSchema : value) (componentName : string)
  : value :=
  VObj [("componentSchema", componentSchema);
        ("rowSchema", rowSchema);
        ("componentName", or_else (VStr componentName) (VStr "Unknown"))].

(** How [handleFolderSelection] ends. *)
Inductive selection :=
  | NoFilesSelected                  (* 'No files selected' *)
  | MissingFiles (foundFiles : string)
                                     (* 'Could not find required schema files' *)
  | Failed (error : js_error)        (* the catch block *)
  | Uploading (body : value).        (* uploadSchemas is called *)

(** [handleFolderSelection]; [files] is [event.target.files], [parse] is
    [JSON.parse]. *)
Definition handleFolderSelection (parse : string -> completion value)
    (files : option (list file)) : selection :=
  match files with
  | None | Some [] => NoFilesSelected
  | Some files =>
      let st := scan 0 files {| configSchemaFile := None; rowSchemaFile := None;
                                folderName := "component_config" |} in
      match configSchemaFile st, rowSchemaFile st with
      | Some configSchemaFile, Some rowSchemaFile =>
          let componentName := folderName st in
          match (configSchemaText <- text configSchemaFile ;;
                 rowSchemaText <- text rowSchemaFile ;;
                 componentSchema <- parse configSchemaText ;;
                 rowSchema <- parse rowSchemaText ;;
                 Normal (upload_body componentSchema rowSchema componentName)) with
          | Normal body => Uploading body
          | Throw error => Failed error
          end
      | _, _ => MissingFiles (join ", " (map path_of files))
      end
  end.

(** The two kinds of file the loop looks for. *)
Definition is_config (f : file) : Prop := fileName f = "configschema.json".
Definition is_row (f : file) : Prop := fileName f = "configrowschema.json".

#[global] Instance is_config_dec f : Decision (is_config f).
Proof. unfold is_config. apply _. Defined.

#[global] Instance is_row_dec f : Decision (is_row f).
Proof. unfold is_row. apply _. Defined.

(** The name of the picked folder, as the loop reads it off the first
    file. *)
Definition picked_folder (files : list file) : string :=
  match files with
  | f :: _ =>
      if includes_slash (path_of f)
      then default EmptyString (head (split_slash (path_of f)))
      else "component_config"
  | [] => "component_config"
  end.

(** [parts.indexOf(x)]. *)
Fixpoint indexOf (parts : list string) (x : string) : Z :=
  match parts with
  | [] => -1
  | p :: parts' =>
      if String.eqb p x then 0
      else let i := indexOf parts' x in if i <? 0 then -1 else 1 + i
  end.

(** The component name [loadDiscoveryInfo] reads off the path of the
    component_config folder. *)
Definition componentName (path : string) : string :=
  let parts := split_slash path in
  let componentNameIndex := indexOf parts "component_config" - 1 in
  if 0 <=? componentNameIndex
  then nth (Z.to_nat componentNameIndex) parts "undefined"
  else "Auto-discovered".

(** [loadDiscoveryInfo]: the text it writes to #current-component, if
    it writes; [response] is what the request to /api/discovery-info
    resolves to. *)
Definition loadDiscoveryInfo (response : completion Actions.response)
  : option string :=
  match (response <- response ;;
         if Actions.ok response then
           info <- Actions.json response ;;
           path <- get info "componentConfig" ;;
           if truthy path then
             match path with
             | VStr path => Normal (Some (componentName path))
             | _ => Throw TypeError_call        (* path.split *)
             end
           else Normal None
         else Normal None) with
  | Normal written => written
  | Throw _ => None                             (* console.warn *)
  end.

End Upload.

(* ===================================================================== *)
(** ** Further examples *)
(* ===================================================================== *)

Module Cases.
Import Js.

Definition browser : Actions.browser :=
  {| Actions.stringify := fun _ => "{...}";
     Actions.TypeError_message := fun _ => "TypeError" |}.

(** An async select, alone and inside the object [db]. *)
Definition async_select (action : string) : value :=
  VObj [("type", VStr "string"); ("format", VStr "select");
        ("options", VObj [("async", VObj [("action", VStr action);
                                          ("autoload", VBool true)])])].

Definition schema_with_nested_select : value :=
  VObj [("type", VStr "object");
        ("properties",
         VObj [("table", async_select "listTables");
               ("db", VObj [("type", VStr "object");
                            ("properties",
                             VObj [("schema_name", async_select "listSchemas")])])])].

(** A picked folder with a second, upper-case copy of configSchema.json
    in a subfolder. *)
Definition picked (path text : string) : Upload.file :=
  {| Upload.webkitRelativePath := path; Upload.name := EmptyString;
     Upload.text := Normal text |}.

Definition picked_files : list Upload.file :=
  [picked "ex-demo/component_config/configSchema.json" "first";
   picked "ex-demo/component_config/configRowSchema.json" "row";
   picked "ex-demo/backup/CONFIGSCHEMA.JSON" "second"].

(** A parser that hands back the text. *)
Definition parse (text : string) : completion value := Normal (VStr text).

End Cases.

(* ===================================================================== *)
(** ** Dependency paths *)
(* ===================================================================== *)

Module DependencyPaths.
Import Js Dependencies.

(** The editor paths [setupDependencies] watches for a field:
    [editor.watch(`root.${depField}`, ...)] for every key of its
    dependencies map. *)
Definition watched (dependencies : value) : list string :=
  map (fun depField => "root." +:+ depField)
      (Object_keys (own_entries dependencies)).

(** A path cut at its dots. *)
Fixpoint split_dot (s : string) : list string :=
  match s with
  | EmptyString => [EmptyString]
  | String c s' =>
      if Ascii.eqb c "." then EmptyString :: split_dot s'
      else match split_dot s' with
           | seg :: segs => String c seg :: segs
           | [] => [String c EmptyString]
           end
  end.

(** The value that a path below [root] denotes in the editor's value:
    [root.db.mode] is [values.db.mode]. *)
Fixpoint value_at (v : value) (segments : list string) : value :=
  match segments with
  | [] => v
  | segment :: segments' => value_at (get_opt v segment) segments'
  end.

(** The live form value at a path, and the visibility of a field, in the
    words of the specification: every entry of the dependencies map
    matches the live value at its path.  They are compared with
    [checkDependencies] below. *)
Definition spec_value_at (values : obj) (path : string) : value :=
  value_at (VObj values) (split_dot path).

Definition spec_visible (dependencies : value) (values : obj) : bool :=
  forallb (fun path =>
             strict_eq (spec_value_at values path) (own dependencies path))
          (Object_keys (own_entries dependencies)).

(** A form with the object [db], and a field that depends on [db.mode]. *)
Definition nested_form : obj :=
  [("db", VObj [("mode", VStr "advanced"); ("port", VNum 5432)])].

Definition on_nested_mode : value := VObj [("db.mode", VStr "advanced")].

End DependencyPaths.

(* ===================================================================== *)
(** ** An async field, from its declaration to its watches *)
(* ===================================================================== *)

Module AsyncField.
Import Js.

(** [setupAsyncField] as a whole: its head, the lookup of the field's
    editor ([getEditor] tells for which paths [editor.getEditor] finds
    one), then the watches and the mount-time load. *)
Definition setupAsyncField (getEditor : string -> bool) (fieldPath : string)
    (originalSchema : value) (pg : Watch.page) : completion Watch.page :=
  asyncOptions <- Mount.async_of originalSchema fieldPath ;;
  match asyncOptions with
  | None => Normal pg
  | Some asyncOptions =>
      if getEditor ("root." +:+ fieldPath)
      then Watch.setupAsyncField fieldPath asyncOptions pg
      else Normal pg                     (* 'Field editor not found' *)
  end.

(** The watcher [setupAsyncField] registers for a raw path of the
    field's [autoload] list. *)
Definition watcher_of (fieldPath raw : string) : Watch.watcher :=
  {| Watch.path := "root." +:+ Watch.strip_parameters raw;
     Watch.fieldPath := fieldPath;
     Watch.watchField := Watch.strip_parameters raw |}.

(** The select [table], which reloads when [base_id] changes. *)
Definition table_select : value :=
  VObj [("type", VStr "string"); ("format", VStr "select");
        ("options", VObj [("async", Sample.async_tables)])].

(** The select at the top level of a schema, and inside the object [db]. *)
Definition flat_schema : value :=
  VObj [("type", VStr "object");
        ("properties", VObj [("base_id", VObj [("type", VStr "string")]);
                             ("table", table_select)])].

Definition db_object : value :=
  VObj [("type", VStr "object");
        ("properties", VObj [("table", table_select)])].

Definition nested_schema : value :=
  VObj [("type", VStr "object");
        ("properties", VObj [("base_id", VObj [("type", VStr "string")]);
                             ("db", db_object)])].

End AsyncField.

(* ===================================================================== *)
(** * Properties *)
(* ===================================================================== *)

(** ** Strings and objects *)


(** ** Name variants *)

Section NameVariants.
Import Server.

Example camel_to_snake_testConnection :
  camel_to_snake "testConnection" = "test_connection".
Proof. reflexivity. Qed.

Example camel_to_snake_acronym :
  camel_to_snake "getHTTPResponseCode" = "get_http_response_code".
Proof. reflexivity. Qed.

Example camel_to_snake_humps :
  camel_to_snake "aBCd" = "a_b_cd" /\ camel_to_snake "a1B2c" = "a1_b2c"
  /\ camel_to_snake "__Ab" = "___ab" /\ camel_to_snake "list-tables" = "list-tables".
Proof. repeat split; reflexivity. Qed.

(** [.] does not match a newline: no underscore after it. *)
Example camel_to_snake_newline :
  camel_to_snake (String "a" (String (ascii_of_nat 10) "Bc"))
  = String "a" (String (ascii_of_nat 10) "bc").
Proof. reflexivity. Qed.

Example possible_names_doesNotExist :
  possible_names "doesNotExist"
  = ["doesNotExist"; "does_not_exist"; "doesNotExist"].
Proof. reflexivity. Qed.

Example possible_names_kebab :
  possible_names "list-tables" = ["list-tables"; "list-tables"; "list_tables"].
Proof. reflexivity. Qed.

Lemma possible_names_length action : List.length (possible_names action) = 3%nat.
Proof. reflexivity. Qed.

End NameVariants.

(** ** The dispatcher *)

Section Dispatcher.
Import Server.

Variable rt : runtime.

(** The [try] block, once the instance is in hand. *)
Lemma sync_action_try_loaded w data fs fs1 comp :
  prepare rt w data fs = (Ok (Loaded comp), fs1) ->
  sync_action_try rt w (Ok data) fs = dispatch rt comp (req_action data) fs1.
Proof.
  intros Hp. unfold sync_action_try, bind, lift. simpl. rewrite Hp. reflexivity.
Qed.

(** [find_method] returns the attribute of the first name that has one. *)
Lemma find_method_first comp pre name post a :
  Forall (fun n => comp !! n = None) pre ->
  comp !! name = Some a ->
  find_method comp (pre ++ name :: post) = Some a.
Proof.
  induction 1 as [| n pre Hn _ IH]; intros Ha; simpl.
  - rewrite Ha. reflexivity.
  - rewrite Hn. apply IH, Ha.
Qed.

Lemma find_method_none comp names :
  Forall (fun n => comp !! n = None) names ->
  find_method comp names = None.
Proof.
  induction 1 as [| n names Hn _ IH]; simpl; [reflexivity |].
  rewrite Hn. exact IH.
Qed.


End Dispatcher.

Section DispatcherProperties.
Import Server.
Variable rt : runtime.




End DispatcherProperties.

Section DispatcherInstances.
Import Server.


Example unknown_action_doesNotExist :
  sync_action Sample.rt (Sample.world_with (Ok (Ok Sample.unit_snake)))
              (Ok (Sample.request_of "doesNotExist")) ∅
  = (Responded {| status_code := 400;
                  body := VObj [("status", VStr "error");
                                ("message",
                                 VStr "Unknown action: doesNotExist (tried: doesNotExist, does_not_exist, doesNotExist)")] |},
     {[ "/code/data/config.json" := VObj [("parameters", VObj [("host", VStr "db")])] ]}).
Proof. reflexivity. Qed.

(** C1, as amended.  With the instance loaded, [sync_action] takes the
    first of the three variants (literal, snake case, hyphens to
    underscores) that is an attribute of the unit, callable or not.  If
    that attribute is truthy and callable it is called and the call's
    outcome is answered; if it is not, the answer is the unknown-action
    failure, whatever the later variants name.  In particular, on a unit
    with no attribute [testConnection] and a callable [test_connection],
    the action "testConnection" calls [test_connection] and answers its
    result. *)
Theorem dispatch_takes_first_attribute :
  (forall rt w data fs fs1 comp action pre name post a,
      prepare rt w data fs = (Ok (Loaded comp), fs1) ->
      req_action data = VStr action ->
      possible_names action = pre ++ name :: post ->
      Forall (fun n => comp !! n = None) pre ->
      comp !! name = Some a ->
      sync_action rt w (Ok data) fs
      = if attr_truthy a && attr_callable a
        then handle (call_method rt a fs1)
        else (Responded (unknown_action action (possible_names action)), fs1))
  /\
  (forall rt w data fs fs1 comp a v,
      prepare rt w data fs = (Ok (Loaded comp), fs1) ->
      req_action data = VStr "testConnection" ->
      comp !! "testConnection" = None ->
      comp !! "test_connection" = Some a ->
      attr_truthy a = true -> attr_callable a = true ->
      attr_call a fs1 = Ok (PJson v) ->
      sync_action rt w (Ok data) fs
      = (Responded {| status_code := 200; body := v |}, fs1)).
Proof.
  assert (General : forall rt w data fs fs1 comp action pre name post a,
      prepare rt w data fs = (Ok (Loaded comp), fs1) ->
      req_action data = VStr action ->
      possible_names action = pre ++ name :: post ->
      Forall (fun n => comp !! n = None) pre ->
      comp !! name = Some a ->
      sync_action rt w (Ok data) fs
      = if attr_truthy a && attr_callable a
        then handle (call_method rt a fs1)
        else (Responded (unknown_action action (possible_names action)), fs1)).
  { intros rt w data fs fs1 comp action pre name post a Hp Ha Hnames Hpre Hl.
    unfold sync_action.
    rewrite (sync_action_try_loaded rt _ _ _ _ _ Hp), Ha. unfold dispatch.
    rewrite Hnames, (find_method_first comp pre name post a Hpre Hl).
    rewrite <- Hnames.
    destruct (attr_truthy a), (attr_callable a); reflexivity. }
  split; [exact General |].
  intros rt w data fs fs1 comp a v Hp Ha Hlit Hsnake Ht Hc Hcall.
  rewrite (General rt w data fs fs1 comp "testConnection"
             ["testConnection"] "test_connection" ["testConnection"] a
             Hp Ha eq_refl (Forall_cons_2 _ _ _ Hlit (Forall_nil_2 _)) Hsnake).
  rewrite Ht, Hc. simpl.
  unfold call_method, bind. rewrite Hcall. reflexivity.
Qed.

Lemma dispatch_takes_first_attribute_witness :
  sync_action Sample.rt (Sample.world_with (Ok (Ok Sample.unit_snake)))
              (Ok (Sample.request_of "testConnection")) ∅
  = (Responded {| status_code := 200; body := Sample.success |},
     {[ "/code/data/config.json" := VObj [("parameters", VObj [("host", VStr "db")])] ]})
  /\
  sync_action Sample.rt (Sample.world_with (Ok (Ok Sample.unit_shadowed)))
              (Ok (Sample.request_of "testConnection")) ∅
  = (Responded (unknown_action "testConnection" (possible_names "testConnection")),
     {[ "/code/data/config.json" := VObj [("parameters", VObj [("host", VStr "db")])] ]}).
Proof.
  split.
  - apply (proj2 dispatch_takes_first_attribute Sample.rt
             (Sample.world_with (Ok (Ok Sample.unit_snake)))
             (Sample.request_of "testConnection") ∅ _ Sample.unit_snake
             Sample.method_ok Sample.success);
      reflexivity.
  - apply (proj1 dispatch_takes_first_attribute Sample.rt
             (Sample.world_with (Ok (Ok Sample.unit_shadowed)))
             (Sample.request_of "testConnection") ∅ _ Sample.unit_shadowed
             "testConnection" [] "testConnection"
             ["test_connection"; "testConnection"] Sample.data_attribute).
    + reflexivity.
    + reflexivity.
    + reflexivity.
    + constructor.
    + reflexivity.
Defined.

(** C1 as stated fails: on a unit with a data attribute [testConnection]
    and a method [test_connection], the first variant that is a callable
    attribute is [test_connection], whose call would be answered with
    200; the dispatcher stops at the data attribute and answers 400. *)
Lemma first_callable_not_taken :
  let w := Sample.world_with (Ok (Ok Sample.unit_shadowed)) in
  let fs1 : store :=
    {[ "/code/data/config.json" := VObj [("parameters", VObj [("host", VStr "db")])] ]} in
  spec_first_callable Sample.unit_shadowed (possible_names "testConnection")
  = Some Sample.method_ok
  /\ handle (call_method Sample.rt Sample.method_ok fs1)
     = (Responded {| status_code := 200; body := Sample.success |}, fs1)
  /\ sync_action Sample.rt w (Ok (Sample.request_of "testConnection")) ∅
     = (Responded {| status_code := 400;
                     body := VObj [("status", VStr "error");
                                   ("message",
                                    VStr "Unknown action: testConnection (tried: testConnection, test_connection, testConnection)")] |},
        fs1)
  /\ sync_action Sample.rt w (Ok (Sample.request_of "testConnection")) ∅
     <> handle (call_method Sample.rt Sample.method_ok fs1).
Proof.
  repeat split; try reflexivity.
  intros H. vm_compute in H. discriminate H.
Qed.

End DispatcherInstances.

Section Faults.
Import Server.

(** What the handler answers to an exception deriving from Exception. *)
Lemma handle_raise e fs :
  is_Exception e = true ->
  handle (Raise e, fs)
  = (Responded {| status_code := 500;
                  body := VObj [("status", VStr "error");
                                ("message", VStr (exc_str e));
                                ("traceback", VStr (exc_traceback e))] |}, fs).
Proof. intros H. unfold handle. rewrite H. reflexivity. Qed.

(** The [try] block up to the import statement, on a machine where the
    root resolves, the config can be written and src/component.py is there. *)
Lemma prepare_reaches_import rt w data fs root :
  current_root w (req_componentPath data) = Some root ->
  write_fault w (os_path_join w root "data") = None ->
  os_path_exists w (os_path_join w root "src") = true ->
  os_path_exists w (os_path_join w (os_path_join w root "src") "component.py") = true ->
  prepare rt w data fs
  = match import_Component w (os_path_join w root "src") with
    | Raise e =>
        if is_ImportError e
        then ret (Early {| status_code := 500;
                           body := error_body ("Could not import Component: "
                                               +:+ exc_str e) |})
        else raise e
    | Ok cls => bind (lift cls) (fun comp => ret (Loaded comp))
    end (<[os_path_join w (os_path_join w root "data") "config.json"
           := VObj [("parameters", default (VObj []) (req_parameters data))]]> fs).
Proof.
  intros Hroot Hw Hsrc Hfile.
  unfold prepare, bind, write_config, join_root, bind, ret.
  rewrite Hroot, Hw. simpl. rewrite Hsrc, Hfile. simpl. reflexivity.
Qed.

Lemma raises_try rt w fs data e fs' :
  raises rt w fs data e fs' -> sync_action_try rt w data fs = (Raise e, fs').
Proof.
  intros H. destruct H.
  - reflexivity.
  - unfold sync_action_try, bind, lift, prepare, bind, write_config, join_root, bind.
    rewrite H. reflexivity.
  - unfold sync_action_try, bind, lift, prepare, bind, write_config, join_root, bind, ret.
    rewrite H, H0. reflexivity.
  - unfold sync_action_try, bind, lift.
    rewrite (prepare_reaches_import rt w data fs root H H0 H1 H2), H3, H4.
    reflexivity.
  - unfold sync_action_try, bind, lift.
    rewrite (prepare_reaches_import rt w data fs root H H0 H1 H2), H3.
    reflexivity.
  - unfold sync_action_try, bind, lift. rewrite H. unfold dispatch.
    destruct (req_action data) as [| | b | n | s | l | o]; try reflexivity.
    exfalso. apply (H0 s). reflexivity.
  - unfold sync_action_try, bind, lift. rewrite H. unfold dispatch.
    rewrite H0, H1, H2, H3. simpl. unfold call_method, bind. rewrite H4. reflexivity.
  - unfold sync_action_try, bind, lift. rewrite H. unfold dispatch.
    rewrite H0, H1, H2, H3. simpl. unfold call_method, bind. rewrite H4. reflexivity.
Qed.

(** C2, as amended.  (1) Whatever step of the [try] block raises an
    exception that derives from Exception -- parsing the body, path
    resolution, config persist, the load of the backend unit, name
    resolution, the resolved callable, the serialization of its result --
    [sync_action] answers 500 with a JSON body of status "error", the
    exception's message and its full traceback.  (2) An ImportError
    raised by the import of the backend unit never reaches that handler:
    it is answered 500 with status "error" and the message
    "Could not import Component: ...", and no traceback.  (3) An
    exception propagates out of [sync_action] only if it does not derive
    from Exception. *)
Theorem faults_are_answered :
  (forall rt w data fs e fs',
      raises rt w fs data e fs' ->
      is_Exception e = true ->
      sync_action rt w data fs
      = (Responded {| status_code := 500;
                      body := VObj [("status", VStr "error");
                                    ("message", VStr (exc_str e));
                                    ("traceback", VStr (exc_traceback e))] |},
         fs'))
  /\
  (forall rt w data fs root e,
      current_root w (req_componentPath data) = Some root ->
      write_fault w (os_path_join w root "data") = None ->
      os_path_exists w (os_path_join w root "src") = true ->
      os_path_exists w (os_path_join w (os_path_join w root "src") "component.py") = true ->
      import_Component w (os_path_join w root "src") = Raise e ->
      is_ImportError e = true ->
      fst (sync_action rt w (Ok data) fs)
      = Responded {| status_code := 500;
                     body := VObj [("status", VStr "error");
                                   ("message",
                                    VStr ("Could not import Component: "
                                          +:+ exc_str e))] |})
  /\
  (forall rt w data fs e fs',
      sync_action rt w data fs = (Propagated e, fs') ->
      is_Exception e = false).
Proof.
  split; [| split].
  - intros rt w data fs e fs' Hraises He. unfold sync_action.
    rewrite (raises_try _ _ _ _ _ _ Hraises). apply handle_raise, He.
  - intros rt w data fs root e Hroot Hw Hsrc Hfile Himp He.
    unfold sync_action, sync_action_try, bind, lift. simpl.
    rewrite (prepare_reaches_import rt w data fs root Hroot Hw Hsrc Hfile).
    rewrite Himp, He. reflexivity.
  - intros rt w data fs e fs'. unfold sync_action, handle.
    destruct (sync_action_try rt w data fs) as [[r | e'] fs''].
    + discriminate.
    + destruct (is_Exception e') eqn:He'; [discriminate |].
      intros [= <- _]. exact He'.
Qed.

Lemma faults_are_answered_witness :
  sync_action Sample.rt (Sample.world_with (Ok (Ok Sample.unit_raising)))
              (Ok (Sample.request_of "testConnection")) ∅
  = (Responded {| status_code := 500;
                  body := VObj [("status", VStr "error");
                                ("message", VStr "connection refused");
                                ("traceback",
                                 VStr "Traceback (most recent call last): ... UserException")] |},
     {[ "/code/data/config.json" := VObj [("parameters", VObj [("host", VStr "db")])] ]})
  /\
  fst (sync_action Sample.rt (Sample.world_with (Raise Sample.no_module))
                   (Ok (Sample.request_of "testConnection")) ∅)
  = Responded {| status_code := 500;
                 body := VObj [("status", VStr "error");
                               ("message",
                                VStr "Could not import Component: No module named 'component'")] |}.
Proof.
  destruct faults_are_answered as (Hcaught & Himport & _).
  split.
  - apply (Hcaught Sample.rt (Sample.world_with (Ok (Ok Sample.unit_raising)))
             (Ok (Sample.request_of "testConnection")) ∅ Sample.boom).
    + apply (raises_call _ _ _ _ Sample.unit_raising _ "testConnection"
               Sample.method_raising); reflexivity.
    + reflexivity.
  - apply (Himport Sample.rt (Sample.world_with (Raise Sample.no_module))
             (Sample.request_of "testConnection") ∅ "/code" Sample.no_module);
      reflexivity.
Defined.

(** C2 as stated fails: when the import of the backend unit raises an
    ImportError, the failure that [sync_action] answers has a status and
    a message and no traceback. *)
Lemma import_error_has_no_traceback :
  let w := Sample.world_with (Raise Sample.no_module) in
  exists r fs',
    sync_action Sample.rt w (Ok (Sample.request_of "testConnection")) ∅
    = (Responded r, fs')
    /\ Js.own (body r) "status" = VStr "error"
    /\ Js.own (body r) "message"
       = VStr "Could not import Component: No module named 'component'"
    /\ Js.own (body r) "traceback" = VUndef
    /\ obj_has (Js.own_entries (body r)) "traceback" = false.
Proof.
  eexists _, _. split; [reflexivity |]. repeat split; reflexivity.
Qed.

End Faults.

Section LoadSchemas.
Import Server.

(** C10.  Whenever [load_schemas] answers 400, the body was a dict, one
    of the two schemas in it is missing or empty, and the three globals
    hold what the body gave for them, whatever they held before: the
    stored schemas are overwritten before they are validated. *)
Theorem load_schemas_overwrites_before_validating rt g data r g' :
  load_schemas rt g data = (Responded r, g') ->
  status_code r = 400%nat ->
  exists d,
    data = Ok (VObj d)
    /\ loaded_component_schema g' = dict_get d "componentSchema"
    /\ loaded_row_schema g' = dict_get d "rowSchema"
    /\ loaded_component_name g' = dict_get_default d "componentName" (VStr "Unknown")
    /\ (py_truthy (dict_get d "componentSchema") = false
        \/ py_truthy (dict_get d "rowSchema") = false).
Proof.
  unfold load_schemas. intros H Hcode.
  destruct data as [v | e].
  - destruct v as [| | b | n | s | l | d];
      try (simpl in H; injection H as <- _; discriminate Hcode).
    exists d. split; [reflexivity |].
    cbn [loaded_component_schema loaded_row_schema loaded_component_name] in H.
    destruct (py_truthy (dict_get d "componentSchema")) eqn:Hc;
      destruct (py_truthy (dict_get d "rowSchema")) eqn:Hr;
      simpl in H; injection H as <- <-; simpl;
      try discriminate Hcode; auto.
  - destruct (is_Exception e); simpl in H; [| discriminate H].
    injection H as <- _. discriminate Hcode.
Qed.

Lemma load_schemas_overwrites_witness :
  let d := [("componentSchema", VObj [("type", VStr "object")]);
            ("componentName", VStr "ex-other")] in
  let after := snd (load_schemas Sample.rt Sample.stored (Ok (VObj d))) in
  exists d',
    Ok (VObj d) = Ok (VObj d')
    /\ loaded_component_schema after = dict_get d' "componentSchema"
    /\ loaded_row_schema after = dict_get d' "rowSchema"
    /\ loaded_component_name after
       = dict_get_default d' "componentName" (VStr "Unknown")
    /\ (py_truthy (dict_get d' "componentSchema") = false
        \/ py_truthy (dict_get d' "rowSchema") = false).
Proof.
  intros d after.
  apply (load_schemas_overwrites_before_validating Sample.rt Sample.stored
           (Ok (VObj d))
           {| status_code := 400;
              body := VObj [("error", VStr "Missing componentSchema or rowSchema")] |}
           after).
  - reflexivity.
  - reflexivity.
Defined.

(** The stored pair before and after a rejected upload. *)
Example load_schemas_rejected_upload :
  load_schemas Sample.rt Sample.stored
    (Ok (VObj [("componentSchema", VObj [("type", VStr "object")])]))
  = (Responded {| status_code := 400;
                  body := VObj [("error", VStr "Missing componentSchema or rowSchema")] |},
     {| loaded_component_schema := VObj [("type", VStr "object")];
        loaded_row_schema := VNull;
        loaded_component_name := VStr "Unknown" |}).
Proof. reflexivity. Qed.

End LoadSchemas.

(** ** Objects *)

Section Objects.

Lemma obj_get_set o k v k' :
  obj_get (obj_set o k v) k' = if String.eqb k k' then v else obj_get o k'.
Proof.
  induction o as [| [k0 v0] o IH]; simpl.
  - reflexivity.
  - destruct (String.eqb k0 k) eqn:E0; simpl.
    + apply String.eqb_eq in E0 as ->.
      destruct (String.eqb k k'); reflexivity.
    + rewrite IH. destruct (String.eqb k0 k') eqn:E1; [| reflexivity].
      apply String.eqb_eq in E1 as ->. rewrite String.eqb_sym, E0. reflexivity.
Qed.

Lemma obj_has_set o k v k' :
  obj_has (obj_set o k v) k' = String.eqb k k' || obj_has o k'.
Proof.
  induction o as [| [k0 v0] o IH]; simpl.
  - reflexivity.
  - destruct (String.eqb k0 k) eqn:E0; simpl.
    + apply String.eqb_eq in E0 as ->.
      destruct (String.eqb k k'); reflexivity.
    + rewrite IH. destruct (String.eqb k0 k'), (String.eqb k k'); reflexivity.
Qed.

Lemma obj_get_missing o k : obj_has o k = false -> obj_get o k = VUndef.
Proof.
  induction o as [| [k0 v0] o IH]; simpl; [reflexivity |].
  destruct (String.eqb k0 k); simpl; [discriminate | exact IH].
Qed.

Lemma obj_has_keys o k : obj_has o k = true <-> k ∈ Object_keys o.
Proof.
  unfold Object_keys. induction o as [| [k0 v0] o IH]; simpl.
  - split; [discriminate | intros H; inversion H].
  - rewrite orb_true_iff, IH, elem_of_cons, String.eqb_eq. intuition congruence.
Qed.

Lemma obj_get_app o kv k :
  obj_get (o ++ [kv]) k
  = if obj_has o k then obj_get o k
    else if String.eqb (fst kv) k then snd kv else VUndef.
Proof.
  destruct kv as [k1 v1]. induction o as [| [k0 v0] o IH]; simpl.
  - reflexivity.
  - destruct (String.eqb k0 k); simpl; [reflexivity | exact IH].
Qed.

Lemma obj_has_app o kv k :
  obj_has (o ++ [kv]) k = obj_has o k || String.eqb (fst kv) k.
Proof.
  destruct kv as [k1 v1]. induction o as [| [k0 v0] o IH]; simpl.
  - apply orb_false_r.
  - rewrite IH. apply orb_assoc.
Qed.

(** [{...a, ...b}] reads [b] first, for a [b] without repeated keys. *)
Lemma spread_get a b k :
  NoDup (Object_keys b) ->
  obj_get (spread a b) k = if obj_has b k then obj_get b k else obj_get a k.
Proof.
  unfold spread. revert a. induction b as [| [k0 v0] b IH]; intros a Hnd; simpl.
  - reflexivity.
  - unfold Object_keys in Hnd. simpl in Hnd. apply NoDup_cons in Hnd as [Hnot Hnd].
    rewrite (IH _ Hnd), obj_get_set.
    destruct (String.eqb k0 k) eqn:E; simpl; [| reflexivity].
    apply String.eqb_eq in E as ->.
    destruct (obj_has b k) eqn:Hb; [| reflexivity].
    apply obj_has_keys in Hb. contradiction.
Qed.

Lemma spread_has a b k :
  obj_has (spread a b) k = obj_has b k || obj_has a k.
Proof.
  unfold spread. revert a. induction b as [| [k0 v0] b IH]; intros a; simpl.
  - reflexivity.
  - rewrite IH, obj_has_set.
    destruct (String.eqb k0 k), (obj_has b k), (obj_has a k); reflexivity.
Qed.

Lemma obj_set_keys_NoDup o k v :
  NoDup (Object_keys o) -> NoDup (Object_keys (obj_set o k v)).
Proof.
  unfold Object_keys. induction o as [| [k0 v0] o IH]; simpl; intros Hnd.
  - apply NoDup_singleton.
  - apply NoDup_cons in Hnd as [Hnot Hnd].
    destruct (String.eqb k0 k) eqn:E; simpl.
    + apply NoDup_cons. split; assumption.
    + apply NoDup_cons. split; [| apply IH, Hnd].
      intros Hin. apply (obj_has_keys (obj_set o k v)) in Hin.
      rewrite obj_has_set in Hin. apply orb_true_iff in Hin as [Hin | Hin].
      * apply String.eqb_eq in Hin. subst. rewrite String.eqb_refl in E. discriminate.
      * apply obj_has_keys in Hin. contradiction.
Qed.

End Objects.

(** ** Form state merger *)

Section MergerFacts.
Import Js Merger.

Variables componentKeys rowKeys : list string.

Lemma split_snoc config kv :
  split componentKeys rowKeys (config ++ [kv])
  = split_step componentKeys rowKeys (split componentKeys rowKeys config) kv.
Proof. unfold split. apply fold_left_app. Qed.

Lemma split_NoDup config :
  NoDup (Object_keys (split componentKeys rowKeys config).1)
  /\ NoDup (Object_keys (split componentKeys rowKeys config).2).
Proof.
  induction config as [| kv config IH] using rev_ind.
  - split; apply NoDup_nil_2.
  - rewrite split_snoc.
    destruct (split componentKeys rowKeys config) as [cp rp], kv as [k v].
    destruct IH as [IHc IHr]. simpl in *.
    split.
    + destruct (includes componentKeys k); [apply obj_set_keys_NoDup |]; exact IHc.
    + destruct (includes rowKeys k); [apply obj_set_keys_NoDup |]; exact IHr.
Qed.

(** Each share holds the declared keys of [config], with their values. *)
Lemma split_has config k :
  obj_has (split componentKeys rowKeys config).1 k
    = includes componentKeys k && obj_has config k
  /\ obj_has (split componentKeys rowKeys config).2 k
    = includes rowKeys k && obj_has config k.
Proof.
  induction config as [| kv config IH] using rev_ind.
  - simpl. rewrite !andb_false_r. split; reflexivity.
  - rewrite split_snoc, obj_has_app.
    destruct (split componentKeys rowKeys config) as [cp rp], kv as [k0 v0].
    destruct IH as [IHc IHr]. simpl in *.
    split.
    + destruct (includes componentKeys k0) eqn:Hin.
      * rewrite obj_has_set, IHc.
        destruct (String.eqb k0 k) eqn:E; simpl.
        -- apply String.eqb_eq in E as <-. rewrite Hin, orb_true_r. reflexivity.
        -- rewrite orb_false_r. reflexivity.
      * rewrite IHc. destruct (String.eqb k0 k) eqn:E.
        -- apply String.eqb_eq in E as <-. rewrite Hin. reflexivity.
        -- rewrite orb_false_r. reflexivity.
    + destruct (includes rowKeys k0) eqn:Hin.
      * rewrite obj_has_set, IHr.
        destruct (String.eqb k0 k) eqn:E; simpl.
        -- apply String.eqb_eq in E as <-. rewrite Hin, orb_true_r. reflexivity.
        -- rewrite orb_false_r. reflexivity.
      * rewrite IHr. destruct (String.eqb k0 k) eqn:E.
        -- apply String.eqb_eq in E as <-. rewrite Hin. reflexivity.
        -- rewrite orb_false_r. reflexivity.
Qed.

Lemma split_get config k :
  NoDup (Object_keys config) ->
  obj_get (split componentKeys rowKeys config).1 k
    = (if includes componentKeys k then obj_get config k else VUndef)
  /\ obj_get (split componentKeys rowKeys config).2 k
    = (if includes rowKeys k then obj_get config k else VUndef).
Proof.
  induction config as [| kv config IH] using rev_ind; intros Hnd.
  - simpl. split; [destruct (includes componentKeys k) | destruct (includes rowKeys k)];
      reflexivity.
  - unfold Object_keys in Hnd. rewrite map_app in Hnd.
    apply NoDup_app in Hnd as (Hnd & Hfresh & _).
    rewrite split_snoc, obj_get_app.
    destruct (IH Hnd) as [IHc IHr].
    destruct (split componentKeys rowKeys config) as [cp rp], kv as [k0 v0].
    simpl in *.
    assert (Hk0 : String.eqb k0 k = true -> obj_has config k = false).
    { intros E. apply String.eqb_eq in E as <-.
      destruct (obj_has config k0) eqn:Hh; [| reflexivity].
      apply obj_has_keys in Hh. exfalso. apply (Hfresh k0 Hh). left. }
    split.
    + destruct (includes componentKeys k0) eqn:Hin.
      * rewrite obj_get_set, IHc.
        destruct (String.eqb k0 k) eqn:E.
        -- rewrite (Hk0 eq_refl). apply String.eqb_eq in E as <-.
           rewrite Hin. reflexivity.
        -- destruct (obj_has config k) eqn:Hh; [reflexivity |].
           rewrite (obj_get_missing _ _ Hh). reflexivity.
      * rewrite IHc. destruct (String.eqb k0 k) eqn:E.
        -- rewrite (Hk0 eq_refl). apply String.eqb_eq in E as <-.
           rewrite Hin. reflexivity.
        -- destruct (obj_has config k) eqn:Hh; [reflexivity |].
           rewrite (obj_get_missing _ _ Hh). reflexivity.
    + destruct (includes rowKeys k0) eqn:Hin.
      * rewrite obj_get_set, IHr.
        destruct (String.eqb k0 k) eqn:E.
        -- rewrite (Hk0 eq_refl). apply String.eqb_eq in E as <-.
           rewrite Hin. reflexivity.
        -- destruct (obj_has config k) eqn:Hh; [reflexivity |].
           rewrite (obj_get_missing _ _ Hh). reflexivity.
      * rewrite IHr. destruct (String.eqb k0 k) eqn:E.
        -- rewrite (Hk0 eq_refl). apply String.eqb_eq in E as <-.
           rewrite Hin. reflexivity.
        -- destruct (obj_has config k) eqn:Hh; [reflexivity |].
           rewrite (obj_get_missing _ _ Hh). reflexivity.
Qed.

End MergerFacts.

Section MergerProperties.
Import Js Merger.

(** The value an editor holds after [splitAndFillConfig] offered it
    [share]. *)
Lemma filled_editor_value e share :
  (share = [] -> current e = []) ->
  getValue (if (0 <? List.length share)%nat then setValue e share else e) = share.
Proof.
  intros H. destruct share as [| kv share]; simpl.
  - apply H. reflexivity.
  - reflexivity.
Qed.

Lemma filled_editor_ready e share :
  ready (if (0 <? List.length share)%nat then setValue e share else e) = ready e.
Proof. destruct (0 <? List.length share)%nat; reflexivity. Qed.

(** C3, as amended.  Take a persisted parameter set without repeated
    keys, each key of which is declared by the component schema or by the
    row schema, and two ready editors such that an editor whose share of
    the split is empty holds the empty object ([splitAndFillConfig] does
    not write an empty share).  Then splitting and recombining with row
    over component precedence yields a parameter set with the same keys
    and the same value at every key.  In particular [{x:1, y:2}] against
    a component schema declaring [x] and a row schema declaring [y]
    recombines to [{x:1, y:2}], whatever the editors held, and editor
    values [{a:1}] and [{a:2, b:3}] combine to [{a:2, b:3}]. *)
Theorem split_then_merge_roundtrip :
  (forall config ce re componentKeys rowKeys,
      declared ce = Normal componentKeys ->
      declared re = Normal rowKeys ->
      ready ce = true -> ready re = true ->
      NoDup (Object_keys config) ->
      (forall k, k ∈ Object_keys config ->
                 includes componentKeys k || includes rowKeys k = true) ->
      ((split componentKeys rowKeys config).1 = [] -> current ce = []) ->
      ((split componentKeys rowKeys config).2 = [] -> current re = []) ->
      exists eds' merged,
        splitAndFillConfig (VObj config)
          {| componentEditor := Some ce; rowEditor := Some re |} = Normal eds'
        /\ updateCombinedOutput eds' = Some (VObj [("parameters", VObj merged)])
        /\ forall k, obj_get merged k = obj_get config k
                     /\ obj_has merged k = obj_has config k)
  /\
  (forall before_c before_r,
      exists eds',
        splitAndFillConfig (VObj [("x", VNum 1); ("y", VNum 2)])
          {| componentEditor :=
               Some {| schema := VObj [("properties", VObj [("x", VObj [("type", VStr "number")])])];
                       ready := true; current := before_c |};
             rowEditor :=
               Some {| schema := VObj [("properties", VObj [("y", VObj [("type", VStr "number")])])];
                       ready := true; current := before_r |} |} = Normal eds'
        /\ updateCombinedOutput eds'
           = Some (VObj [("parameters", VObj [("x", VNum 1); ("y", VNum 2)])]))
  /\
  (forall sc sr,
      updateCombinedOutput
        {| componentEditor := Some {| schema := sc; ready := true;
                                      current := [("a", VNum 1)] |};
           rowEditor := Some {| schema := sr; ready := true;
                                current := [("a", VNum 2); ("b", VNum 3)] |} |}
      = Some (VObj [("parameters", VObj [("a", VNum 2); ("b", VNum 3)])])).
Proof.
  split; [| split].
  - intros config ce re ck rk Hck Hrk Hrc Hrr Hnd Hdecl Hce Hre.
    unfold splitAndFillConfig. simpl. rewrite Hck, Hrk. simpl.
    pose proof (split_NoDup ck rk config) as [_ HndR].
    pose proof (split_has ck rk config) as Hhas.
    pose proof (fun k => split_get ck rk config k Hnd) as Hget.
    destruct (split ck rk config) as [cp rp]. simpl in *.
    eexists _, _. split; [reflexivity |]. split.
    + unfold updateCombinedOutput. simpl.
      rewrite !filled_editor_ready, Hrc, Hrr. simpl.
      rewrite (filled_editor_value ce cp Hce), (filled_editor_value re rp Hre).
      reflexivity.
    + intros k. destruct (Hhas k) as [HhC HhR], (Hget k) as [HgC HgR].
      rewrite (spread_get cp rp k HndR), spread_has, HhC, HhR, HgC, HgR.
      destruct (obj_has config k) eqn:Hk.
      * pose proof (Hdecl k (proj1 (obj_has_keys config k) Hk)) as Hd.
        destruct (includes ck k), (includes rk k); simpl in *;
          try discriminate Hd; split; reflexivity.
      * rewrite (obj_get_missing _ _ Hk), !andb_false_r. simpl.
        destruct (includes ck k); split; reflexivity.
  - intros before_c before_r. eexists. split; reflexivity.
  - intros sc sr. reflexivity.
Qed.

Lemma split_then_merge_roundtrip_witness :
  exists eds' merged,
    splitAndFillConfig (VObj [("y", VNum 2); ("x", VNum 1)])
      {| componentEditor :=
           Some {| schema := VObj [("properties", VObj [("x", VObj [])])];
                   ready := true; current := [("x", VStr EmptyString)] |};
         rowEditor :=
           Some {| schema := VObj [("properties", VObj [("y", VObj [])])];
                   ready := true; current := [("y", VStr EmptyString)] |} |} = Normal eds'
    /\ updateCombinedOutput eds' = Some (VObj [("parameters", VObj merged)])
    /\ forall k, obj_get merged k = obj_get [("y", VNum 2); ("x", VNum 1)] k
                 /\ obj_has merged k = obj_has [("y", VNum 2); ("x", VNum 1)] k.
Proof.
  apply (proj1 split_then_merge_roundtrip
           [("y", VNum 2); ("x", VNum 1)]
           {| schema := VObj [("properties", VObj [("x", VObj [])])];
              ready := true; current := [("x", VStr EmptyString)] |}
           {| schema := VObj [("properties", VObj [("y", VObj [])])];
              ready := true; current := [("y", VStr EmptyString)] |}
           ["x"] ["y"]).
  - reflexivity.
  - reflexivity.
  - reflexivity.
  - reflexivity.
  - unfold Object_keys. simpl. apply NoDup_cons. split.
    + intros H. apply list_elem_of_In in H. simpl in H.
      destruct H as [H | []]. discriminate H.
    + apply NoDup_singleton.
  - intros k Hk. apply list_elem_of_In in Hk. simpl in Hk.
    destruct Hk as [<- | [<- | []]]; reflexivity.
  - simpl. discriminate.
  - simpl. discriminate.
Defined.

(** C3 as stated fails: [{y:2}] has its one key declared by the row
    schema, the component editor holds an empty string under [x] and is not written, and
    the recombined parameter set has a key [x] the original has not. *)
Lemma roundtrip_keeps_unwritten_editor :
  let ce := {| schema := VObj [("properties", VObj [("x", VObj [("type", VStr "string")])])];
               ready := true; current := [("x", VStr EmptyString)] |} in
  let re := {| schema := VObj [("properties", VObj [("y", VObj [("type", VStr "number")])])];
               ready := true; current := [("y", VNum 0)] |} in
  let config := [("y", VNum 2)] in
  declared ce = Normal ["x"] /\ declared re = Normal ["y"]
  /\ (forall k, k ∈ Object_keys config -> includes ["x"] k || includes ["y"] k = true)
  /\ exists eds',
       splitAndFillConfig (VObj config)
         {| componentEditor := Some ce; rowEditor := Some re |} = Normal eds'
       /\ updateCombinedOutput eds'
          = Some (VObj [("parameters", VObj [("x", VStr EmptyString); ("y", VNum 2)])])
       /\ obj_has [("x", VStr EmptyString); ("y", VNum 2)] "x" <> obj_has config "x"
       /\ obj_get [("x", VStr EmptyString); ("y", VNum 2)] "x" <> obj_get config "x".
Proof.
  simpl. repeat split; try reflexivity.
  - intros k Hk. apply list_elem_of_In in Hk. simpl in Hk.
    destruct Hk as [<- | []]. reflexivity.
  - eexists. repeat split; try reflexivity; discriminate.
Qed.

(** The recombined object lists the component keys first: the values
    agree with the original at every key, the order of the keys need not. *)
Example roundtrip_reorders_keys :
  forall before_c before_r,
    exists eds',
      splitAndFillConfig (VObj [("y", VNum 2); ("x", VNum 1)])
        {| componentEditor :=
             Some {| schema := VObj [("properties", VObj [("x", VObj [])])];
                     ready := true; current := before_c |};
           rowEditor :=
             Some {| schema := VObj [("properties", VObj [("y", VObj [])])];
                     ready := true; current := before_r |} |} = Normal eds'
      /\ updateCombinedOutput eds'
         = Some (VObj [("parameters", VObj [("x", VNum 1); ("y", VNum 2)])]).
Proof. intros. eexists. split; reflexivity. Qed.

(** A key that both schemas declare goes to both editors; a key that
    neither declares is dropped. *)
Example split_shared_and_unknown_keys :
  split ["a"; "b"] ["b"; "c"]
        [("a", VNum 1); ("b", VNum 2); ("c", VNum 3); ("d", VNum 4)]
  = ([("a", VNum 1); ("b", VNum 2)], [("b", VNum 2); ("c", VNum 3)]).
Proof. reflexivity. Qed.

End MergerProperties.

(** ** Dependency resolver *)

Section DependencyProperties.
Import Js Dependencies.

Lemma checkDependencies_forallb dependencies values :
  checkDependencies dependencies values
  = forallb (fun depField =>
               strict_eq (obj_get values depField) (own dependencies depField))
            (Object_keys (own_entries dependencies)).
Proof.
  unfold checkDependencies.
  generalize (Object_keys (own_entries dependencies)) as l.
  assert (H : forall l acc,
    fold_left (fun shouldShow depField =>
       if negb (strict_eq (obj_get values depField) (own dependencies depField))
       then false else shouldShow) l acc
    = acc && forallb (fun depField =>
               strict_eq (obj_get values depField) (own dependencies depField)) l).
  { induction l as [| k l IH]; intros acc; simpl.
    - symmetry. apply andb_true_r.
    - rewrite IH.
      destruct (strict_eq (obj_get values k) (own dependencies k)), acc; reflexivity. }
  intros l. rewrite H. reflexivity.
Qed.

(** Read on the top-level properties of the form value, the visibility
    [checkDependencies] computes is true exactly when,
    for every key [path] of the dependencies map, the form value
    [values[path]] is strictly equal ([===], no coercion) to the expected
    value.  It depends on the form value only through the values at those
    keys; so setting a watched field to another value and then back to
    the value it had gives the visibility it had. *)
Lemma visibility_is_exact_match :
  (forall dependencies values,
      checkDependencies dependencies values = true
      <-> forall path, path ∈ Object_keys (own_entries dependencies) ->
            strict_eq (obj_get values path) (own dependencies path) = true)
  /\
  (forall dependencies values values',
      (forall path, path ∈ Object_keys (own_entries dependencies) ->
                    obj_get values path = obj_get values' path) ->
      checkDependencies dependencies values = checkDependencies dependencies values')
  /\
  (forall dependencies values watched other,
      checkDependencies dependencies
        (obj_set (obj_set values watched other) watched (obj_get values watched))
      = checkDependencies dependencies values).
Proof.
  assert (Hpure : forall dependencies values values',
      (forall path, path ∈ Object_keys (own_entries dependencies) ->
                    obj_get values path = obj_get values' path) ->
      checkDependencies dependencies values = checkDependencies dependencies values').
  { intros d v v' H. rewrite !checkDependencies_forallb.
    induction (Object_keys (own_entries d)) as [| k l IH]; simpl; [reflexivity |].
    rewrite (H k) by left. f_equal. apply IH. intros p Hp. apply H. right. exact Hp. }
  split; [| split].
  - intros d v. rewrite checkDependencies_forallb, forallb_forall.
    split; intros H p Hp; apply H.
    + apply list_elem_of_In, Hp.
    + apply list_elem_of_In, Hp.
  - exact Hpure.
  - intros d v k x. apply Hpure. intros p _.
    rewrite !obj_get_set. destruct (String.eqb k p) eqn:E; [| reflexivity].
    apply String.eqb_eq in E as ->. reflexivity.
Qed.

Lemma visibility_is_exact_match_witness :
  let dependencies := VObj [("mode", VStr "advanced"); ("ssl", VBool true)] in
  let values := [("mode", VStr "advanced"); ("ssl", VBool true); ("port", VNum 5432)] in
  checkDependencies dependencies values = true
  /\ checkDependencies dependencies (obj_set values "ssl" (VStr "true")) = false
  /\ checkDependencies dependencies
       (obj_set (obj_set values "ssl" (VStr "true")) "ssl" (VBool true)) = true.
Proof.
  intros dependencies values.
  destruct visibility_is_exact_match as (Hiff & _ & Htoggle).
  assert (Hshown : checkDependencies dependencies values = true).
  { apply (proj2 (Hiff dependencies values)).
    intros path Hin. apply list_elem_of_In in Hin. simpl in Hin.
    destruct Hin as [<- | [<- | []]]; reflexivity. }
  split; [exact Hshown |]. split.
  - reflexivity.
  - rewrite <- Hshown at 2.
    exact (Htoggle dependencies values "ssl" (VStr "true")).
Defined.

(** Strict equality does not coerce: the string "true" is not [true], and
    a missing value is not [null]. *)
Example no_coercion :
  checkDependencies (VObj [("ssl", VBool true)]) [("ssl", VStr "true")] = false
  /\ checkDependencies (VObj [("ssl", VNum 1)]) [("ssl", VBool true)] = false
  /\ checkDependencies (VObj [("ssl", VNull)]) [] = false
  /\ checkDependencies (VObj [("port", VNum 5432)]) [("port", VNum 5432)] = true.
Proof. repeat split; reflexivity. Qed.

End DependencyProperties.

(* ===================================================================== *)
(** ** Dependency paths *)
(* ===================================================================== *)

Section DependencyPathProperties.
Import Js Dependencies DependencyPaths.

Lemma split_dot_dotless path :
  Mount.has_dot path = false -> split_dot path = [path].
Proof.
  induction path as [| c path IH]; [reflexivity |].
  simpl. intros [Hc Hp]%orb_false_elim. rewrite Hc, (IH Hp). reflexivity.
Qed.

(** At a path without a dot the live value is the top-level property. *)
Lemma spec_value_at_dotless values path :
  Mount.has_dot path = false -> spec_value_at values path = obj_get values path.
Proof.
  intros H. unfold spec_value_at. rewrite (split_dot_dotless _ H). reflexivity.
Qed.

(** C4.  [checkDependencies] compares, for every key of the dependencies
    map, the expected value with [values[key]]: the property of the form
    value of that name, not the live value at that path.  On keys
    without a dot the two are the same, and the visibility is the one
    specified: true exactly when every entry matches, strictly.  But a
    key that is a path into a nested object is watched as the path it is
    ([root.db.mode]) and then looked up as a property name of the whole
    form value, which has no such property: the field is hidden whatever
    the live value at the path is.  So it is for every key that is no
    top-level property of the form value.  The instance: a field that
    depends on [db.mode] being "advanced", on a form whose [db.mode] is
    "advanced". *)
Theorem dependency_paths_are_not_followed :
  (forall dependencies values,
      (forall path, path ∈ Object_keys (own_entries dependencies) ->
                    Mount.has_dot path = false) ->
      checkDependencies dependencies values = spec_visible dependencies values)
  /\
  (forall dependencies values path,
      path ∈ Object_keys (own_entries dependencies) ->
      obj_has values path = false ->
      own dependencies path <> VUndef ->
      checkDependencies dependencies values = false)
  /\
  (watched on_nested_mode = ["root.db.mode"]
   /\ spec_value_at nested_form "db.mode" = VStr "advanced"
   /\ own on_nested_mode "db.mode" = VStr "advanced"
   /\ spec_visible on_nested_mode nested_form = true
   /\ checkDependencies on_nested_mode nested_form = false
   /\ display (checkDependencies on_nested_mode nested_form) = "none").
Proof.
  split; [| split].
  - intros d v Hflat. rewrite checkDependencies_forallb. unfold spec_visible.
    induction (Object_keys (own_entries d)) as [| k l IH]; [reflexivity |].
    simpl. rewrite spec_value_at_dotless by (apply Hflat; left).
    f_equal. apply IH. intros p Hp. apply Hflat. right. exact Hp.
  - intros d v path Hin Hmiss Hexp. rewrite checkDependencies_forallb.
    apply not_true_is_false. intros Hall.
    rewrite forallb_forall in Hall.
    specialize (Hall path (proj1 (list_elem_of_In _ _) Hin)).
    rewrite (obj_get_missing _ _ Hmiss) in Hall.
    destruct (own d path); try discriminate. contradiction.
  - repeat split; reflexivity.
Qed.

End DependencyPathProperties.

(** ** Field group classifier *)

Section GroupProperties.
Import Js Groups.

Variable en : engine.

(** The group name of a property that is an object. *)
Lemma groupName_object p :
  groupName en (VObj p)
  = Normal
      (let g := or_else (obj_get p "x-kbc-group") VNull in
       let order := obj_get p "propertyOrder" in
       let g :=
         if negb (truthy g) && negb (strict_eq order VUndef) then
           if ge en order 1 && le en order 4 then VStr "Connection"
           else if ge en order 5 && le en order 7 then VStr "Data Selection"
           else if ge en order 8 then VStr "Destination"
           else g
         else g in
       if negb (truthy g) then VStr "Configuration" else g).
Proof. reflexivity. Qed.

Lemma groupName_ordered p n :
  truthy (obj_get p "x-kbc-group") = false ->
  obj_get p "propertyOrder" = VNum n ->
  groupName en (VObj p)
  = Normal (VStr (if (1 <=? n) && (n <=? 4) then "Connection"
                  else if (5 <=? n) && (n <=? 7) then "Data Selection"
                  else if 8 <=? n then "Destination"
                  else "Configuration")).
Proof.
  intros Hg Ho. unfold groupName, get, cbind, own, own_entries, or_else, ge, le.
  rewrite Hg, Ho. simpl. f_equal.
  destruct ((1 <=? n) && (n <=? 4)); [reflexivity |].
  destruct ((5 <=? n) && (n <=? 7)); [reflexivity |].
  destruct (8 <=? n); reflexivity.
Qed.

Lemma groups_get_push gs g key g' :
  groups_get (groups_push gs g key) g'
  = if String.eqb g g' then Some (default [] (groups_get gs g) ++ [key])
    else groups_get gs g'.
Proof.
  induction gs as [| [g0 l0] gs IH]; simpl.
  - destruct (String.eqb g g'); reflexivity.
  - destruct (String.eqb g0 g) eqn:E0; simpl.
    + apply String.eqb_eq in E0 as ->.
      destruct (String.eqb g g'); reflexivity.
    + rewrite IH. destruct (String.eqb g0 g') eqn:E1; [| reflexivity].
      apply String.eqb_eq in E1 as ->. rewrite String.eqb_sym, E0. reflexivity.
Qed.

Lemma listed_push gs g key g' key' :
  listed (groups_push gs g key) g' key'
  <-> listed gs g' key' \/ (g = g' /\ key = key').
Proof.
  unfold listed. rewrite groups_get_push.
  destruct (String.eqb g g') eqn:E.
  - apply String.eqb_eq in E as <-. split.
    + intros (l & [= <-] & Hin). apply elem_of_app in Hin as [Hin | Hin].
      * left. destruct (groups_get gs g) as [l0 |]; [| inversion Hin].
        exists l0. split; [reflexivity | exact Hin].
      * right. apply list_elem_of_singleton in Hin. auto.
    + intros [(l & Hl & Hin) | [_ <-]].
      * rewrite Hl. eexists. split; [reflexivity |]. apply elem_of_app. left. exact Hin.
      * eexists. split; [reflexivity |]. apply elem_of_app. right. left.
  - apply String.eqb_neq in E. split.
    + intros H. left. exact H.
    + intros [H | [Hg _]]; [exact H | contradiction].
Qed.

Lemma detect_loop props gs0 :
  Forall (fun kv => groupable en (snd kv)) props ->
  exists gs,
    fold_left (fun acc kv =>
                 gs <- acc ;; name <- groupName en (snd kv) ;;
                 push gs (to_string name) (fst kv))
              props (Normal gs0) = Normal gs
    /\ forall g key,
         listed gs g key
         <-> listed gs0 g key
             \/ exists prop name, (key, prop) ∈ props
                  /\ groupName en prop = Normal name /\ to_string name = g.
Proof.
  intros Hall. revert gs0.
  induction Hall as [| [k0 prop0] props (p & name & Hp & Hname & Hproto) _ IH];
    intros gs0.
  - exists gs0. split; [reflexivity |]. intros g key. split; [auto |].
    intros [H | (prop & name & Hin & _)]; [exact H | inversion Hin].
  - cbn [fst snd] in Hp, Hname. subst prop0.
    cbn [fold_left fst snd cbind]. rewrite Hname. cbn [cbind].
    unfold push at 2. rewrite Hproto.
    destruct (IH (groups_push gs0 (to_string name) k0)) as (gs & Hfold & Hgs).
    exists gs. split; [exact Hfold |].
    intros g key. rewrite Hgs, listed_push. split.
    + intros [[H | [<- <-]] | (prop & name' & Hin & Hn & Hg)].
      * left. exact H.
      * right. exists (VObj p), name. split; [left | auto].
      * right. exists prop, name'. split; [right; exact Hin | auto].
    + intros [H | (prop & name' & Hin & Hn & Hg)].
      * left. left. exact H.
      * apply elem_of_cons in Hin as [[= -> ->] | Hin].
        -- left. right. rewrite Hname in Hn.
           injection Hn as <-. auto.
        -- right. exists prop, name'. auto.
Qed.

End GroupProperties.

Section GroupResults.
Import Js Groups.

(** The group name of a property whose [propertyOrder] is set and whose
    own tag is falsy: [>=] and [<=] compare the order as a number. *)
Lemma groupName_set (en : engine) p :
  truthy (obj_get p "x-kbc-group") = false ->
  obj_get p "propertyOrder" <> VUndef ->
  groupName en (VObj p)
  = Normal (VStr match ToNumber en (obj_get p "propertyOrder") with
                 | Some n =>
                     if (1 <=? n) && (n <=? 4) then "Connection"
                     else if (5 <=? n) && (n <=? 7) then "Data Selection"
                     else if 8 <=? n then "Destination"
                     else "Configuration"
                 | None => "Configuration"
                 end).
Proof.
  intros Hg Ho.
  assert (Hset : strict_eq (obj_get p "propertyOrder") VUndef = false).
  { destruct (obj_get p "propertyOrder"); try reflexivity. contradiction. }
  unfold groupName, get, cbind, own, own_entries, or_else, ge, le.
  rewrite Hg, Hset. cbn [truthy negb andb].
  destruct (ToNumber en (obj_get p "propertyOrder")) as [n |]; [| reflexivity].
  destruct ((1 <=? n) && (n <=? 4)); [reflexivity |].
  destruct ((5 <=? n) && (n <=? 7)); [reflexivity |].
  destruct (8 <=? n); reflexivity.
Qed.

(** C6, as amended.  The group name of a top-level property is the
    property's own ['x-kbc-group'] when that is truthy (the [options] of
    the property are not read); otherwise, when [propertyOrder] is set,
    the order is compared as a number, as [>=] and [<=] convert it
    ([true] counts as 1, [null] as 0, a string as the number it spells),
    and the name is Connection for 1 to 4, Data Selection for 5 to 7,
    Destination for 8 and more; otherwise (no [propertyOrder], or one
    that lies in none of the ranges or converts to no number) it is
    Configuration.  And [detectFieldGroups] lists every key under the
    group name of its property, and under no other. *)
Theorem groups_by_own_tag_then_order (en : engine) :
  (forall p,
      truthy (obj_get p "x-kbc-group") = true ->
      groupName en (VObj p) = Normal (obj_get p "x-kbc-group"))
  /\
  (forall p,
      truthy (obj_get p "x-kbc-group") = false ->
      obj_get p "propertyOrder" <> VUndef ->
      match ToNumber en (obj_get p "propertyOrder") with
      | Some n =>
          (1 <= n <= 4 -> groupName en (VObj p) = Normal (VStr "Connection"))
          /\ (5 <= n <= 7 -> groupName en (VObj p) = Normal (VStr "Data Selection"))
          /\ (8 <= n -> groupName en (VObj p) = Normal (VStr "Destination"))
          /\ (n <= 0 -> groupName en (VObj p) = Normal (VStr "Configuration"))
      | None => groupName en (VObj p) = Normal (VStr "Configuration")
      end)
  /\
  (forall p,
      truthy (obj_get p "x-kbc-group") = false ->
      obj_get p "propertyOrder" = VUndef ->
      groupName en (VObj p) = Normal (VStr "Configuration"))
  /\
  (forall s props,
      obj_get s "properties" = VObj props ->
      Forall (fun kv => groupable en (snd kv)) props ->
      exists gs,
        detectFieldGroups en (VObj s) = Normal gs
        /\ forall g key,
             listed gs g key
             <-> exists prop name, (key, prop) ∈ props
                   /\ groupName en prop = Normal name /\ to_string name = g).
Proof.
  split; [| split; [| split]].
  - intros p Hg.
    unfold groupName, get, cbind, own, own_entries, or_else.
    repeat (rewrite Hg; cbn [negb andb]). reflexivity.
  - intros p Hg Ho. rewrite (groupName_set en p Hg Ho).
    destruct (ToNumber en (obj_get p "propertyOrder")) as [n |]; [| reflexivity].
    repeat split; intros Hn.
    + replace (1 <=? n) with true by lia. replace (n <=? 4) with true by lia.
      reflexivity.
    + replace (1 <=? n) with true by lia. replace (n <=? 4) with false by lia.
      replace (5 <=? n) with true by lia. replace (n <=? 7) with true by lia.
      reflexivity.
    + replace (1 <=? n) with true by lia. replace (n <=? 4) with false by lia.
      replace (5 <=? n) with true by lia. replace (n <=? 7) with false by lia.
      replace (8 <=? n) with true by lia. reflexivity.
    + replace (1 <=? n) with false by lia. replace (5 <=? n) with false by lia.
      replace (8 <=? n) with false by lia. reflexivity.
  - intros p Hg Ho.
    unfold groupName, get, cbind, own, own_entries, or_else. rewrite Hg, Ho.
    reflexivity.
  - intros s props Hprops Hall.
    destruct (detect_loop en props [] Hall) as (gs & Hfold & Hgs).
    exists gs. split.
    + unfold detectFieldGroups, get, cbind, own, own_entries.
      rewrite Hprops. simpl. exact Hfold.
    + intros g key. rewrite Hgs. split.
      * intros [(l & Hl & _) | H]; [discriminate Hl | exact H].
      * intros H. right. exact H.
Qed.

Lemma groups_by_own_tag_then_order_witness :
  groupName Sample.engine
    (VObj [("type", VStr "string"); ("x-kbc-group", VStr "Authorization");
           ("propertyOrder", VNum 6)])
  = Normal (VStr "Authorization")
  /\ groupName Sample.engine
       (VObj [("type", VStr "string"); ("propertyOrder", VNum 6)])
     = Normal (VStr "Data Selection")
  /\ groupName Sample.engine
       (VObj [("type", VStr "string"); ("propertyOrder", VBool true)])
     = Normal (VStr "Connection")
  /\ groupName Sample.engine
       (VObj [("type", VStr "string"); ("propertyOrder", VStr "high")])
     = Normal (VStr "Configuration")
  /\ groupName Sample.engine (VObj [("type", VStr "string")])
     = Normal (VStr "Configuration").
Proof.
  destruct (groups_by_own_tag_then_order Sample.engine) as (Htag & Horder & Hnone & _).
  split; [| split; [| split; [| split]]].
  - apply (Htag [("type", VStr "string"); ("x-kbc-group", VStr "Authorization");
                 ("propertyOrder", VNum 6)]). reflexivity.
  - apply (Horder [("type", VStr "string"); ("propertyOrder", VNum 6)]);
      [reflexivity | discriminate | lia].
  - apply (Horder [("type", VStr "string"); ("propertyOrder", VBool true)]);
      [reflexivity | discriminate | lia].
  - apply (Horder [("type", VStr "string"); ("propertyOrder", VStr "high")]);
      [reflexivity | discriminate].
  - apply Hnone; reflexivity.
Defined.

(** C6 as stated fails: a property tagged under [options] and without
    [propertyOrder] is grouped under Configuration, not under its tag. *)
Lemma options_tag_is_not_read :
  let prop := VObj [("type", VStr "string");
                    ("options", VObj [("x-kbc-group", VStr "Authorization")])] in
  get_opt (own prop "options") "x-kbc-group" = VStr "Authorization"
  /\ groupName Sample.engine prop = Normal (VStr "Configuration")
  /\ groupName Sample.engine prop <> Normal (VStr "Authorization")
  /\ detectFieldGroups Sample.engine (VObj [("properties", VObj [("token", prop)])])
     = Normal [("Configuration", ["token"])].
Proof. repeat split; try reflexivity. discriminate. Qed.

(** Orders below 1 fall into Configuration; a tag that is a name of
    [Object.prototype] makes the loop throw. *)
Example group_of_order_zero :
  groupName Sample.engine (VObj [("propertyOrder", VNum 0)])
  = Normal (VStr "Configuration").
Proof. reflexivity. Qed.

Example group_named_constructor :
  detectFieldGroups Sample.engine
    (VObj [("properties",
            VObj [("host", VObj [("x-kbc-group", VStr "constructor")])])])
  = Throw TypeError_call.
Proof. reflexivity. Qed.

Example groups_in_insertion_order :
  detectFieldGroups Sample.engine
    (VObj [("properties",
            VObj [("table", VObj [("propertyOrder", VNum 5)]);
                  ("host", VObj [("propertyOrder", VNum 1)]);
                  ("port", VObj [("propertyOrder", VNum 2)]);
                  ("debug", VObj [("type", VStr "boolean")])])])
  = Normal [("Data Selection", ["table"]); ("Connection", ["host"; "port"]);
            ("Configuration", ["debug"])].
Proof. reflexivity. Qed.

End GroupResults.

(** ** Schema normalizer *)

Section NormalizerProperties.
Import Js Normalizer.

Example camelize_test_connection : camelize "test-connection" = "testConnection".
Proof. reflexivity. Qed.

Example camelize_other :
  camelize "list-all-tables" = "listAllTables" /\ camelize "a-1b" = "a-1b"
  /\ camelize "load--x" = "load-X" /\ camelize "sync-" = "sync-".
Proof. repeat split; reflexivity. Qed.

(** The order in which a top-level button gets its action: the async
    descriptor first, the format second, "unknown" last. *)
Lemma button_action_order prop :
  (forall a, get_opt (get_opt (own prop "options") "async") "action" = VStr a ->
             a <> EmptyString ->
             exists field, button true prop = Normal field
               /\ own (own field "options") "_action" = VStr a
               /\ own (own field "options") "_isButton" = VBool true
               /\ own field "type" = VStr "string")
  /\ (forall f, truthy (get_opt (get_opt (own prop "options") "async") "action") = false ->
                own prop "format" = VStr f -> f <> EmptyString ->
                exists field, button true prop = Normal field
                  /\ own (own field "options") "_action" = VStr (camelize f)
                  /\ own (own field "options") "_isButton" = VBool true
                  /\ own field "type" = VStr "string")
  /\ (truthy (get_opt (get_opt (own prop "options") "async") "action") = false ->
      truthy (own prop "format") = false ->
      exists field, button true prop = Normal field
        /\ own (own field "options") "_action" = VStr "unknown"
        /\ own (own field "options") "_isButton" = VBool true
        /\ own field "type" = VStr "string").
Proof.
  split; [| split].
  - intros a Ha Hne. destruct a as [| c a]; [contradiction |].
    unfold button. rewrite Ha. cbn [truthy String.eqb negb cbind].
    assert (Hown : own (get_opt (own prop "options") "async") "action"
                   = VStr (String c a)).
    { revert Ha. generalize (get_opt (own prop "options") "async") as async.
      intros async Ha. destruct async; try discriminate Ha; exact Ha. }
    rewrite Hown. eexists. split; [reflexivity |]. repeat split; reflexivity.
  - intros f Ha Hf Hne. destruct f as [| c f]; [contradiction |].
    unfold button. rewrite Ha, Hf. cbn [truthy String.eqb negb cbind].
    eexists. split; [reflexivity |]. repeat split; reflexivity.
  - intros Ha Hf. unfold button. rewrite Ha, Hf. cbn [cbind].
    eexists. split; [reflexivity |]. repeat split; reflexivity.
Qed.

(** C5 at the button ["test-connection"] with no async descriptor.  As a
    top-level property it becomes the hidden string field with action
    testConnection and label "Test Connection".  As a property of a
    top-level object it becomes the hidden field with action
    testConnection and the label "Button".  One level deeper it is left
    as it is, a field of type button. *)
Theorem button_normalization_by_depth :
  preprocessSchema Sample.schema_depth1
  = Normal (VObj [("type", VStr "object");
                  ("properties",
                   VObj [("test", Sample.hidden_field "Test Connection")])])
  /\
  preprocessSchema Sample.schema_depth2
  = Normal (VObj [("type", VStr "object");
                  ("properties",
                   VObj [("db", VObj [("type", VStr "object");
                                      ("properties",
                                       VObj [("test", Sample.hidden_field "Button")])])])])
  /\
  preprocessSchema Sample.schema_depth3 = Normal Sample.schema_depth3.
Proof. repeat split; reflexivity. Qed.

End NormalizerProperties.

(** ** Async option loader: the response *)

Section LoaderProperties.
Import Js Loader.

Lemma mapM_member k arr :
  Forall entry arr ->
  Normalizer.mapM (member k) arr
  = Normal (map (fun opt => match opt with VObj o => obj_get o k | _ => opt end) arr).
Proof.
  induction 1 as [| opt arr Hopt _ IH]; simpl; [reflexivity |].
  rewrite IH. destruct opt; simpl in *; try contradiction; reflexivity.
Qed.

Lemma zip_with_map {A B C D} (f : B -> C -> D) (g : A -> B) (h : A -> C) l :
  zip_with f (map g l) (map h l) = map (fun x => f (g x) (h x)) l.
Proof. induction l as [| x l IH]; simpl; [reflexivity | rewrite IH; reflexivity]. Qed.

Lemma response_options_carries result arr :
  carries result arr -> response_options result = Normal (VArr arr).
Proof.
  intros [-> | [(o & -> & Ho) | (o & -> & Ho & Hd)]]; unfold response_options.
  - reflexivity.
  - simpl. rewrite Ho. reflexivity.
  - simpl. rewrite Ho, Hd. reflexivity.
Qed.

(** C8, as amended.  When the load resolves with a non-empty array of
    [{value, label}] pairs and bare scalars, in any of the three shapes,
    and the field's control is a SELECT element, [loadOptions] replaces
    the options of the control by one option per returned element (the
    pair's value and label, or the scalar's string form for both), with
    the empty "-- Select --" option in front exactly when the field is
    not required, enables the control again, and raises no alert.  When
    it resolves with the empty array, in any of the three shapes, the
    control keeps the options it had and is enabled again. *)
Theorem loaded_options_replace_the_list :
  (forall en prop fieldPath el arr result,
      tagName el = "SELECT" ->
      arr <> [] ->
      Forall entry arr ->
      carries result arr ->
      loadOptions en prop fieldPath (Some el) (Normal result)
      = (Some {| tagName := "SELECT"; disabled := false; opacity := "1";
                 options := (if truthy (own prop "required") then []
                             else [empty_option])
                            ++ map spec_option arr |},
         []))
  /\
  (forall en prop fieldPath el result,
      carries result [] ->
      loadOptions en prop fieldPath (Some el) (Normal result)
      = (Some {| tagName := tagName el; disabled := false; opacity := "1";
                 options := options el |},
         [])).
Proof.
  split.
  - intros en prop fieldPath el arr result Htag Hne Hall Hshape.
    unfold loadOptions, populate. cbn [cbind].
    rewrite (response_options_carries _ _ Hshape). cbn [cbind].
    assert (Hlen : gt en (length_of (VArr arr)) 0 = true).
    { unfold gt, length_of, ToNumber. destruct arr; [contradiction |].
      simpl List.length. apply Z.ltb_lt. lia. }
    rewrite Hlen. unfold array_map.
    rewrite !(mapM_member _ _ Hall). cbn [cbind set_busy].
    cbn [tagName disabled opacity options]. rewrite Htag.
    cbn [String.eqb Ascii.eqb Bool.eqb set_busy tagName disabled opacity options].
    rewrite zip_with_map.
    rewrite (map_ext _ spec_option) by (intros opt; destruct opt; reflexivity).
    destruct (truthy (own prop "required")); reflexivity.
  - intros en prop fieldPath el result Hshape.
    unfold loadOptions, populate. cbn [cbind].
    rewrite (response_options_carries _ _ Hshape). reflexivity.
Qed.

Lemma loaded_options_replace_the_list_witness :
  loadOptions Sample.engine (VObj [("type", VStr "string")]) "table"
    (Some Sample.select_with_old)
    (Normal (VObj [("data", VArr [VObj [("value", VStr "t7"); ("label", VStr "Orders")];
                                  VStr "t8"; VNum 9])]))
  = (Some {| tagName := "SELECT"; disabled := false; opacity := "1";
             options := [ {| value_attr := EmptyString; text := "-- Select --" |};
                          {| value_attr := "t7"; text := "Orders" |};
                          {| value_attr := "t8"; text := "t8" |};
                          {| value_attr := "9"; text := "9" |} ] |},
     []).
Proof.
  apply (proj1 loaded_options_replace_the_list Sample.engine
           (VObj [("type", VStr "string")]) "table" Sample.select_with_old
           [VObj [("value", VStr "t7"); ("label", VStr "Orders")]; VStr "t8"; VNum 9]).
  - reflexivity.
  - discriminate.
  - repeat constructor.
  - right. right. eexists. repeat split; reflexivity.
Defined.

(** C8 as stated fails: a load that resolves with the empty array leaves
    the options the control had; they are not replaced by the returned
    values, and no empty option is put in front. *)
Lemma empty_response_keeps_old_options :
  carries (VArr []) []
  /\ loadOptions Sample.engine (VObj [("type", VStr "string")]) "table"
       (Some Sample.select_with_old) (Normal (VArr []))
     = (Some Sample.select_with_old, [])
  /\ options Sample.select_with_old <> [empty_option] ++ map spec_option [].
Proof.
  split; [left; reflexivity |]. split; [reflexivity | discriminate].
Qed.

(** A null element is an object to [typeof]: reading its [value] throws,
    the catch block alerts, and the control is enabled again with the
    options it had. *)
Example null_element_alerts :
  loadOptions Sample.engine (VObj [("title", VStr "Table")]) "table"
    (Some Sample.select_with_old) (Normal (VArr [VNull; VStr "t8"]))
  = (Some Sample.select_with_old,
     [{| about := "Table"; error := TypeError_property |}]).
Proof. reflexivity. Qed.

(** A failed call: the alert names the field, the control is enabled again. *)
Example failed_load_alerts :
  loadOptions Sample.engine (VObj [("type", VStr "string")]) "table"
    (Some Sample.select_with_old) (Throw (Error "HTTP 500: boom"))
  = (Some Sample.select_with_old,
     [{| about := "table"; error := Error "HTTP 500: boom" |}]).
Proof. reflexivity. Qed.

(** A required field gets no empty option. *)
Example required_field_options :
  loadOptions Sample.engine (VObj [("required", VBool true)]) "table"
    (Some Sample.select_with_old) (Normal (VObj [("options", VArr [VStr "t8"])]))
  = (Some {| tagName := "SELECT"; disabled := false; opacity := "1";
             options := [{| value_attr := "t8"; text := "t8" |}] |},
     []).
Proof. reflexivity. Qed.

End LoaderProperties.

(** ** Async option loader: the debounced watch *)

Section WatchFacts.
Import Js Watch.

Lemma length_append (a b : string) :
  String.length (a +:+ b) = (String.length a + String.length b)%nat.
Proof.
  induction a as [| x a IH]; [reflexivity |].
  change (S (String.length (a +:+ b)) = S (String.length a + String.length b)).
  rewrite IH. reflexivity.
Qed.

Lemma append_inj_r (a b s : string) : a +:+ s = b +:+ s -> a = b.
Proof.
  revert b. induction a as [| x a IH]; intros b H.
  - destruct b as [| y b]; [reflexivity |].
    apply (f_equal String.length) in H.
    rewrite !length_append in H. simpl in H. lia.
  - destruct b as [| y b].
    + apply (f_equal String.length) in H.
      rewrite !length_append in H. simpl in H. lia.
    + change (String x (a +:+ s) = String y (b +:+ s)) in H.
      injection H as -> H. f_equal. apply IH, H.
Qed.

Lemma filter_comm {A} (P Q : A -> Prop) `{!forall x, Decision (P x)}
    `{!forall x, Decision (Q x)} (l : list A) :
  filter P (filter Q l) = filter Q (filter P l).
Proof.
  induction l as [| x l IH]; [reflexivity |].
  rewrite !(filter_cons _ x).
  destruct (decide (Q x)), (decide (P x)); rewrite ?(filter_cons _ x);
    repeat case_decide; try contradiction; rewrite ?IH; reflexivity.
Qed.

Lemma insert_by_due_perm tm l : insert_by_due tm l ≡ₚ tm :: l.
Proof.
  induction l as [| tm' l IH]; simpl; [reflexivity |].
  destruct (due tm <? due tm'); [reflexivity |].
  rewrite IH. apply Permutation_swap.
Qed.

Lemma by_due_perm l : by_due l ≡ₚ l.
Proof.
  unfold by_due.
  assert (H : forall acc, fold_left (fun acc tm => insert_by_due tm acc) l acc ≡ₚ acc ++ l).
  { induction l as [| tm l IH]; intros acc; simpl.
    - rewrite app_nil_r. reflexivity.
    - rewrite IH, insert_by_due_perm. simpl. apply Permutation_middle. }
  rewrite H. reflexivity.
Qed.

(** Firing timers touches the clock and the log only. *)
Lemma fold_fire l pg :
  let pg' := fold_left fire l pg in
  next_id pg' = next_id pg /\ pending pg' = pending pg
  /\ watchDebounceTimers pg' = watchDebounceTimers pg
  /\ watchers pg' = watchers pg /\ form pg' = form pg
  /\ loads pg' = loads pg
       ++ map (fun tm => {| at_time := due tm; by_callback := run tm;
                            parameters := form pg |}) l.
Proof.
  revert pg. induction l as [| tm l IH]; intros pg; simpl.
  - rewrite app_nil_r. repeat split; reflexivity.
  - destruct (IH (fire pg tm)) as (H1 & H2 & H3 & H4 & H5 & H6).
    simpl in *. rewrite H6, <- app_assoc. repeat split; assumption.
Qed.

Lemma fold_fire_now l pg t :
  now pg <= t -> (forall tm, tm ∈ l -> due tm <= t) ->
  now (fold_left fire l pg) <= t.
Proof.
  revert pg. induction l as [| tm l IH]; intros pg Hnow Hall; simpl.
  - exact Hnow.
  - apply IH.
    + simpl. apply Hall. left.
    + intros tm' Hin. apply Hall. right. exact Hin.
Qed.

End WatchFacts.

Section WatchInvariant.
Import Js Watch.

Variables F W : string.

Lemma filter_map_loads cb f l :
  filter (fun ld => by_callback ld = cb)
         (map (fun tm => {| at_time := due tm; by_callback := run tm;
                            parameters := f |}) l)
  = map (fun tm => {| at_time := due tm; by_callback := run tm; parameters := f |})
        (filter (fun tm => run tm = cb) l).
Proof.
  induction l as [| tm l IH]; [reflexivity |].
  simpl map. rewrite !filter_cons. simpl. rewrite IH.
  destruct (decide (run tm = cb)); reflexivity.
Qed.

(** The reloads of the pair that a run of the event loop adds. *)
Lemma run_until_loads pg t :
  debounce_loads F W (run_until t pg)
  = debounce_loads F W pg
    ++ map (fun tm => {| at_time := due tm; by_callback := run tm;
                         parameters := form pg |})
           (filter (fun tm => run tm = Debounced F W)
                   (by_due (filter (fun tm => due tm <= t) (pending pg)))).
Proof.
  unfold debounce_loads, run_until. cbn [loads].
  match goal with |- context [fold_left fire ?l ?p] =>
    destruct (fold_fire l p) as (_ & _ & _ & _ & _ & Hl) end.
  rewrite Hl. cbn [loads form]. rewrite filter_app, filter_map_loads. reflexivity.
Qed.

Lemma run_until_fields pg t :
  now pg <= t ->
  now (run_until t pg) = t
  /\ next_id (run_until t pg) = next_id pg
  /\ pending (run_until t pg) = filter (fun tm => ~ due tm <= t) (pending pg)
  /\ watchDebounceTimers (run_until t pg) = watchDebounceTimers pg
  /\ watchers (run_until t pg) = watchers pg
  /\ form (run_until t pg) = form pg.
Proof.
  intros Hnow. unfold run_until.
  match goal with |- context [fold_left fire ?l ?p] =>
    destruct (fold_fire l p) as (H1 & H2 & H3 & H4 & H5 & _);
    pose proof (fold_fire_now l p t) as Hn end.
  cbn [now next_id pending watchDebounceTimers watchers form] in *.
  rewrite H1, H2, H3, H4, H5. repeat split; try reflexivity.
  apply Z.max_r. apply Hn; [exact Hnow |].
  intros tm Hin. rewrite by_due_perm in Hin.
  apply list_elem_of_filter in Hin as [Hdue _]. exact Hdue.
Qed.

Lemma run_until_inv before pg o t :
  debounce_inv F W before pg o ->
  (forall tm, o = Some tm -> t < due tm) ->
  now pg <= t ->
  debounce_inv F W before (run_until t pg) o
  /\ now (run_until t pg) = t
  /\ form (run_until t pg) = form pg
  /\ watchers (run_until t pg) = watchers pg.
Proof.
  intros (Hwf & Hreg & Htimers & Hloads & Hkey) Hlate Hnow.
  destruct (run_until_fields pg t Hnow) as (Hn & Hid & Hp & Hw & Hws & Hf).
  assert (Hkeep : filter (fun tm => ~ due tm <= t) (option_list o) = option_list o).
  { destruct o as [tm |]; [| reflexivity]. simpl.
    rewrite filter_cons. pose proof (Hlate tm eq_refl).
    destruct (decide (~ due tm <= t)); [reflexivity | lia]. }
  assert (Hnone : filter (fun tm => due tm <= t) (option_list o) = []).
  { destruct o as [tm |]; [| reflexivity]. simpl.
    rewrite filter_cons. pose proof (Hlate tm eq_refl).
    destruct (decide (due tm <= t)); [lia | reflexivity]. }
  split; [| auto].
  unfold debounce_inv. split; [| split; [| split; [| split]]].
  - destruct Hwf as (H0 & Hp' & Hk'). unfold well_formed.
    rewrite Hid, Hp, Hw. split; [exact H0 |]. split; [| exact Hk'].
    intros tm Hin. apply list_elem_of_filter in Hin as [_ Hin]. apply Hp', Hin.
  - unfold registered. rewrite Hws. exact Hreg.
  - unfold debounce_timers in *. rewrite Hp, filter_comm, Htimers. exact Hkeep.
  - rewrite run_until_loads, Hloads.
    assert (Hperm : filter (fun tm => run tm = Debounced F W)
                      (by_due (filter (fun tm => due tm <= t) (pending pg))) ≡ₚ []).
    { rewrite by_due_perm, filter_comm. unfold debounce_timers in Htimers.
      rewrite Htimers, Hnone. reflexivity. }
    apply Permutation_nil_r in Hperm. rewrite Hperm. simpl. apply app_nil_r.
  - intros tm Ho. rewrite Hw. apply Hkey, Ho.
Qed.

(** When the pair's timer is due, it fires, once, and reads the form. *)
Lemma run_until_fires before pg tm T :
  debounce_inv F W before pg (Some tm) ->
  due tm <= T ->
  debounce_loads F W (run_until T pg)
  = before ++ [{| at_time := due tm; by_callback := Debounced F W;
                  parameters := form pg |}]
  /\ debounce_timers F W (run_until T pg) = [].
Proof.
  intros (Hwf & Hreg & Htimers & Hloads & Hkey) Hdue.
  assert (Hours : run tm = Debounced F W).
  { assert (Hin : tm ∈ debounce_timers F W pg) by (rewrite Htimers; left).
    apply list_elem_of_filter in Hin as [Hr _]. exact Hr. }
  split.
  - rewrite run_until_loads, Hloads.
    assert (Hperm : filter (fun tm => run tm = Debounced F W)
                      (by_due (filter (fun tm => due tm <= T) (pending pg))) ≡ₚ [tm]).
    { rewrite by_due_perm, filter_comm. unfold debounce_timers in Htimers.
      rewrite Htimers. simpl. rewrite filter_cons.
      destruct (decide (due tm <= T)); [reflexivity | contradiction]. }
    apply Permutation_singleton_r in Hperm. rewrite Hperm. simpl.
    rewrite Hours. reflexivity.
  - unfold debounce_timers, run_until. cbn [pending].
    match goal with |- context [fold_left fire ?l ?p] =>
      destruct (fold_fire l p) as (_ & Hp & _) end.
    rewrite Hp. cbn [pending]. rewrite filter_comm.
    unfold debounce_timers in Htimers. rewrite Htimers. simpl.
    rewrite filter_cons. destruct (decide (~ due tm <= T)); [contradiction | reflexivity].
Qed.

End WatchInvariant.

Section WatchSteps.
Import Js Watch.

Variables F W : string.

(** What one call of the watch function does to the page. *)
Lemma on_watch_spec w pg :
  let key := fieldPath w +:+ "_" +:+ watchField w in
  let new := {| id := next_id pg; due := now pg + 1000;
                run := Debounced (fieldPath w) (watchField w) |} in
  exists kept,
    now (on_watch w pg) = now pg
    /\ next_id (on_watch w pg) = S (next_id pg)
    /\ pending (on_watch w pg) = kept ++ [new]
    /\ watchDebounceTimers (on_watch w pg)
       = <[key := next_id pg]> (watchDebounceTimers pg)
    /\ watchers (on_watch w pg) = watchers pg
    /\ form (on_watch w pg) = form pg
    /\ loads (on_watch w pg) = loads pg
    /\ (kept = pending pg
        \/ exists t, watchDebounceTimers pg !! key = Some t /\ t <> 0%nat
             /\ kept = filter (fun tm => id tm <> t) (pending pg)).
Proof.
  intros key new. unfold on_watch. fold key.
  destruct (watchDebounceTimers pg !! key) as [t |] eqn:Hk.
  - destruct (Nat.eqb t 0) eqn:Ht; simpl.
    + exists (pending pg). repeat split; try reflexivity. left. reflexivity.
    + exists (filter (fun tm => id tm <> t) (pending pg)).
      repeat split; try reflexivity. right. exists t.
      apply Nat.eqb_neq in Ht. auto.
  - simpl. exists (pending pg). repeat split; try reflexivity. left. reflexivity.
Qed.

Lemma kept_subset (kept : list timer) pg :
  (kept = pending pg
   \/ exists t, kept = filter (fun tm => id tm <> t) (pending pg)) ->
  forall tm, tm ∈ kept -> tm ∈ pending pg.
Proof.
  intros [-> | (t & ->)] tm Hin; [exact Hin |].
  apply list_elem_of_filter in Hin as [_ Hin]. exact Hin.
Qed.

(** The watch of the pair itself: whatever was pending for the pair is
    cancelled, and one timer is pending, due in 1000. *)
Lemma on_watch_ours before pg o w :
  debounce_inv F W before pg o ->
  fieldPath w = F -> watchField w = W ->
  exists tm,
    debounce_inv F W before (on_watch w pg) (Some tm)
    /\ due tm = now pg + 1000
    /\ now (on_watch w pg) = now pg
    /\ form (on_watch w pg) = form pg
    /\ watchers (on_watch w pg) = watchers pg.
Proof.
  intros (Hwf & Hreg & Htimers & Hloads & Hkey) HF HW.
  destruct (on_watch_spec w pg) as (kept & Hn & Hid & Hp & Hw & Hws & Hf & Hl & Hkept).
  rewrite HF, HW in *.
  destruct Hwf as (H0 & Hids & Hkeys).
  exists {| id := next_id pg; due := now pg + 1000; run := Debounced F W |}.
  split; [| auto].
  assert (Hsub : forall tm, tm ∈ kept -> tm ∈ pending pg).
  { apply kept_subset. destruct Hkept as [-> | (t & _ & _ & ->)]; eauto. }
  assert (Hgone : filter (fun tm => run tm = Debounced F W) kept = []).
  { unfold debounce_timers in Htimers.
    destruct Hkept as [-> | (t & Hk & Ht & ->)].
    - destruct o as [tm |]; [| exact Htimers].
      destruct (Hkey tm eq_refl) as [Hk _].
      (* the key holds the id of the pending timer, which is positive *)
      exfalso.
      assert (Hin : tm ∈ pending pg).
      { assert (Hin : tm ∈ filter (fun tm => run tm = Debounced F W) (pending pg))
          by (rewrite Htimers; left).
        apply list_elem_of_filter in Hin as [_ Hin]. exact Hin. }
      pose proof (Hids tm Hin) as Hpos.
      unfold on_watch in Hp. rewrite HF, HW, Hk in Hp.
      destruct (Nat.eqb (id tm) 0) eqn:E; [apply Nat.eqb_eq in E; lia |].
      simpl in Hp. apply app_inj_tail in Hp as [Hp _].
      assert (Hnot : tm ∈ filter (fun tm0 => id tm0 <> id tm) (pending pg))
        by (rewrite Hp; exact Hin).
      apply list_elem_of_filter in Hnot as [Hne _]. contradiction.
    - rewrite filter_comm, Htimers.
      destruct o as [tm |]; [| reflexivity].
      destruct (Hkey tm eq_refl) as [Hk' _]. rewrite Hk in Hk'.
      injection Hk' as ->. simpl. rewrite filter_cons.
      destruct (decide (id tm <> id tm)); [contradiction | reflexivity]. }
  unfold debounce_inv. split; [| split; [| split; [| split]]].
  - unfold well_formed. rewrite Hid, Hp, Hw. split; [lia |]. split.
    + intros tm Hin. apply elem_of_app in Hin as [Hin | Hin].
      * pose proof (Hids tm (Hsub tm Hin)). lia.
      * apply list_elem_of_singleton in Hin as ->. simpl. lia.
    + intros k t Hk. apply lookup_insert_Some in Hk as [[_ <-] | [_ Hk]].
      * lia.
      * pose proof (Hkeys k t Hk). lia.
  - unfold registered. rewrite Hws. exact Hreg.
  - unfold debounce_timers. rewrite Hp, filter_app, Hgone. simpl.
    rewrite filter_cons. simpl.
    destruct (decide (Debounced F W = Debounced F W)); [reflexivity | contradiction].
  - unfold debounce_loads. rewrite Hl. exact Hloads.
  - intros tm [= <-]. rewrite Hw. cbn [id]. split.
    + apply lookup_insert_eq.
    + intros k Hne. rewrite lookup_insert_ne by (intros E; apply Hne; symmetry; exact E).
      intros Hk. pose proof (Hkeys k _ Hk). lia.
Qed.

(** The watch of another field on the same watched field leaves the
    pair's timer alone. *)
Lemma on_watch_other before pg o w :
  debounce_inv F W before pg o ->
  fieldPath w <> F -> watchField w = W ->
  debounce_inv F W before (on_watch w pg) o
  /\ now (on_watch w pg) = now pg
  /\ form (on_watch w pg) = form pg
  /\ watchers (on_watch w pg) = watchers pg.
Proof.
  intros (Hwf & Hreg & Htimers & Hloads & Hkey) HF HW.
  destruct (on_watch_spec w pg) as (kept & Hn & Hid & Hp & Hw & Hws & Hf & Hl & Hkept).
  rewrite HW in *.
  destruct Hwf as (H0 & Hids & Hkeys).
  split; [| auto].
  assert (Hne : fieldPath w +:+ "_" +:+ W <> F +:+ "_" +:+ W).
  { intros E. apply append_inj_r in E. contradiction. }
  assert (Hsub : forall tm, tm ∈ kept -> tm ∈ pending pg).
  { apply kept_subset. destruct Hkept as [-> | (t & _ & _ & ->)]; eauto. }
  assert (Hin : forall tm, o = Some tm -> tm ∈ pending pg).
  { intros tm ->.
    assert (Hin : tm ∈ debounce_timers F W pg) by (rewrite Htimers; left).
    apply list_elem_of_filter in Hin as [_ Hin]. exact Hin. }
  assert (Hsame : filter (fun tm => run tm = Debounced F W) kept = option_list o).
  { unfold debounce_timers in Htimers.
    destruct Hkept as [-> | (t & Hk & Ht & ->)]; [exact Htimers |].
    rewrite filter_comm, Htimers.
    destruct o as [tm |]; [| reflexivity].
    destruct (Hkey tm eq_refl) as [_ Hother]. simpl. rewrite filter_cons.
    destruct (decide (id tm <> t)) as [_ | Heq]; [reflexivity |].
    exfalso. apply (Hother _ Hne). rewrite Hk. f_equal.
    destruct (decide (id tm = t)); [congruence | contradiction]. }
  unfold debounce_inv. split; [| split; [| split; [| split]]].
  - unfold well_formed. rewrite Hid, Hp, Hw. split; [lia |]. split.
    + intros tm Hin'. apply elem_of_app in Hin' as [Hin' | Hin'].
      * pose proof (Hids tm (Hsub tm Hin')). lia.
      * apply list_elem_of_singleton in Hin' as ->. simpl. lia.
    + intros k t Hk. apply lookup_insert_Some in Hk as [[_ <-] | [_ Hk]].
      * lia.
      * pose proof (Hkeys k t Hk). lia.
  - unfold registered. rewrite Hws. exact Hreg.
  - unfold debounce_timers. rewrite Hp, filter_app, Hsame. simpl.
    rewrite filter_cons. simpl.
    destruct (decide (Debounced (fieldPath w) W = Debounced F W)) as [E |].
    + injection E as E. contradiction.
    + apply app_nil_r.
  - unfold debounce_loads. rewrite Hl. exact Hloads.
  - intros tm Ho. destruct (Hkey tm Ho) as [Hk Hother]. rewrite Hw. split.
    + rewrite lookup_insert_ne by exact Hne. exact Hk.
    + intros k Hk'. destruct (decide (fieldPath w +:+ "_" +:+ W = k)) as [<- | Hd].
      * rewrite lookup_insert_eq. intros [= E].
        pose proof (Hids tm (Hin tm Ho)). lia.
      * rewrite lookup_insert_ne by exact Hd. apply Hother, Hk'.
Qed.

End WatchSteps.

Section WatchSequences.
Import Js Watch.

Variables F W : string.

Lemma append_inj_l (s a b : string) : s +:+ a = s +:+ b -> a = b.
Proof.
  induction s as [| x s IH]; intros H; [exact H |].
  change (String x (s +:+ a) = String x (s +:+ b)) in H.
  injection H as H. apply IH, H.
Qed.

Lemma watch_loop_armed before ws : forall pg tm,
  debounce_inv F W before pg (Some tm) ->
  due tm = now pg + 1000 ->
  Forall (fun w => watchField w = W) ws ->
  let pg' := fold_left (fun pg w => on_watch w pg) ws pg in
  exists tm',
    debounce_inv F W before pg' (Some tm')
    /\ due tm' = now pg + 1000
    /\ now pg' = now pg /\ form pg' = form pg /\ watchers pg' = watchers pg.
Proof.
  induction ws as [| w ws IH]; intros pg tm Hinv Hdue Hall; simpl.
  - exists tm. auto.
  - apply Forall_cons in Hall as [HW Hall].
    destruct (decide (fieldPath w = F)) as [HF | HF].
    + destruct (on_watch_ours F W before pg _ w Hinv HF HW)
        as (tm1 & Hinv1 & Hdue1 & Hn1 & Hf1 & Hw1).
      destruct (IH (on_watch w pg) tm1 Hinv1) as (tm' & H1 & H2 & H3 & H4 & H5);
        [rewrite Hn1; exact Hdue1 | exact Hall |].
      exists tm'. rewrite Hn1, Hf1, Hw1 in *. auto.
    + destruct (on_watch_other F W before pg _ w Hinv HF HW)
        as (Hinv1 & Hn1 & Hf1 & Hw1).
      destruct (IH (on_watch w pg) tm Hinv1) as (tm' & H1 & H2 & H3 & H4 & H5);
        [rewrite Hn1; exact Hdue | exact Hall |].
      exists tm'. rewrite Hn1, Hf1, Hw1 in *. auto.
Qed.

Lemma watch_loop before ws : forall pg o,
  debounce_inv F W before pg o ->
  Forall (fun w => watchField w = W) ws ->
  Exists (fun w => fieldPath w = F) ws ->
  let pg' := fold_left (fun pg w => on_watch w pg) ws pg in
  exists tm',
    debounce_inv F W before pg' (Some tm')
    /\ due tm' = now pg + 1000
    /\ now pg' = now pg /\ form pg' = form pg /\ watchers pg' = watchers pg.
Proof.
  induction ws as [| w ws IH]; intros pg o Hinv Hall Hex; simpl.
  - inversion Hex.
  - apply Forall_cons in Hall as [HW Hall].
    destruct (decide (fieldPath w = F)) as [HF | HF].
    + destruct (on_watch_ours F W before pg _ w Hinv HF HW)
        as (tm1 & Hinv1 & Hdue1 & Hn1 & Hf1 & Hw1).
      destruct (watch_loop_armed before ws (on_watch w pg) tm1 Hinv1)
        as (tm' & H1 & H2 & H3 & H4 & H5);
        [rewrite Hn1; exact Hdue1 | exact Hall |].
      exists tm'. rewrite Hn1, Hf1, Hw1 in *. auto.
    + destruct (on_watch_other F W before pg _ w Hinv HF HW)
        as (Hinv1 & Hn1 & Hf1 & Hw1).
      apply Exists_cons in Hex as [Hex | Hex]; [contradiction |].
      destruct (IH (on_watch w pg) o Hinv1 Hall Hex) as (tm' & H1 & H2 & H3 & H4 & H5).
      exists tm'. rewrite Hn1, Hf1, Hw1 in *. auto.
Qed.

Lemma set_form_inv before f pg o :
  debounce_inv F W before pg o -> debounce_inv F W before (set_form f pg) o.
Proof. intros H. exact H. Qed.

(** One change to the watched field: afterwards exactly one timer of the
    pair is pending, due 1000 after the change. *)
Lemma on_change_inv before c pg o :
  debounce_inv F W before pg o ->
  (forall tm, o = Some tm -> when c < due tm) ->
  now pg <= when c ->
  where_ c = "root." +:+ W ->
  (exists w, w ∈ watchers pg /\ fieldPath w = F /\ watchField w = W) ->
  exists tm',
    debounce_inv F W before (on_change c pg) (Some tm')
    /\ due tm' = when c + 1000
    /\ now (on_change c pg) = when c
    /\ form (on_change c pg) = form_after c
    /\ watchers (on_change c pg) = watchers pg.
Proof.
  intros Hinv Hlate Hnow Hwhere (w0 & Hw0 & HF0 & HW0).
  destruct (run_until_inv F W before pg o (when c) Hinv Hlate Hnow)
    as (Hinv1 & Hn1 & Hf1 & Hw1).
  apply (set_form_inv before (form_after c)) in Hinv1.
  unfold on_change.
  set (pg1 := set_form (form_after c) (run_until (when c) pg)) in *.
  assert (Hws : watchers pg1 = watchers pg) by exact Hw1.
  assert (Hreg : registered pg1) by apply Hinv1.
  destruct (watch_loop before
              (filter (fun w => path w = where_ c) (watchers pg1)) pg1 o Hinv1)
    as (tm' & H1 & H2 & H3 & H4 & H5).
  - apply Forall_forall. intros w Hin.
    apply list_elem_of_filter in Hin as [Hpath Hin].
    rewrite (Hreg w Hin), Hwhere in Hpath. apply append_inj_l in Hpath. exact Hpath.
  - apply Exists_exists. exists w0. split; [| exact HF0].
    apply list_elem_of_filter. split.
    + rewrite Hwhere, <- HW0. apply Hreg. rewrite Hws. exact Hw0.
    + rewrite Hws. exact Hw0.
  - exists tm'. split; [exact H1 |].
    change (now pg1) with (now (run_until (when c) pg)) in *.
    rewrite Hn1 in *.
    split; [exact H2 |]. split; [exact H3 |]. split.
    + etransitivity; [exact H4 | reflexivity].
    + etransitivity; [exact H5 | exact Hws].
Qed.

Lemma run_changes_inv before cs : forall pg c tm,
  debounce_inv F W before pg (Some tm) ->
  due tm = when c + 1000 -> now pg = when c -> form pg = form_after c ->
  (exists w, w ∈ watchers pg /\ fieldPath w = F /\ watchField w = W) ->
  Forall (fun c' => where_ c' = "root." +:+ W) cs ->
  rapid (when c) cs ->
  let pg' := run_changes cs pg in
  let c_last := default c (last cs) in
  exists tm',
    debounce_inv F W before pg' (Some tm')
    /\ due tm' = when c_last + 1000
    /\ form pg' = form_after c_last.
Proof.
  induction cs as [| c1 cs IH]; intros pg c tm Hinv Hdue Hnow Hform Hw Hall Hrapid.
  - simpl. exists tm. auto.
  - apply Forall_cons in Hall as [Hwhere Hall]. destruct Hrapid as [Hgap Hrapid].
    destruct (on_change_inv before c1 pg (Some tm) Hinv) as (tm1 & H1 & H2 & H3 & H4 & H5).
    + intros tm0 [= <-]. lia.
    + lia.
    + exact Hwhere.
    + exact Hw.
    + destruct (IH (on_change c1 pg) c1 tm1 H1 H2 H3 H4) as (tm' & G1 & G2 & G3).
      * rewrite H5. exact Hw.
      * exact Hall.
      * exact Hrapid.
      * exists tm'. simpl run_changes.
        replace (default c (last (c1 :: cs))) with (default c1 (last cs)).
        -- auto.
        -- rewrite last_cons. destruct (last cs); reflexivity.
Qed.

End WatchSequences.

Section Debounce.
Import Js Watch.

Example setupAsyncField_mounts :
  setupAsyncField "table" Sample.async_tables Sample.fresh_page
  = Normal Sample.mounted_page.
Proof. reflexivity. Qed.

(** The debounce of a registered watch.  Take a page whose timer ids are
    positive and fresh, whose watch
    registry was built by [setupAsyncField] and holds a watch of field
    [F] on [W], and on which no debounce timer of the pair is pending.
    Let the watched field change N >= 1 times, each change less than 1000
    after the one before, and let the clock then run to 1000 or more
    after the last change.  Each change cancels the pair's pending timer
    and schedules a new one, so exactly one reload of the pair is added
    to the log: it fires 1000 after the last change and reads the form
    value of that time, the one left by the last change; and no timer of
    the pair is left pending. *)
Lemma debounce_reloads_once F W pg c cs T :
  well_formed pg ->
  registered pg ->
  debounce_timers F W pg = [] ->
  (exists w, w ∈ watchers pg /\ fieldPath w = F /\ watchField w = W) ->
  Forall (fun c' => where_ c' = "root." +:+ W) (c :: cs) ->
  now pg <= when c ->
  rapid (when c) cs ->
  when (default c (last cs)) + 1000 <= T ->
  debounce_loads F W (run_until T (run_changes (c :: cs) pg))
  = debounce_loads F W pg
    ++ [{| at_time := when (default c (last cs)) + 1000;
           by_callback := Debounced F W;
           parameters := form_after (default c (last cs)) |}]
  /\ debounce_timers F W (run_until T (run_changes (c :: cs) pg)) = [].
Proof.
  intros Hwf Hreg Hnone Hw Hall Hnow Hrapid HT.
  apply Forall_cons in Hall as [Hwhere Hall].
  assert (Hinv : debounce_inv F W (debounce_loads F W pg) pg None).
  { unfold debounce_inv. split; [exact Hwf |]. split; [exact Hreg |].
    split; [exact Hnone |]. split; [reflexivity |].
    intros tm0 Ho. discriminate Ho. }
  destruct (on_change_inv F W _ c pg None Hinv) as (tm1 & H1 & H2 & H3 & H4 & H5);
    [discriminate | exact Hnow | exact Hwhere | exact Hw |].
  destruct (run_changes_inv F W _ cs (on_change c pg) c tm1 H1 H2 H3 H4)
    as (tm' & G1 & G2 & G3);
    [rewrite H5; exact Hw | exact Hall | exact Hrapid |].
  change (run_changes (c :: cs) pg) with (run_changes cs (on_change c pg)).
  destruct (run_until_fires F W _ _ tm' T G1) as [Hloads Htimers]; [lia |].
  rewrite Hloads, G2, G3. split; [reflexivity | exact Htimers].
Qed.

Lemma debounce_reloads_once_witness :
  debounce_loads "table" "base_id"
    (run_until 5000 (run_changes Sample.typing Sample.mounted_page))
  = debounce_loads "table" "base_id" Sample.mounted_page
    ++ [{| at_time := 2200; by_callback := Debounced "table" "base_id";
           parameters := [("base_id", VStr "app")] |}]
  /\ debounce_timers "table" "base_id"
       (run_until 5000 (run_changes Sample.typing Sample.mounted_page)) = [].
Proof.
  apply (debounce_reloads_once "table" "base_id" Sample.mounted_page
           (Sample.keystroke 100 "a")
           [Sample.keystroke 600 "ap"; Sample.keystroke 1200 "app"] 5000).
  - split; [simpl; lia |]. split.
    + intros tm Hin. apply list_elem_of_singleton in Hin as ->. simpl. lia.
    + intros k t Hk. unfold Sample.mounted_page in Hk.
      cbn [watchDebounceTimers] in Hk. rewrite lookup_empty in Hk. discriminate Hk.
  - intros w Hin. apply list_elem_of_singleton in Hin as ->. reflexivity.
  - reflexivity.
  - eexists. split; [left |]. split; reflexivity.
  - repeat constructor.
  - simpl. lia.
  - simpl. lia.
  - simpl. lia.
Defined.

(** The whole log of that run: the mount-time load at 500, which reads
    the first keystroke, and the one debounced reload. *)
Example typing_log :
  loads (run_until 5000 (run_changes Sample.typing Sample.mounted_page))
  = [{| at_time := 500; by_callback := Autoload "table";
        parameters := [("base_id", VStr "a")] |};
     {| at_time := 2200; by_callback := Debounced "table" "base_id";
        parameters := [("base_id", VStr "app")] |}].
Proof. vm_compute. reflexivity. Qed.

(** Changes 1000 or more apart are not one burst: each gets its reload. *)
Example slow_typing_log :
  debounce_loads "table" "base_id"
    (run_until 5000
       (run_changes [Sample.keystroke 100 "a"; Sample.keystroke 1200 "ap"]
                    Sample.mounted_page))
  = [{| at_time := 1100; by_callback := Debounced "table" "base_id";
        parameters := [("base_id", VStr "a")] |};
     {| at_time := 2200; by_callback := Debounced "table" "base_id";
        parameters := [("base_id", VStr "ap")] |}].
Proof. vm_compute. reflexivity. Qed.

End Debounce.

(* ===================================================================== *)
(** ** Auto-discovery *)
(* ===================================================================== *)

Section DiscoveryProperties.
Import Server Discovery.

Variable w : world.

Lemma ancestor_succ (k : nat) (c : string) :
  ancestor w (S k) c = ancestor w k (os_path_dirname w c).
Proof. unfold ancestor. apply Nat.iter_succ_r. Qed.

(** The loop returns the first ancestor, fewer than [budget] levels up,
    that holds a component_config entry, provided no ancestor up to it
    is the root directory. *)
Lemma climb_spec (budget : nat) (c r : string) :
  climb w budget c = Some r <->
  exists k, (k < budget)%nat /\ r = ancestor w k c /\
    (forall j, (j <= k)%nat -> ancestor w j c <> "/") /\
    (forall j, (j < k)%nat ->
       os_path_exists w (os_path_join w (ancestor w j c) "component_config") = false) /\
    os_path_exists w (os_path_join w r "component_config") = true.
Proof.
  revert c. induction budget as [| n IH]; intros c; simpl.
  - split; [discriminate | intros (k & Hk & _); lia].
  - destruct (String.eqb_spec c "/") as [Hroot | Hroot].
    + split; [discriminate |].
      intros (k & _ & _ & Hne & _). exfalso. apply (Hne 0%nat); [lia | exact Hroot].
    + destruct (os_path_exists w (os_path_join w c "component_config")) eqn:Hex.
      * split.
        -- intros [= <-]. exists 0%nat. repeat split; try lia; try assumption.
           ++ intros j Hj. assert (j = 0%nat) as -> by lia. exact Hroot.
        -- intros (k & _ & -> & _ & Hno & Hyes).
           destruct k as [| k]; [reflexivity |].
           specialize (Hno 0%nat ltac:(lia)). simpl in Hno. congruence.
      * rewrite IH. split.
        -- intros (k & Hk & -> & Hne & Hno & Hyes).
           exists (S k). rewrite ancestor_succ. repeat split; try lia; try assumption.
           ++ intros [| j] Hj; [exact Hroot |].
              rewrite ancestor_succ. apply Hne. lia.
           ++ intros [| j] Hj; [exact Hex |].
              rewrite ancestor_succ. apply Hno. lia.
        -- intros (k & Hk & -> & Hne & Hno & Hyes).
           destruct k as [| k]; [simpl in Hyes; congruence |].
           exists k. rewrite ancestor_succ in Hyes. rewrite ancestor_succ.
           repeat split; try lia; try assumption.
           ++ intros j Hj. rewrite <- ancestor_succ. apply Hne. lia.
           ++ intros j Hj. rewrite <- ancestor_succ. apply Hno. lia.
Qed.

Lemma climb_exists (budget : nat) (c r : string) :
  climb w budget c = Some r ->
  os_path_exists w (os_path_join w r "component_config") = true.
Proof. rewrite climb_spec. intros (k & _ & _ & _ & _ & H). exact H. Qed.

Variable p : process.

(** X1.  find_project_root returns a directory exactly when it is the
    nearest ancestor of the start directory (the start itself included)
    that contains component_config, it lies fewer than ten levels up, and
    neither it nor any directory below it on the way is the root
    directory "/": the root directory is never returned, and a project
    ten or more levels up is not found. *)
Theorem find_project_root_nearest_ancestor (start_path : option string) (r : string) :
  find_project_root p w start_path = Some r <->
  exists k, (k < 10)%nat /\
    r = ancestor w k (start_of p w start_path) /\
    (forall j, (j <= k)%nat -> ancestor w j (start_of p w start_path) <> "/") /\
    (forall j, (j < k)%nat ->
       os_path_exists w
         (os_path_join w (ancestor w j (start_of p w start_path)) "component_config")
       = false) /\
    os_path_exists w (os_path_join w r "component_config") = true.
Proof. unfold find_project_root. apply climb_spec. Qed.

(** X2.  Whatever resolve_component_path returns holds a
    component_config entry, when the absolute path of the argument is
    the join of its dirname and basename and a directory exists. *)
Theorem resolve_component_path_has_config (path_arg r : string) :
  os_path_join w (os_path_dirname w (os_path_abspath p path_arg))
                 (os_path_basename w (os_path_abspath p path_arg))
    = os_path_abspath p path_arg ->
  (os_path_isdir w (os_path_abspath p path_arg) = true ->
   os_path_exists w (os_path_abspath p path_arg) = true) ->
  resolve_component_path p w (Some path_arg) = Some r ->
  os_path_exists w (find_component_config w r) = true.
Proof.
  intros Hsplit Hdir. unfold resolve_component_path, find_component_config.
  destruct (String.eqb path_arg EmptyString); [discriminate |].
  destruct (String.eqb_spec (os_path_basename w (os_path_abspath p path_arg))
              "component_config") as [Hbase | Hbase]; simpl.
  - destruct (os_path_isdir w (os_path_abspath p path_arg)) eqn:Hisdir.
    + intros [= <-]. rewrite <- Hbase, Hsplit. auto.
    + destruct (os_path_exists w (os_path_join w (os_path_abspath p path_arg)
                                    "component_config")) eqn:Hex.
      * intros [= <-]. exact Hex.
      * unfold find_project_root. apply climb_exists.
  - destruct (os_path_exists w (os_path_join w (os_path_abspath p path_arg)
                                  "component_config")) eqn:Hex.
    + intros [= <-]. exact Hex.
    + unfold find_project_root. apply climb_exists.
Qed.

End DiscoveryProperties.

Section DiscoveryExamples.
Import Server Discovery Startup.

(** Started without an argument from tools/ui, the tester finds the
    checkout two levels up. *)
Example find_project_root_checkout :
  find_project_root Posix.tester Posix.checkout None = Some "/work/ex-demo".
Proof. reflexivity. Qed.

(** A component_config directly under "/" is not found. *)
Example find_project_root_skips_root :
  find_project_root (Posix.script "/tester.py")
    (Posix.machine ["/"; "/component_config"] [] (Raise Sample.no_module)) None
  = None.
Proof. reflexivity. Qed.

Lemma resolve_component_path_has_config_witness :
  os_path_exists Posix.checkout
    (find_component_config Posix.checkout "/work/ex-demo") = true.
Proof.
  apply (resolve_component_path_has_config Posix.checkout Posix.tester
           "/work/ex-demo/component_config" "/work/ex-demo");
    [reflexivity | reflexivity | reflexivity].
Defined.

End DiscoveryExamples.

(* ===================================================================== *)
(** ** The dispatch view and the files it writes *)
(* ===================================================================== *)

Section DispatchStore.
Import Server.

Variable rt : runtime.

(** The call of the method, as modelled, leaves the files as they are. *)
Lemma dispatch_store comp action fs :
  snd (dispatch rt comp action fs) = fs.
Proof.
  unfold dispatch. destruct action; try reflexivity.
  destruct (find_method comp (possible_names s)) as [m |]; [| reflexivity].
  destruct (negb (attr_truthy m) || negb (attr_callable m)); [reflexivity |].
  unfold call_method, bind. destruct (attr_call m fs) as [[v |] | e]; reflexivity.
Qed.

(** An early [return] of the [try] block is a 500 with a failure body. *)
Lemma prepare_early w data fs r fs' :
  prepare rt w data fs = (Ok (Early r), fs') ->
  status_code r = 500%nat /\
  exists m, body r = VObj [("status", VStr "error"); ("message", VStr m)].
Proof.
  unfold prepare, write_config, join_root, bind, lift, ret, raise.
  destruct (current_root w (req_componentPath data)) as [root |]; [| discriminate].
  destruct (write_fault w (os_path_join w root "data")); [discriminate |].
  destruct (negb (os_path_exists w (os_path_join w root "src"))).
  { intros [= <- <-]. split; [reflexivity | eexists; reflexivity]. }
  destruct (negb (os_path_exists w
              (os_path_join w (os_path_join w root "src") "component.py"))).
  { intros [= <- <-]. split; [reflexivity | eexists; reflexivity]. }
  destruct (import_Component w (os_path_join w root "src")) as [[comp | e] | e];
    try discriminate.
  destruct (is_ImportError e); [| discriminate].
  intros [= <- <-]. split; [reflexivity | eexists; reflexivity].
Qed.

End DispatchStore.

Section DispatchAnswers.
Import Server.

Variable rt : runtime.


(** The answers of [sync_action], by kind. *)
Lemma sync_action_cases w data fs r fs' :
  sync_action rt w data fs = (Responded r, fs') ->
  (status_code r = 200%nat /\
   exists d comp name method,
     data = Ok d /\ req_action d = VStr name /\
     prepare rt w d fs = (Ok (Loaded comp), fs') /\
     find_method comp (possible_names name) = Some method /\
     attr_truthy method = true /\ attr_callable method = true /\
     attr_call method fs' = Ok (PJson (body r)))
  \/ ((status_code r = 400%nat \/ status_code r = 500%nat) /\
      exists m rest,
        body r = VObj (("status", VStr "error") :: ("message", VStr m) :: rest)).
Proof.
  unfold sync_action, sync_action_try, bind, lift.
  destruct data as [d | e]; simpl.
  2:{ destruct (is_Exception e); [| discriminate].
      intros [= <- <-]. right. split; [right; reflexivity |].
      eexists _, _; reflexivity. }
  destruct (prepare rt w d fs) as [[[r0 | comp] | e] fs1] eqn:Hp; simpl.
  - intros [= <- <-]. destruct (prepare_early rt _ _ _ _ _ Hp) as (Hs & m & Hb).
    right. split; [right; exact Hs |]. exists m, []. exact Hb.
  - destruct (dispatch rt comp (req_action d) fs1) as [[r1 | e] fs2] eqn:Hd; simpl.
    + intros [= <- <-].
      pose proof (dispatch_store rt comp (req_action d) fs1) as Hst.
      rewrite Hd in Hst. simpl in Hst. subst fs2.
      unfold dispatch in Hd.
      destruct (req_action d) as [| | | | name | |] eqn:Ha; try discriminate.
      destruct (find_method comp (possible_names name)) as [m |] eqn:Hfind.
      * destruct (attr_truthy m) eqn:Ht, (attr_callable m) eqn:Hc; simpl in Hd;
          try (injection Hd as <-; right; split; [left; reflexivity |];
               eexists _, []; reflexivity).
        unfold call_method, bind, jsonify, ret, raise in Hd.
        destruct (attr_call m fs1) as [[v |] | e] eqn:Hcall; try discriminate.
        injection Hd as <-. left. split; [reflexivity |].
        exists d, comp, name, m. auto 10.
      * injection Hd as <-. right. split; [left; reflexivity |].
        eexists _, []; reflexivity.
    + destruct (is_Exception e); [| discriminate].
      intros [= <- <-]. right. split; [right; reflexivity |].
      eexists _, _; reflexivity.
  - destruct (is_Exception e); [| discriminate].
    intros [= <- <-]. right. split; [right; reflexivity |].
    eexists _, _; reflexivity.
Qed.

(** X4.  Every response of sync_action is of one of two kinds: a 200
    whose body is the value returned by a callable attribute of the
    component found under one of the action's name variants, or a 400 or
    500 whose body starts with status "error" and a message string. *)
Theorem sync_action_answers_result_or_error w data fs r fs' :
  sync_action rt w data fs = (Responded r, fs') ->
  (status_code r = 200%nat /\
   exists d comp name method,
     data = Ok d /\ req_action d = VStr name /\
     prepare rt w d fs = (Ok (Loaded comp), fs') /\
     find_method comp (possible_names name) = Some method /\
     attr_truthy method = true /\ attr_callable method = true /\
     attr_call method fs' = Ok (PJson (body r)))
  \/ ((status_code r = 400%nat \/ status_code r = 500%nat) /\
      exists m rest,
        body r = VObj (("status", VStr "error") :: ("message", VStr m) :: rest)).
Proof. apply sync_action_cases. Qed.


End DispatchAnswers.

Section DispatchExamples.
Import Server.


Lemma sync_action_answers_witness :
  (200%nat = 200%nat /\
   exists d comp name method,
     Ok (Sample.request_of "test_connection") = Ok d /\ req_action d = VStr name /\
     prepare Sample.rt (Sample.world_with (Ok (Ok Sample.unit_snake))) d ∅
       = (Ok (Loaded comp),
          <["/code/data/config.json"
            := VObj [("parameters", VObj [("host", VStr "db")])]]> ∅) /\
     find_method comp (possible_names name) = Some method /\
     attr_truthy method = true /\ attr_callable method = true /\
     attr_call method
       (<["/code/data/config.json"
          := VObj [("parameters", VObj [("host", VStr "db")])]]> ∅)
       = Ok (PJson Sample.success))
  \/ ((200%nat = 400%nat \/ 200%nat = 500%nat) /\
      exists m rest,
        Sample.success
        = VObj (("status", VStr "error") :: ("message", VStr m) :: rest)).
Proof.
  apply (sync_action_answers_result_or_error Sample.rt
           (Sample.world_with (Ok (Ok Sample.unit_snake)))
           (Ok (Sample.request_of "test_connection")) ∅
           {| status_code := 200; body := Sample.success |}
           (<["/code/data/config.json"
              := VObj [("parameters", VObj [("host", VStr "db")])]]> ∅)).
  reflexivity.
Defined.

End DispatchExamples.

(* ===================================================================== *)
(** ** The read-only views *)
(* ===================================================================== *)

Section ViewProperties.
Import Server Discovery Views.

Variable rt : runtime.

(** get_schemas on a state in which a schema is missing does not look at
    the stored values. *)
Lemma get_schemas_falls_back w read s g manual :
  py_truthy (loaded_component_schema s) && py_truthy (loaded_row_schema s) = false ->
  get_schemas w read s g manual = get_schemas w read nothing_uploaded g manual.
Proof. intros H. unfold get_schemas. rewrite H. reflexivity. Qed.

(** X5.  An upload that load_schemas answers with 200 is what get_schemas
    serves from then on, whatever is on disk and whatever path the
    request names. *)
Theorem accepted_upload_is_served g data r g' w read paths manual :
  load_schemas rt g data = (Responded r, g') ->
  status_code r = 200%nat ->
  exists d, data = Ok (VObj d) /\
    get_schemas w read g' paths manual
    = ok (VObj [("componentSchema", dict_get d "componentSchema");
                ("rowSchema", dict_get d "rowSchema")]).
Proof.
  unfold load_schemas. intros H Hs.
  destruct data as [v | e].
  2:{ destruct (is_Exception e); [| discriminate].
      injection H as <- <-. discriminate. }
  destruct v as [| | | | | | d];
    try (simpl in H; injection H as <- <-; discriminate).
  exists d. split; [reflexivity |]. cbn [loaded_component_schema loaded_row_schema] in H.
  destruct (py_truthy (dict_get d "componentSchema")) eqn:Hc;
    destruct (py_truthy (dict_get d "rowSchema")) eqn:Hr; simpl in H;
    injection H as <- <-; try discriminate.
  unfold get_schemas. cbn [loaded_component_schema loaded_row_schema].
  rewrite Hc, Hr. reflexivity.
Qed.

(** X6.  An upload that load_schemas answers with 400 discards an
    earlier accepted upload: from then on get_schemas answers as if
    nothing had ever been uploaded. *)
Theorem rejected_upload_discards_the_earlier_one g data r g' w read paths manual :
  load_schemas rt g data = (Responded r, g') ->
  status_code r = 400%nat ->
  get_schemas w read g' paths manual
  = get_schemas w read nothing_uploaded paths manual.
Proof.
  unfold load_schemas. intros H Hs.
  destruct data as [v | e].
  2:{ destruct (is_Exception e); [| discriminate].
      injection H as <- <-. discriminate. }
  destruct v as [| | | | | | d];
    try (simpl in H; injection H as <- <-; discriminate).
  cbn [loaded_component_schema loaded_row_schema] in H.
  destruct (py_truthy (dict_get d "componentSchema")) eqn:Hc;
    destruct (py_truthy (dict_get d "rowSchema")) eqn:Hr; simpl in H;
    injection H as <- <-; try discriminate;
    apply get_schemas_falls_back; cbn [loaded_component_schema loaded_row_schema];
    rewrite Hc, Hr; reflexivity.
Qed.


(** X8.  What write_config wrote, get_config reads back: asked for the
    file that find_config_json finds under the same project root, it
    answers the parameters that were written under "parameters" (as long
    as nothing else has written to the file since). *)
Theorem written_config_is_read_back w w' root parameters fs g manual missing :
  write_fault w (os_path_join w root "data") = None ->
  os_path_join w' = os_path_join w ->
  os_path_exists w' (os_path_join w (os_path_join w root "data") "config.json")
    = true ->
  os_path_join w (os_path_join w root "data") "config.json" <> EmptyString ->
  path_or manual (config_json_path g) = find_config_json w' root ->
  get_config w'
    (read_store missing (snd (write_config rt w (Some root) parameters fs)))
    g manual
  = ok parameters.
Proof.
  intros Hw Hjoin Hex Hne Hpath.
  unfold get_config. rewrite Hpath. unfold find_config_json.
  rewrite Hjoin, Hex, Hex.
  destruct (String.eqb_spec
              (os_path_join w (os_path_join w root "data") "config.json")
              EmptyString) as [He | _]; [contradiction |].
  unfold write_config, join_root, bind, ret. cbn [fst snd]. rewrite Hw.
  cbn [negb andb snd]. unfold read_store. rewrite lookup_insert_eq. reflexivity.
Qed.

End ViewProperties.

Section ViewExamples.
Import Server Discovery Views.

Lemma accepted_upload_is_served_witness :
  exists d,
    Ok (VObj [("componentSchema", VObj [("type", VStr "object")]);
              ("rowSchema", VObj [("type", VStr "object")])]) = Ok (VObj d) /\
    get_schemas Posix.checkout (fun _ => Raise Posix.file_not_found)
      {| loaded_component_schema := VObj [("type", VStr "object")];
         loaded_row_schema := VObj [("type", VStr "object")];
         loaded_component_name := VStr "Unknown" |}
      {| component_config_path := None; config_json_path := None |}
      (Some "/nowhere")
    = ok (VObj [("componentSchema", dict_get d "componentSchema");
                ("rowSchema", dict_get d "rowSchema")]).
Proof.
  apply (accepted_upload_is_served Sample.rt nothing_uploaded
           (Ok (VObj [("componentSchema", VObj [("type", VStr "object")]);
                      ("rowSchema", VObj [("type", VStr "object")])]))
           {| status_code := 200;
              body := VObj [("status", VStr "success");
                            ("message", VStr "Schemas loaded for Unknown")] |});
    reflexivity.
Defined.

Lemma rejected_upload_discards_witness :
  get_schemas Posix.checkout (fun _ => Raise Posix.file_not_found)
    {| loaded_component_schema := VObj [("type", VStr "object")];
       loaded_row_schema := VNull;
       loaded_component_name := VStr "Unknown" |}
    {| component_config_path := None; config_json_path := None |} None
  = get_schemas Posix.checkout (fun _ => Raise Posix.file_not_found)
      nothing_uploaded
      {| component_config_path := None; config_json_path := None |} None.
Proof.
  apply (rejected_upload_discards_the_earlier_one Sample.rt Sample.stored
           (Ok (VObj [("componentSchema", VObj [("type", VStr "object")])]))
           {| status_code := 400;
              body := VObj [("error", VStr "Missing componentSchema or rowSchema")] |});
    reflexivity.
Defined.


Lemma written_config_is_read_back_witness :
  get_config (Sample.world_with (Ok (Ok Sample.unit_snake)))
    (read_store Posix.file_not_found
       (snd (write_config Sample.rt (Sample.world_with (Ok (Ok Sample.unit_snake)))
               (Some "/code") (VObj [("host", VStr "db")]) ∅)))
    {| component_config_path := None;
       config_json_path := Some "/code/data/config.json" |} None
  = ok (VObj [("host", VStr "db")]).
Proof.
  apply (written_config_is_read_back Sample.rt
           (Sample.world_with (Ok (Ok Sample.unit_snake)))
           (Sample.world_with (Ok (Ok Sample.unit_snake)))
           "/code" (VObj [("host", VStr "db")]) ∅);
    [reflexivity | reflexivity | reflexivity | discriminate | reflexivity].
Defined.

End ViewExamples.

(* ===================================================================== *)
(** ** Startup *)
(* ===================================================================== *)

Section StartupProperties.
Import Server Discovery Views Startup.

Variable p : process.

Lemma nonempty_some o s : nonempty o = Some s -> o = Some s /\ s <> EmptyString.
Proof.
  destruct o as [s' |]; simpl; [| discriminate].
  destruct (String.eqb_spec s' EmptyString); [discriminate |].
  intros [= <-]. auto.
Qed.

(** What a start that reaches [app.run] has established. *)
Lemma main_serving w args_path w0 g :
  main p w args_path = Serving w0 g ->
  exists r,
    (match nonempty args_path with
     | Some a => resolve_component_path p w (Some a)
     | None => find_project_root p w None
     end) = Some r /\
    project_root w0 = Some r /\
    os_path_join w0 = os_path_join w /\
    os_path_exists w0 = os_path_exists w /\
    component_config_path g = Some (os_path_join w r "component_config") /\
    config_json_path g = find_config_json w r /\
    os_path_exists w (os_path_join w (os_path_join w r "component_config")
                        "configSchema.json") = true /\
    os_path_exists w (os_path_join w (os_path_join w r "component_config")
                        "configRowSchema.json") = true.
Proof.
  unfold main.
  generalize (match nonempty args_path with
              | Some a => resolve_component_path p w (Some a)
              | None => find_project_root p w None
              end) as root.
  intros root. destruct (nonempty root) as [r |] eqn:Hr; [| discriminate].
  apply nonempty_some in Hr as [Hr _].
  unfold find_component_config.
  destruct (os_path_exists w (os_path_join w (os_path_join w r "component_config")
                                "configSchema.json")) eqn:H1; [| discriminate].
  destruct (os_path_exists w (os_path_join w (os_path_join w r "component_config")
                                "configRowSchema.json")) eqn:H2; [| discriminate].
  simpl. intros [= <- <-]. exists r. simpl. auto 10.
Qed.

(** X9.  The path of config.json is fixed at startup.  If the file is
    absent then, get_config without a path argument (as the page calls
    it) answers {} for as long as the server runs, whatever is written
    to the file later, by sync_action or otherwise. *)
Theorem config_absent_at_startup_is_never_served w args_path w0 g r :
  main p w args_path = Serving w0 g ->
  project_root w0 = Some r ->
  os_path_exists w (os_path_join w (os_path_join w r "data") "config.json") = false ->
  forall w' read, get_config w' read g None = ok (VObj []).
Proof.
  intros Hmain Hroot Hex w' read.
  destruct (main_serving _ _ _ _ Hmain) as (r' & _ & Hr' & _ & _ & _ & Hcj & _).
  assert (r' = r) as -> by congruence.
  unfold get_config, path_or. rewrite Hcj. unfold find_config_json.
  rewrite Hex. reflexivity.
Qed.

(** X10.  A start that reaches the server has a project root whose
    component_config folder holds both schema files, and get_schemas
    (nothing uploaded, no path argument) serves exactly those two files:
    it never answers 404. *)
Theorem started_server_serves_the_checked_schemas w args_path w0 g read cs rs r :
  main p w args_path = Serving w0 g ->
  project_root w0 = Some r ->
  (os_path_exists w (os_path_join w (os_path_join w r "component_config")
                       "configSchema.json") = true ->
   os_path_exists w (os_path_join w r "component_config") = true) ->
  os_path_join w r "component_config" <> EmptyString ->
  read (os_path_join w (os_path_join w r "component_config") "configSchema.json")
    = Ok cs ->
  read (os_path_join w (os_path_join w r "component_config") "configRowSchema.json")
    = Ok rs ->
  get_schemas w0 read nothing_uploaded g None
  = ok (VObj [("componentSchema", cs); ("rowSchema", rs)]).
Proof.
  intros Hmain Hroot Hlaw Hne Hcs Hrs.
  destruct (main_serving _ _ _ _ Hmain)
    as (r' & _ & Hr' & Hj & He & Hcc & _ & H1 & _).
  assert (r' = r) as -> by congruence.
  specialize (Hlaw H1).
  unfold get_schemas, path_or. simpl. rewrite Hcc, He, Hj, Hlaw.
  destruct (String.eqb_spec (os_path_join w r "component_config") EmptyString);
    [contradiction |].
  simpl. rewrite Hcs, Hrs. reflexivity.
Qed.

End StartupProperties.

Section StartupExamples.
Import Server Discovery Views Startup.

Lemma config_absent_at_startup_witness :
  get_config Posix.checkout (read_store Posix.file_not_found ∅)
    {| component_config_path := Some "/work/ex-demo/component_config";
       config_json_path := None |} None
  = ok (VObj []).
Proof.
  refine (config_absent_at_startup_is_never_served Posix.tester Posix.checkout None
           _ _ "/work/ex-demo" _ _ _ Posix.checkout
           (read_store Posix.file_not_found ∅)); reflexivity.
Defined.

Lemma started_server_serves_witness :
  get_schemas
    (match main Posix.tester Posix.checkout None with
     | Serving w0 _ => w0
     | Exit _ => Posix.checkout
     end)
    (fun _ => Ok (VObj [("type", VStr "object")])) nothing_uploaded
    {| component_config_path := Some "/work/ex-demo/component_config";
       config_json_path := None |} None
  = ok (VObj [("componentSchema", VObj [("type", VStr "object")]);
              ("rowSchema", VObj [("type", VStr "object")])]).
Proof.
  refine (started_server_serves_the_checked_schemas Posix.tester Posix.checkout None
            _ _ (fun _ => Ok (VObj [("type", VStr "object")])) _ _ "/work/ex-demo"
            _ _ _ _ _ _);
    [reflexivity | reflexivity | reflexivity | discriminate
    | reflexivity | reflexivity].
Defined.

End StartupExamples.

(* ===================================================================== *)
(** ** Name variants *)
(* ===================================================================== *)

Section Characters.

Lemma upper_not_lower c : is_upper c = true -> is_lower c = false.
Proof. destruct c as [[] [] [] [] [] [] [] []]; vm_compute; congruence. Qed.

Lemma upper_not_digit c : is_upper c = true -> is_digit c = false.
Proof. destruct c as [[] [] [] [] [] [] [] []]; vm_compute; congruence. Qed.

Lemma lower_not_upper c : is_lower c = true -> is_upper c = false.
Proof. destruct c as [[] [] [] [] [] [] [] []]; vm_compute; congruence. Qed.

Lemma digit_not_upper c : is_digit c = true -> is_upper c = false.
Proof. destruct c as [[] [] [] [] [] [] [] []]; vm_compute; congruence. Qed.

Lemma to_lower_fixes c : is_upper c = false -> to_lower c = c.
Proof. unfold to_lower. intros ->. reflexivity. Qed.

Lemma to_lower_not_upper c : is_upper (to_lower c) = false.
Proof. destruct c as [[] [] [] [] [] [] [] []]; vm_compute; reflexivity. Qed.

Lemma to_upper_is_upper c : is_lower c = true -> is_upper (to_upper c) = true.
Proof. destruct c as [[] [] [] [] [] [] [] []]; vm_compute; congruence. Qed.

Lemma to_lower_to_upper c : is_lower c = true -> to_lower (to_upper c) = c.
Proof. destruct c as [[] [] [] [] [] [] [] []]; vm_compute; congruence. Qed.

Lemma not_upper_fixes c : is_lower c || is_digit c = true -> is_upper c = false.
Proof.
  intros [H | H]%orb_true_iff; [apply lower_not_upper | apply digit_not_upper]; exact H.
Qed.

Lemma not_hyphen c : is_lower c || is_digit c = true -> Ascii.eqb c "-" = false.
Proof. destruct c as [[] [] [] [] [] [] [] []]; vm_compute; congruence. Qed.

End Characters.

Section Underscores.
Import Server Names.

Lemma underscored_refl t : underscored t t.
Proof. induction t; constructor; assumption. Qed.

(** The first pass puts its underscores before upper-case letters. *)
Lemma sub_word_underscored m t : underscored t (sub_word m t).
Proof.
  revert m. induction t as [| c tl IH]; intros m; [constructor |].
  assert (Hcopy : forall m', underscored (String c tl) (String c (sub_word m' tl))).
  { intros m'. constructor. apply IH. }
  assert (Hmatch : underscored (String c tl)
    match tl with
    | String u (String l _) =>
        if negb (is_newline c) && is_upper u && is_lower l
        then String c (String "_" (sub_word Upper tl))
        else String c (sub_word Scan tl)
    | _ => String c (sub_word Scan tl)
    end).
  { destruct tl as [| u [| l rest]]; try apply Hcopy.
    destruct (negb (is_newline c) && is_upper u && is_lower l) eqn:Hm;
      [| apply Hcopy].
    apply andb_prop in Hm as [[_ Hu]%andb_prop _].
    constructor. specialize (IH Upper).
    change (sub_word Upper (String u (String l rest)))
      with (String u (sub_word Run (String l rest))) in *.
    inversion IH; subst.
    - constructor; assumption.
    - discriminate. }
  destruct m; cbn [sub_word].
  - exact Hmatch.
  - apply Hcopy.
  - destruct (is_lower c); [apply Hcopy | exact Hmatch].
Qed.

(** On a capital, the second pass does the same whether it copies it as
    the end of a match or scans it. *)
Lemma sub_hump_copy u tl :
  is_lower u || is_digit u = false ->
  sub_hump true (String u tl) = sub_hump false (String u tl).
Proof.
  intros Hu. cbn [sub_hump]. rewrite Hu. destruct tl; reflexivity.
Qed.

Lemma upper_no_match u : is_upper u = true -> is_lower u || is_digit u = false.
Proof. intros H. rewrite (upper_not_lower _ H), (upper_not_digit _ H). reflexivity. Qed.

(** The second pass adds underscores before upper-case letters that have
    none yet. *)
Lemma sub_hump_underscored t s :
  underscored t s -> underscored t (sub_hump false s).
Proof.
  induction 1 as [| c t s H IH | u t s Hu H IH].
  - constructor.
  - cbn [sub_hump]. destruct s as [| u s']; [inversion H; constructor; constructor |].
    destruct ((is_lower c || is_digit c) && is_upper u) eqn:Hm.
    + apply andb_prop in Hm as [_ Hu].
      rewrite (sub_hump_copy _ _ (upper_no_match _ Hu)).
      constructor.
      assert (Hhead : sub_hump false (String u s') = String u (sub_hump false s')).
      { cbn [sub_hump]. rewrite (upper_no_match _ Hu). destruct s'; reflexivity. }
      rewrite Hhead in IH |- *.
      inversion IH; subst.
      * constructor; assumption.
      * discriminate.
    + constructor. exact IH.
  - change (sub_hump false (String "_" (String u s)))
      with (String "_"%char (sub_hump false (String u s))).
    assert (Hhead : sub_hump false (String u s) = String u (sub_hump false s)).
    { cbn [sub_hump]. rewrite (upper_no_match _ Hu). destruct s; reflexivity. }
    rewrite Hhead. constructor; assumption.
Qed.

Lemma underscored_no_upper t s :
  no_upper t = true -> underscored t s -> s = t.
Proof.
  intros Ht H. induction H as [| c t s H IH | u t s Hu H IH]; simpl in Ht.
  - reflexivity.
  - apply andb_prop in Ht as [_ Ht]. rewrite (IH Ht). reflexivity.
  - rewrite Hu in Ht. discriminate.
Qed.

Lemma to_lower_no_upper s : no_upper s = true -> string_map to_lower s = s.
Proof.
  induction s as [| c s IH]; simpl; [reflexivity |].
  intros [Hc Hs]%andb_prop. apply negb_true_iff in Hc.
  rewrite (to_lower_fixes _ Hc), (IH Hs). reflexivity.
Qed.

Lemma no_upper_to_lower s : no_upper (string_map to_lower s) = true.
Proof.
  induction s as [| c s IH]; simpl; [reflexivity |].
  rewrite to_lower_not_upper, IH. reflexivity.
Qed.

Lemma camel_to_snake_underscored name :
  underscored name (sub_hump false (sub_word Scan name)).
Proof. apply sub_hump_underscored, sub_word_underscored. Qed.

Lemma camel_to_snake_fixes name :
  no_upper name = true -> camel_to_snake name = name.
Proof.
  intros H. unfold camel_to_snake.
  rewrite (underscored_no_upper _ _ H (camel_to_snake_underscored name)).
  apply to_lower_no_upper, H.
Qed.

(** X11.  camel_to_snake drops and reorders nothing: its result is the
    name with an underscore put directly before some of its upper-case
    letters (at most one before each), lower-cased. *)
Theorem camel_to_snake_only_inserts_underscores (name : string) :
  exists s, underscored name s /\ camel_to_snake name = string_map to_lower s.
Proof.
  exists (sub_hump false (sub_word Scan name)).
  split; [apply camel_to_snake_underscored | reflexivity].
Qed.

(** X12.  A name without upper-case letters (a snake_case or kebab-case
    action) is its own snake variant, so that the literal and the snake
    variant tried by the dispatcher coincide. *)
Theorem camel_to_snake_keeps_lower_case_names (name : string) :
  no_upper name = true ->
  camel_to_snake name = name /\
  possible_names name = [name; name; replace_hyphen name].
Proof.
  intros H. unfold possible_names. rewrite (camel_to_snake_fixes _ H). auto.
Qed.

(** X13.  camel_to_snake is idempotent: the snake variant of a snake
    variant is itself. *)
Theorem camel_to_snake_idempotent (name : string) :
  camel_to_snake (camel_to_snake name) = camel_to_snake name.
Proof.
  apply camel_to_snake_fixes. unfold camel_to_snake. apply no_upper_to_lower.
Qed.

End Underscores.

Section Kebab.
Import Server Names Normalizer.

Lemma underscored_head_inv c t s :
  is_upper c = false ->
  underscored (String c t) s -> exists s', s = String c s' /\ underscored t s'.
Proof.
  intros Hc H. inversion H; subst.
  - eauto.
  - congruence.
Qed.

Lemma underscored_upper_inv u t s :
  underscored (String u t) s ->
  exists s', underscored t s' /\
    (s = String u s' \/ s = String "_" (String u s')).
Proof. intros H. inversion H; subst; eauto. Qed.

Lemma sub_hump_step p c s :
  is_upper c = false ->
  sub_hump false (String p (String c s)) = String p (sub_hump false (String c s)).
Proof.
  intros Hc. cbn [sub_hump]. rewrite Hc, andb_false_r. reflexivity.
Qed.

Lemma sub_hump_insert p u s :
  is_lower p || is_digit p = true -> is_upper u = true ->
  sub_hump false (String p (String u s))
  = String p (String "_" (String u (sub_hump false s))).
Proof.
  intros Hp Hu.
  change (sub_hump false (String p (String u s)))
    with (if (is_lower p || is_digit p) && is_upper u
          then String p (String "_" (sub_hump true (String u s)))
          else String p (sub_hump false (String u s))).
  rewrite Hp, Hu. cbn [andb].
  rewrite (sub_hump_copy _ _ (upper_no_match _ Hu)).
  cbn [sub_hump]. rewrite (upper_no_match _ Hu). destruct s; reflexivity.
Qed.

Lemma sub_hump_upper u s :
  is_upper u = true ->
  sub_hump false (String u s) = String u (sub_hump false s).
Proof.
  intros Hu. cbn [sub_hump]. rewrite (upper_no_match _ Hu). destruct s; reflexivity.
Qed.

Lemma camelize_plain c tl :
  Ascii.eqb c "-" = false -> camelize (String c tl) = String c (camelize tl).
Proof. intros Hc. cbn [camelize]. rewrite Hc. destruct tl; reflexivity. Qed.

Lemma camelize_hyphen l rest :
  is_lower l = true ->
  camelize (String "-" (String l rest)) = String (to_upper l) (camelize rest).
Proof. intros Hl. cbn [camelize]. rewrite Hl. reflexivity. Qed.

Lemma replace_hyphen_plain c tl :
  Ascii.eqb c "-" = false ->
  replace_hyphen (String c tl) = String c (replace_hyphen tl).
Proof. intros Hc. unfold replace_hyphen. cbn [string_map]. rewrite Hc. reflexivity. Qed.

(** The second pass and the lower-casing, on the camel-case form of the
    rest of a kebab-case name, whatever underscores the first pass put. *)
Lemma kebab_tail_snake n : forall s p s1,
  (String.length s <= n)%nat ->
  kebab_tail s = true ->
  is_lower p || is_digit p = true ->
  underscored (camelize s) s1 ->
  string_map to_lower (sub_hump false (String p s1)) = String p (replace_hyphen s).
Proof.
  induction n as [| n IH]; intros s p s1 Hlen Hk Hp Hu.
  - destruct s; [| simpl in Hlen; lia].
    inversion Hu; subst. cbn. rewrite (to_lower_fixes _ (not_upper_fixes _ Hp)).
    reflexivity.
  - destruct s as [| c tl].
    { inversion Hu; subst. cbn. rewrite (to_lower_fixes _ (not_upper_fixes _ Hp)).
      reflexivity. }
    cbn [kebab_tail] in Hk. destruct (Ascii.eqb_spec c "-") as [-> | Hc].
    + destruct tl as [| l [| c2 rest]]; [discriminate | |].
      * (* a last segment of one letter *)
        rewrite (camelize_hyphen _ _ Hk) in Hu. cbn [camelize] in Hu.
        assert (Htarget : replace_hyphen (String "-" (String l EmptyString))
                          = String "_" (String l EmptyString)).
        { unfold replace_hyphen. cbn [string_map].
          rewrite (not_hyphen l) by (rewrite Hk; reflexivity). reflexivity. }
        rewrite Htarget.
        apply underscored_upper_inv in Hu as (s' & Hs' & [-> | ->]);
          inversion Hs'; subst.
        -- rewrite (sub_hump_insert _ _ _ Hp (to_upper_is_upper _ Hk)).
           cbn [string_map sub_hump].
           rewrite (to_lower_fixes _ (not_upper_fixes _ Hp)),
                   (to_lower_to_upper _ Hk). reflexivity.
        -- rewrite (sub_hump_step p "_" _ eq_refl).
           change (sub_hump false (String "_" (String (to_upper l) EmptyString)))
             with (String "_"%char (sub_hump false (String (to_upper l) EmptyString))).
           cbn [string_map sub_hump].
           rewrite (to_lower_fixes _ (not_upper_fixes _ Hp)),
                   (to_lower_to_upper _ Hk). reflexivity.
      * apply andb_prop in Hk as [[Hl Hc2]%andb_prop Hrest].
        rewrite (camelize_hyphen _ _ Hl) in Hu.
        rewrite (camelize_plain _ _ (not_hyphen _ Hc2)) in Hu.
        apply underscored_upper_inv in Hu as (s' & Hs' & Hs1).
        apply (underscored_head_inv _ _ _ (not_upper_fixes _ Hc2)) in Hs'
          as (s'' & -> & Hs'').
        assert (IHrest : string_map to_lower (sub_hump false (String c2 s''))
                         = String c2 (replace_hyphen rest)).
        { apply IH; try assumption. simpl in Hlen. lia. }
        assert (Htarget : replace_hyphen (String "-" (String l (String c2 rest)))
                          = String "_" (String l (String c2 (replace_hyphen rest)))).
        { unfold replace_hyphen. cbn [string_map].
          rewrite (not_hyphen l) by (rewrite Hl; reflexivity).
          rewrite (not_hyphen _ Hc2). reflexivity. }
        rewrite Htarget.
        destruct Hs1 as [-> | ->].
        -- rewrite (sub_hump_insert _ _ _ Hp (to_upper_is_upper _ Hl)).
           cbn [string_map]. rewrite IHrest.
           rewrite (to_lower_fixes _ (not_upper_fixes _ Hp)),
                   (to_lower_to_upper _ Hl). reflexivity.
        -- rewrite (sub_hump_step p "_" _ eq_refl).
           change (sub_hump false (String "_" (String (to_upper l) (String c2 s''))))
             with (String "_"%char
                     (sub_hump false (String (to_upper l) (String c2 s'')))).
           rewrite (sub_hump_upper _ _ (to_upper_is_upper _ Hl)).
           cbn [string_map]. rewrite IHrest.
           rewrite (to_lower_fixes _ (not_upper_fixes _ Hp)),
                   (to_lower_to_upper _ Hl). reflexivity.
    + apply Ascii.eqb_neq in Hc. apply andb_prop in Hk as [Hcl Htl].
      rewrite (camelize_plain _ _ Hc) in Hu.
      apply (underscored_head_inv _ _ _ (not_upper_fixes _ Hcl)) in Hu
        as (s' & -> & Hs').
      rewrite (sub_hump_step _ _ _ (not_upper_fixes _ Hcl)).
      cbn [string_map]. rewrite (IH tl c s'); try assumption; [| simpl in Hlen; lia].
      rewrite (to_lower_fixes _ (not_upper_fixes _ Hp)), (replace_hyphen_plain _ _ Hc).
      reflexivity.
Qed.

(** A kebab-case name that does not start with a hyphen starts with a
    lower-case letter or digit. *)
Lemma kebab_head c tl :
  kebab (String c tl) = true ->
  is_lower c || is_digit c = true /\ kebab_tail tl = true.
Proof.
  unfold kebab. intros [Hc Hk]%andb_prop. apply negb_true_iff in Hc.
  cbn [kebab_tail] in Hk. rewrite Hc in Hk. apply andb_prop in Hk. exact Hk.
Qed.

Lemma kebab_snake (format : string) :
  kebab format = true ->
  camel_to_snake (camelize format) = replace_hyphen format.
Proof.
  destruct format as [| c tl]; [reflexivity |].
  intros [Hc Htl]%kebab_head.
  rewrite (camelize_plain _ _ (not_hyphen _ Hc)), (replace_hyphen_plain _ _ (not_hyphen _ Hc)).
  unfold camel_to_snake.
  pose proof (sub_word_underscored Scan (String c (camelize tl))) as Hu.
  apply (underscored_head_inv _ _ _ (not_upper_fixes _ Hc)) in Hu as (s' & -> & Hs').
  apply (kebab_tail_snake (String.length tl)); auto.
Qed.

(** X14.  The action the page derives from a kebab-case button format
    (camelize) has, as its snake variant on the server, the format with
    its hyphens replaced by underscores: "test-connection" becomes
    "testConnection" on the page and "test_connection" in the
    dispatcher. *)
Theorem kebab_format_reaches_snake_method (format : string) :
  kebab format = true ->
  camel_to_snake (camelize format) = replace_hyphen format /\
  possible_names (camelize format)
  = [camelize format; replace_hyphen format; replace_hyphen (camelize format)].
Proof.
  intros H. unfold possible_names. rewrite (kebab_snake _ H). auto.
Qed.

End Kebab.

Section NameExamples.
Import Server Names Normalizer.

Lemma camel_to_snake_keeps_lower_case_witness :
  camel_to_snake "list_tables" = "list_tables" /\
  possible_names "list_tables" = ["list_tables"; "list_tables"; "list_tables"].
Proof.
  apply (camel_to_snake_keeps_lower_case_names "list_tables"). reflexivity.
Defined.

Lemma kebab_format_reaches_snake_witness :
  camel_to_snake (camelize "test-connection") = replace_hyphen "test-connection" /\
  possible_names (camelize "test-connection")
  = [camelize "test-connection"; replace_hyphen "test-connection";
     replace_hyphen (camelize "test-connection")].
Proof.
  apply (kebab_format_reaches_snake_method "test-connection"). reflexivity.
Defined.

(** Segments of one letter are where the two spellings part. *)
Example single_letter_segments_part :
  camel_to_snake (camelize "a-b-c") = "a_bc" /\ replace_hyphen "a-b-c" = "a_b_c".
Proof. split; reflexivity. Qed.

End NameExamples.

(* ===================================================================== *)
(** ** Spreads *)
(* ===================================================================== *)

Section Spreads.

Lemma obj_set_fresh o k v :
  k ∉ Object_keys o -> obj_set o k v = o ++ [(k, v)].
Proof.
  unfold Object_keys. induction o as [| [k0 v0] o IH]; simpl; intros Hk.
  - reflexivity.
  - apply not_elem_of_cons in Hk as [Hne Hk].
    destruct (String.eqb_spec k0 k) as [-> | _]; [contradiction |].
    rewrite (IH Hk). reflexivity.
Qed.

Lemma obj_set_app_l o n k v :
  k ∈ Object_keys o -> obj_set (o ++ n) k v = obj_set o k v ++ n.
Proof.
  unfold Object_keys. induction o as [| [k0 v0] o IH]; simpl; intros Hk.
  - inversion Hk.
  - destruct (String.eqb_spec k0 k) as [-> | Hne]; [reflexivity |].
    apply elem_of_cons in Hk as [-> | Hk]; [contradiction |].
    simpl. rewrite (IH Hk). reflexivity.
Qed.

Lemma obj_set_app_r o n k v :
  k ∉ Object_keys o -> obj_set (o ++ n) k v = o ++ obj_set n k v.
Proof.
  unfold Object_keys. induction o as [| [k0 v0] o IH]; simpl; intros Hk.
  - reflexivity.
  - apply not_elem_of_cons in Hk as [Hne Hk].
    destruct (String.eqb_spec k0 k) as [-> | _]; [contradiction |].
    rewrite (IH Hk). reflexivity.
Qed.

Lemma obj_set_keys o k v :
  k ∈ Object_keys o -> Object_keys (obj_set o k v) = Object_keys o.
Proof.
  unfold Object_keys. induction o as [| [k0 v0] o IH]; simpl; intros Hk.
  - inversion Hk.
  - destruct (String.eqb_spec k0 k) as [-> | Hne]; [reflexivity |].
    apply elem_of_cons in Hk as [-> | Hk]; [contradiction |].
    simpl. rewrite (IH Hk). reflexivity.
Qed.

(** A spread keeps the keys of its first operand in place and appends
    the new keys of the second. *)
Lemma spread_shape a b :
  NoDup (Object_keys a) ->
  exists a' n, spread a b = a' ++ n /\ Object_keys a' = Object_keys a
               /\ NoDup (Object_keys (a' ++ n)).
Proof.
  unfold spread. intros Hnd.
  assert (Hgen : forall b a' n,
    Object_keys a' = Object_keys a -> NoDup (Object_keys (a' ++ n)) ->
    exists a'' n', fold_left (fun acc kv => obj_set acc kv.1 kv.2) b (a' ++ n)
                   = a'' ++ n'
                   /\ Object_keys a'' = Object_keys a
                   /\ NoDup (Object_keys (a'' ++ n'))).
  { clear b. induction b as [| [k v] b IH]; intros a' n Hk Hn; simpl.
    - eauto.
    - destruct (decide (k ∈ Object_keys a')) as [Hin | Hout].
      + rewrite (obj_set_app_l _ _ _ _ Hin). apply IH.
        * rewrite (obj_set_keys _ _ _ Hin). exact Hk.
        * rewrite <- (obj_set_app_l _ _ _ _ Hin). apply obj_set_keys_NoDup, Hn.
      + rewrite (obj_set_app_r _ _ _ _ Hout). apply IH; [exact Hk |].
        rewrite <- (obj_set_app_r _ _ _ _ Hout). apply obj_set_keys_NoDup, Hn. }
  specialize (Hgen b a [] eq_refl). rewrite app_nil_r in Hgen.
  apply Hgen, Hnd.
Qed.

Lemma spread_overwrite pre c1 : forall a1,
  Object_keys c1 = Object_keys a1 ->
  NoDup (Object_keys (pre ++ c1)) ->
  fold_left (fun acc kv => obj_set acc kv.1 kv.2) c1 (pre ++ a1) = pre ++ c1.
Proof.
  revert pre. induction c1 as [| [k v] c1 IH]; intros pre a1 Hk Hnd.
  - destruct a1; [reflexivity | discriminate].
  - destruct a1 as [| [k0 v0] a1]; [discriminate |].
    unfold Object_keys in Hk. simpl in Hk. injection Hk as <- Hk.
    unfold Object_keys in Hnd. rewrite map_app in Hnd.
    assert (Hpre : k ∉ Object_keys pre).
    { apply NoDup_app in Hnd as (_ & Hdis & _). intros Hin.
      apply (Hdis _ Hin). simpl. left. }
    simpl. rewrite (obj_set_app_r _ _ _ _ Hpre). simpl. rewrite String.eqb_refl.
    replace (pre ++ (k, v) :: a1) with ((pre ++ [(k, v)]) ++ a1)
      by (rewrite <- app_assoc; reflexivity).
    replace (pre ++ (k, v) :: c1) with ((pre ++ [(k, v)]) ++ c1)
      by (rewrite <- app_assoc; reflexivity).
    apply IH; [exact Hk |].
    unfold Object_keys. rewrite <- app_assoc, map_app. exact Hnd.
Qed.

Lemma spread_append n : forall st,
  NoDup (Object_keys (st ++ n)) ->
  fold_left (fun acc kv => obj_set acc kv.1 kv.2) n st = st ++ n.
Proof.
  induction n as [| [k v] n IH]; intros st Hnd; simpl.
  - rewrite app_nil_r. reflexivity.
  - assert (Hst : k ∉ Object_keys st).
    { unfold Object_keys in Hnd. rewrite map_app in Hnd.
      apply NoDup_app in Hnd as (_ & Hdis & _). intros Hin.
      apply (Hdis _ Hin). simpl. left. }
    rewrite (obj_set_fresh _ _ _ Hst).
    replace (st ++ (k, v) :: n) with ((st ++ [(k, v)]) ++ n)
      by (rewrite <- app_assoc; reflexivity).
    apply IH. rewrite <- app_assoc. exact Hnd.
Qed.

(** Spreading an object under a spread that already starts from it
    changes nothing. *)
Lemma spread_absorb a b :
  NoDup (Object_keys a) -> spread a (spread a b) = spread a b.
Proof.
  intros Hnd. destruct (spread_shape a b Hnd) as (a' & n & -> & Hk & Hn).
  unfold spread. rewrite fold_left_app.
  assert (Hover : fold_left (fun acc kv => obj_set acc kv.1 kv.2) a' a = a').
  { apply (spread_overwrite [] a' a Hk).
    simpl. unfold Object_keys in Hn |- *. rewrite map_app in Hn.
    apply NoDup_app in Hn as (H & _). exact H. }
  rewrite Hover. apply spread_append. exact Hn.
Qed.

End Spreads.

(* ===================================================================== *)
(** ** Action calls from the page *)
(* ===================================================================== *)

Section ActionProperties.
Import Js Merger Actions.

(** X15.  A button of the row form posts exactly the parameters the
    combined output shows, when both editors are ready: the component
    form's values overlaid by the row form's. *)
Theorem row_button_posts_the_combined_output ce re action :
  ready ce = true -> ready re = true ->
  NoDup (Object_keys (current ce)) ->
  exists sent,
    request_body {| componentEditor := Some ce; rowEditor := Some re |} action
      (button_parameters {| componentEditor := Some ce; rowEditor := Some re |} re)
    = VObj [("action", action); ("parameters", VObj sent); ("componentPath", VNull)]
    /\ updateCombinedOutput {| componentEditor := Some ce; rowEditor := Some re |}
       = Some (VObj [("parameters", VObj sent)]).
Proof.
  intros Hce Hre Hnd. exists (spread (current ce) (current re)).
  unfold request_body, button_parameters, ready_component_value, updateCombinedOutput,
    getValue. cbn [componentEditor rowEditor]. rewrite Hce, Hre.
  rewrite (spread_absorb _ _ Hnd). split; reflexivity.
Qed.

(** X16.  A failure answered by the dispatcher (every answer of
    sync_action other than a 200) makes callSyncAction throw
    "HTTP <code>: <body text>", and the catch block of executeSyncAction
    does not get to show it: its first line reads event.target on the
    global event, which is undefined once the awaited request has
    settled, so the call ends with a TypeError, no alert is shown, and
    the button stays disabled with its hourglass text. *)
Theorem dispatcher_failures_leave_the_button_busy
    rt w data fs r fs' b dumps eds editor action label :
  Server.sync_action rt w data fs = (Server.Responded r, fs') ->
  Server.status_code r <> 200%nat ->
  callSyncAction (fun _ => Normal (answered dumps r)) eds action
    (button_parameters eds editor)
  = Throw (Error ("HTTP " +:+ pretty (Server.status_code r) +:+ ": "
                  +:+ dumps (Server.body r)))
  /\ executeSyncAction b (fun _ => Normal (answered dumps r)) eds editor action label
     = ({| disabled := true; opacity := "0.6";
           textContent := "⏳ " +:+ label +:+ "..." |},
        Rejected TypeError_property).
Proof.
  intros Hanswer Hcode.
  assert (Hok : ok (answered dumps r) = false).
  { destruct (sync_action_cases rt _ _ _ _ _ Hanswer) as [[H _] | [[H | H] _]];
      [contradiction | |]; unfold answered; cbn [ok]; rewrite H; reflexivity. }
  unfold executeSyncAction, executeSyncAction_try, callSyncAction. cbn [cbind].
  rewrite Hok. split; reflexivity.
Qed.

End ActionProperties.

Section ActionExamples.
Import Js Merger Actions.

Lemma row_button_posts_the_combined_output_witness :
  exists sent,
    request_body
      {| componentEditor := Some {| schema := VNull; ready := true;
                                    current := [("a", VNum 1)] |};
         rowEditor := Some {| schema := VNull; ready := true;
                              current := [("a", VNum 2); ("b", VNum 3)] |} |}
      (VStr "testConnection")
      (button_parameters
         {| componentEditor := Some {| schema := VNull; ready := true;
                                       current := [("a", VNum 1)] |};
            rowEditor := Some {| schema := VNull; ready := true;
                                 current := [("a", VNum 2); ("b", VNum 3)] |} |}
         {| schema := VNull; ready := true;
            current := [("a", VNum 2); ("b", VNum 3)] |})
    = VObj [("action", VStr "testConnection"); ("parameters", VObj sent);
            ("componentPath", VNull)]
    /\ updateCombinedOutput
         {| componentEditor := Some {| schema := VNull; ready := true;
                                       current := [("a", VNum 1)] |};
            rowEditor := Some {| schema := VNull; ready := true;
                                 current := [("a", VNum 2); ("b", VNum 3)] |} |}
       = Some (VObj [("parameters", VObj sent)]).
Proof.
  apply (row_button_posts_the_combined_output
           {| schema := VNull; ready := true; current := [("a", VNum 1)] |}
           {| schema := VNull; ready := true;
              current := [("a", VNum 2); ("b", VNum 3)] |}
           (VStr "testConnection"));
    [reflexivity | reflexivity |].
  apply NoDup_singleton.
Defined.

Lemma dispatcher_failures_leave_the_button_busy_witness :
  callSyncAction
    (fun _ => Normal (answered (fun _ => "{...}")
       (Server.unknown_action "doesNotExist" (Server.possible_names "doesNotExist"))))
    {| componentEditor := None; rowEditor := None |} (VStr "doesNotExist")
    (button_parameters {| componentEditor := None; rowEditor := None |}
       {| schema := VNull; ready := true; current := [] |})
  = Throw (Error ("HTTP " +:+ pretty 400%nat +:+ ": " +:+ "{...}"))
  /\ executeSyncAction Cases.browser
       (fun _ => Normal (answered (fun _ => "{...}")
          (Server.unknown_action "doesNotExist" (Server.possible_names "doesNotExist"))))
       {| componentEditor := None; rowEditor := None |}
       {| schema := VNull; ready := true; current := [] |}
       (VStr "doesNotExist") "Run"
     = ({| disabled := true; opacity := "0.6"; textContent := "⏳ Run..." |},
        Rejected TypeError_property).
Proof.
  apply (dispatcher_failures_leave_the_button_busy Sample.rt
           (Sample.world_with (Server.Ok (Server.Ok Sample.unit_snake)))
           (Server.Ok (Sample.request_of "doesNotExist")) ∅
           (Server.unknown_action "doesNotExist" (Server.possible_names "doesNotExist"))
           (<["/code/data/config.json"
              := VObj [("parameters", VObj [("host", VStr "db")])]]> ∅)
           Cases.browser (fun _ => "{...}"));
    [reflexivity | discriminate].
Defined.

(** The same button after an answer the page can read: the alert is
    shown and the button is idle again. *)
Example executeSyncAction_success :
  executeSyncAction Cases.browser
    (fun _ => Normal (answered (fun _ => "{...}")
       {| Server.status_code := 200; Server.body := Sample.success |}))
    {| componentEditor := None; rowEditor := None |}
    {| schema := VNull; ready := true; current := [] |}
    (VStr "testConnection") "Run"
  = ({| disabled := false; opacity := "1"; textContent := "🔘 Run" |},
     Alerted (Succeeded "Run" "{...}")).
Proof. reflexivity. Qed.

End ActionExamples.

(* ===================================================================== *)
(** ** The option loader and the merger, further *)
(* ===================================================================== *)

Section LoaderRestores.
Import Js Loader.

(** [populate] touches nothing of the control but its option list. *)
Lemma populate_keeps_control en prop e result el' :
  populate en prop (Some e) result = Normal el' ->
  exists opts, el' = Some {| tagName := tagName e; disabled := disabled e;
                             opacity := opacity e; options := opts |}.
Proof.
  unfold populate.
  destruct (response_options result) as [options |]; [| discriminate].
  cbn [cbind]. destruct (gt en (length_of options) 0).
  - destruct (array_map (member "value") options) as [values |]; [| discriminate].
    destruct (array_map (member "label") options) as [labels |]; [| discriminate].
    cbn [cbind]. destruct (String.eqb (tagName e) "SELECT").
    + intros [= <-]. eexists. reflexivity.
    + intros [= <-]. exists (Loader.options e). destruct e; reflexivity.
  - intros [= <-]. exists (Loader.options e). destruct e; reflexivity.
Qed.

(** X17.  However a load ends (any response shape, an empty list, a
    malformed body, a failed request), loadOptions leaves the control
    enabled at full opacity, with its tag unchanged; and when it shows
    an alert, it is one alert, and the option list is as it was. *)
Theorem loadOptions_always_restores_the_control en prop fieldPath e response :
  exists opts notices,
    loadOptions en prop fieldPath (Some e) response
    = (Some {| tagName := tagName e; disabled := false; opacity := "1";
               options := opts |}, notices)
    /\ (notices = []
        \/ opts = Loader.options e
           /\ exists err,
                notices = [{| about := to_string (or_else (own prop "title")
                                                          (VStr fieldPath));
                              error := err |}]).
Proof.
  unfold loadOptions.
  destruct response as [result | err]; cbn [cbind].
  - destruct (populate en prop (set_busy true (Some e)) result) as [el' | err] eqn:Hp.
    + apply populate_keeps_control in Hp as [opts ->].
      exists opts, []. split; [reflexivity | left; reflexivity].
    + exists (Loader.options e). eexists. split; [reflexivity |].
      right. split; [reflexivity |]. exists err. reflexivity.
  - exists (Loader.options e). eexists. split; [reflexivity |].
    right. split; [reflexivity |]. exists err. reflexivity.
Qed.

End LoaderRestores.

Section MergerDrops.
Import Js Merger.

(** X18.  A persisted parameter that neither schema declares reaches
    neither form: after splitAndFillConfig the combined output does not
    have it (unless a form already held a value under that name). *)
Theorem undeclared_parameters_are_dropped config ce re componentKeys rowKeys k :
  declared ce = Normal componentKeys ->
  declared re = Normal rowKeys ->
  ready ce = true -> ready re = true ->
  includes componentKeys k = false -> includes rowKeys k = false ->
  obj_has (current ce) k = false -> obj_has (current re) k = false ->
  exists eds' merged,
    splitAndFillConfig (VObj config)
      {| componentEditor := Some ce; rowEditor := Some re |} = Normal eds'
    /\ updateCombinedOutput eds' = Some (VObj [("parameters", VObj merged)])
    /\ obj_has merged k = false.
Proof.
  intros Hdc Hdr Hrc Hrr Hkc Hkr Hcc Hcr.
  unfold splitAndFillConfig. cbn [componentEditor rowEditor].
  rewrite Hdc, Hdr. cbn [cbind keys own_entries].
  pose proof (split_has componentKeys rowKeys config k) as [Hc Hr].
  rewrite Hkc in Hc. rewrite Hkr in Hr. simpl in Hc, Hr.
  destruct (split componentKeys rowKeys config) as [cp rp]. simpl in Hc, Hr.
  eexists _, _. split; [reflexivity |].
  unfold updateCombinedOutput. cbn [componentEditor rowEditor].
  rewrite !filled_editor_ready, Hrc, Hrr. split; [reflexivity |].
  rewrite spread_has. unfold getValue.
  destruct (0 <? List.length cp)%nat, (0 <? List.length rp)%nat; simpl;
    rewrite ?Hc, ?Hr, ?Hcc, ?Hcr; reflexivity.
Qed.

End MergerDrops.

Section MoreExamples.
Import Js Merger Loader.

Lemma undeclared_parameters_are_dropped_witness :
  exists eds' merged,
    splitAndFillConfig (VObj [("x", VNum 1); ("legacy", VNum 9)])
      {| componentEditor :=
           Some {| schema := VObj [("properties", VObj [("x", VObj [])])];
                   ready := true; current := [] |};
         rowEditor :=
           Some {| schema := VObj [("properties", VObj [("y", VObj [])])];
                   ready := true; current := [] |} |} = Normal eds'
    /\ updateCombinedOutput eds' = Some (VObj [("parameters", VObj merged)])
    /\ obj_has merged "legacy" = false.
Proof.
  apply (undeclared_parameters_are_dropped
           [("x", VNum 1); ("legacy", VNum 9)]
           {| schema := VObj [("properties", VObj [("x", VObj [])])];
              ready := true; current := [] |}
           {| schema := VObj [("properties", VObj [("y", VObj [])])];
              ready := true; current := [] |}
           ["x"] ["y"] "legacy"); reflexivity.
Defined.

End MoreExamples.

(* ===================================================================== *)
(** ** Mounting the async fields *)
(* ===================================================================== *)

Section MountFacts.
Import Js Mount.

Lemma get_normal v k x : get v k = Normal x -> x = own v k.
Proof. destruct v; simpl; congruence. Qed.

Lemma parse_digits_no_dot s : forall acc n,
  parse_digits acc s = Some n -> has_dot s = false.
Proof.
  induction s as [| c s IH]; intros acc n; simpl; [reflexivity |].
  destruct (is_digit c) eqn:Hc; [| discriminate].
  intros H. rewrite (IH _ _ H), orb_false_r.
  destruct (Ascii.eqb_spec c ".") as [-> | _]; [discriminate | reflexivity].
Qed.

Lemma array_index_no_dot k i : array_index k = Some i -> has_dot k = false.
Proof.
  unfold array_index. destruct k as [| c [| c' k]]; [discriminate | |].
  - apply parse_digits_no_dot.
  - destruct (Ascii.eqb c "0"); [discriminate | apply parse_digits_no_dot].
Qed.

(** A dotted name is no property of a document without dotted names. *)
Lemma own_dotted v k :
  dotless v = true -> has_dot k = true -> own v k = VUndef.
Proof.
  intros Hv Hk. destruct v as [| | | | s | l | o]; try reflexivity.
  - simpl. destruct (array_index k) as [i |] eqn:Hi; [| reflexivity].
    apply array_index_no_dot in Hi. congruence.
  - simpl. destruct (array_index k) as [i |] eqn:Hi; [| reflexivity].
    apply array_index_no_dot in Hi. congruence.
  - simpl in *. induction o as [| [k0 x] o IH]; [reflexivity |].
    simpl in Hv. apply andb_prop in Hv as [[Hk0 _]%andb_prop Ho].
    simpl. destruct (String.eqb_spec k0 k) as [-> | _].
    + rewrite Hk in Hk0. discriminate.
    + apply IH, Ho.
Qed.

Lemma dotless_own v k : dotless v = true -> dotless (own v k) = true.
Proof.
  intros Hv. destruct v as [| | | | s | l | o]; try reflexivity.
  - simpl. destruct (array_index k) as [i |]; [| reflexivity].
    destruct (String.get i s); reflexivity.
  - simpl in *. destruct (array_index k) as [i |]; [| reflexivity].
    revert i. induction l as [| x l IH]; intros [| i]; try reflexivity;
      simpl in Hv; apply andb_prop in Hv as [Hx Hl]; simpl; auto.
  - simpl in *. induction o as [| [k0 x] o IH]; [reflexivity |].
    simpl in Hv. apply andb_prop in Hv as [[_ Hx]%andb_prop Ho].
    simpl. destruct (String.eqb k0 k); [exact Hx | apply IH, Ho].
Qed.

Lemma has_dot_app a b : has_dot (a +:+ "." +:+ b) = true.
Proof.
  induction a as [| c a IH]; simpl; [reflexivity |].
  change (has_dot (a +:+ "." +:+ b) = true) in IH.
  rewrite IH. apply orb_true_r.
Qed.

Lemma path_of_nested parentPath fieldName :
  parentPath <> EmptyString ->
  has_dot (path_of parentPath fieldName) = true
  /\ path_of parentPath fieldName <> EmptyString.
Proof.
  intros Hp. unfold path_of. simpl.
  destruct (String.eqb_spec parentPath EmptyString) as [-> | _]; [contradiction |].
  simpl. split; [apply has_dot_app |].
  destruct parentPath; [contradiction | discriminate].
Qed.

(** Inside a nested object the head of [setupAsyncField] finds nothing. *)
Lemma setupAsyncField_nested rest parentPath fieldName prop done :
  parentPath <> EmptyString -> dotless prop = true ->
  fst (setupAsyncField rest (path_of parentPath fieldName) prop done) = done.
Proof.
  intros Hp Hd. unfold setupAsyncField, async_of.
  destruct (get prop "properties") as [properties |] eqn:Hg; [| reflexivity].
  apply get_normal in Hg as ->. cbn [cbind].
  destruct (get (own prop "properties") (path_of parentPath fieldName))
    as [x |] eqn:Hx; [| reflexivity].
  apply get_normal in Hx as ->.
  rewrite own_dotted; [reflexivity | apply dotless_own, Hd |].
  apply path_of_nested, Hp.
Qed.

(** One step of the loop inside a nested object mounts nothing, if the
    recursive walks mount nothing. *)
Lemma visit_nested walk rest prop parentPath done acc fieldName r :
  parentPath <> EmptyString -> dotless prop = true ->
  (forall prop0 fieldPath r0,
     fieldPath <> EmptyString -> dotless prop0 = true ->
     walk prop0 fieldPath done = Some r0 -> fst r0 = done) ->
  (forall r0, acc = Some r0 -> fst r0 = done) ->
  visit walk rest prop parentPath acc fieldName = Some r -> fst r = done.
Proof.
  intros Hp Hd Hwalk Hacc. unfold visit.
  destruct acc as [[done0 [e |]] |]; [apply Hacc | | discriminate].
  assert (done0 = done) as -> by (apply (Hacc (done0, None)); reflexivity).
  destruct (get prop "properties") as [properties |] eqn:Hg;
    [| intros [= <-]; reflexivity].
  cbn [cbind].
  destruct (get properties fieldName) as [prop0 |] eqn:Hp0;
    [| intros [= <-]; reflexivity].
  apply get_normal in Hp0.
  assert (Hd0 : dotless prop0 = true).
  { subst prop0. apply dotless_own. apply get_normal in Hg as ->.
    apply dotless_own, Hd. }
  pose proof (setupAsyncField_nested rest parentPath fieldName prop done Hp Hd)
    as Hs.
  destruct (truthy prop0 && strict_eq (own prop0 "format") (VStr "select")
            && truthy (get_opt (own prop0 "options") "async")).
  - destruct (setupAsyncField rest (path_of parentPath fieldName) prop done)
      as [done1 thrown]. simpl in Hs. subst done1.
    destruct thrown; [intros [= <-]; reflexivity |].
    destruct (truthy prop0 && strict_eq (own prop0 "type") (VStr "object")
              && truthy (own prop0 "properties")).
    + apply Hwalk; [apply path_of_nested, Hp | exact Hd0].
    + intros [= <-]. reflexivity.
  - destruct (truthy prop0 && strict_eq (own prop0 "type") (VStr "object")
              && truthy (own prop0 "properties")).
    + apply Hwalk; [apply path_of_nested, Hp | exact Hd0].
    + intros [= <-]. reflexivity.
Qed.

(** A walk inside a nested object mounts nothing. *)
Lemma nested_walk_mounts_nothing depth rest : forall prop parentPath done r,
  parentPath <> EmptyString -> dotless prop = true ->
  setupWatchListeners depth rest prop prop parentPath done = Some r ->
  fst r = done.
Proof.
  induction depth as [| depth IH]; intros prop parentPath done r Hp Hd;
    [discriminate |].
  cbn [setupWatchListeners].
  destruct (get prop "properties") as [properties | e];
    [| intros [= <-]; reflexivity].
  destruct (negb (truthy properties)); [intros [= <-]; reflexivity |].
  assert (Hfold : forall ks acc,
    (forall r0, acc = Some r0 -> fst r0 = done) ->
    fold_left
      (visit (fun prop0 fieldPath done0 =>
                setupWatchListeners depth rest prop0 prop0 fieldPath done0)
             rest prop parentPath) ks acc = Some r -> fst r = done).
  { induction ks as [| fieldName ks IHks]; intros acc Hacc; simpl.
    - apply Hacc.
    - apply IHks. intros r0. apply visit_nested; try assumption.
      intros prop0 fieldPath r1 Hf Hd0. apply IH; assumption. }
  apply Hfold. intros r0 [= <-]. reflexivity.
Qed.

End MountFacts.

Section MountTermination.
Import Js Mount.

Lemma height_nth l i :
  (height (nth i l VUndef) <= fold_right (fun x n => Nat.max (height x) n) O l)%nat.
Proof.
  revert i. induction l as [| x l IH]; intros [| i]; simpl; try lia.
  specialize (IH i). lia.
Qed.

Lemma height_obj_get o k :
  (height (obj_get o k)
   <= fold_right (fun kv n => Nat.max (let '(_, x) := kv in height x) n) O o)%nat.
Proof.
  induction o as [| [k0 x] o IH]; simpl; [lia |].
  destruct (String.eqb k0 k); lia.
Qed.

(** A property lies strictly below the document it is read from, unless
    it is a scalar. *)
Lemma height_own v k :
  (height (own v k) < height v)%nat \/ height (own v k) = O.
Proof.
  destruct v as [| | | | s | l | o]; try (right; reflexivity).
  - right. simpl. destruct (array_index k) as [i |]; [| reflexivity].
    destruct (String.get i s); reflexivity.
  - left. cbn [own]. destruct (array_index k) as [i |].
    + cbn [height]. pose proof (height_nth l i). lia.
    + simpl. lia.
  - left. cbn [own height]. pose proof (height_obj_get o k). lia.
Qed.

Lemma typed_object prop :
  strict_eq (own prop "type") (VStr "object") = true -> exists o, prop = VObj o.
Proof.
  destruct prop as [| | | | s | l | o]; try discriminate; eauto.
Qed.

Lemma visit_total walk rest original parentPath acc fieldName :
  (forall prop fieldPath done,
     (height prop < height original)%nat ->
     exists r, walk prop fieldPath done = Some r) ->
  (exists r, acc = Some r) ->
  exists r, visit walk rest original parentPath acc fieldName = Some r.
Proof.
  intros Hwalk [[done [e |]] ->]; unfold visit; [eauto |].
  destruct (get original "properties") as [properties |] eqn:Hg; [| eauto].
  cbn [cbind].
  destruct (get properties fieldName) as [prop |] eqn:Hp; [| eauto].
  apply get_normal in Hg, Hp. subst properties.
  destruct (if truthy prop && strict_eq (own prop "format") (VStr "select")
               && truthy (get_opt (own prop "options") "async")
            then setupAsyncField rest (path_of parentPath fieldName) original done
            else (done, None)) as [done1 [e |]]; [eauto |].
  destruct (truthy prop) eqn:Ht; [| eauto]. cbn [andb].
  destruct (strict_eq (own prop "type") (VStr "object")) eqn:Hty; [| eauto].
  cbn [andb]. destruct (truthy (own prop "properties")); [| eauto].
  apply Hwalk. apply typed_object in Hty as [o Ho].
  destruct (height_own (own original "properties") fieldName) as [H1 | H1];
    rewrite <- Hp, Ho in H1; [| discriminate].
  destruct (height_own original "properties") as [H2 | H2]; [| lia].
  rewrite Ho. lia.
Qed.

(** A walk that may follow the nesting as deep as the document goes
    comes to an end. *)
Lemma setupWatchListeners_total depth rest : forall schema original parentPath done,
  (height original < depth)%nat ->
  exists r, setupWatchListeners depth rest schema original parentPath done = Some r.
Proof.
  induction depth as [| depth IH]; intros schema original parentPath done Hh; [lia |].
  cbn [setupWatchListeners].
  destruct (get schema "properties") as [properties | e]; [| eauto].
  destruct (negb (truthy properties)); [eauto |].
  assert (Hfold : forall ks acc,
    (exists r, acc = Some r) ->
    exists r,
      fold_left
        (visit (fun prop fieldPath done0 =>
                  setupWatchListeners depth rest prop prop fieldPath done0)
               rest original parentPath) ks acc = Some r).
  { induction ks as [| fieldName ks IHks]; intros acc Hacc; simpl; [exact Hacc |].
    apply IHks, visit_total; [| exact Hacc].
    intros prop fieldPath done0 Hp. apply IH. lia. }
  apply Hfold. eauto.
Qed.

End MountTermination.

Section MountProperties.
Import Js Mount.

Lemma setupAsyncField_log rest fieldPath original done done1 thrown :
  setupAsyncField rest fieldPath original done = (done1, thrown) ->
  done1 = done
  \/ exists asyncOptions,
       async_of original fieldPath = Normal (Some asyncOptions)
       /\ done1 = done ++ [{| fieldPath := fieldPath; asyncOptions := asyncOptions |}].
Proof.
  unfold setupAsyncField.
  destruct (async_of original fieldPath) as [[a |] | e]; intros [= <- <-]; eauto.
Qed.

(** One step of the top-level loop mounts at most the field it visits. *)
Lemma visit_top walk rest original acc fieldName (P : call -> Prop) r :
  fieldName <> EmptyString -> dotless original = true ->
  (forall prop0 fieldPath done r0,
     fieldPath <> EmptyString -> dotless prop0 = true ->
     walk prop0 fieldPath done = Some r0 -> fst r0 = done) ->
  (forall asyncOptions,
     async_of original fieldName = Normal (Some asyncOptions) ->
     P {| fieldPath := fieldName; asyncOptions := asyncOptions |}) ->
  (forall r0, acc = Some r0 -> Forall P (fst r0)) ->
  visit walk rest original EmptyString acc fieldName = Some r -> Forall P (fst r).
Proof.
  intros Hne Hd Hwalk HP Hacc. unfold visit.
  destruct acc as [[done [e |]] |]; [apply Hacc | | discriminate].
  specialize (Hacc _ eq_refl). simpl in Hacc.
  destruct (get original "properties") as [properties |] eqn:Hg;
    [| intros [= <-]; exact Hacc].
  cbn [cbind].
  destruct (get properties fieldName) as [prop |] eqn:Hp;
    [| intros [= <-]; exact Hacc].
  apply get_normal in Hg, Hp.
  assert (Hd0 : dotless prop = true).
  { subst prop properties. apply dotless_own, dotless_own, Hd. }
  change (path_of EmptyString fieldName) with fieldName.
  assert (Hstep : forall done1 thrown,
    (if truthy prop && strict_eq (own prop "format") (VStr "select")
        && truthy (get_opt (own prop "options") "async")
     then setupAsyncField rest fieldName original done
     else (done, None)) = (done1, thrown) -> Forall P done1).
  { intros done1 thrown.
    destruct (truthy prop && strict_eq (own prop "format") (VStr "select")
              && truthy (get_opt (own prop "options") "async")).
    - intros [-> | (a & Ha & ->)]%setupAsyncField_log; [exact Hacc |].
      apply Forall_app. split; [exact Hacc |].
      apply Forall_singleton, HP, Ha.
    - intros [= <- <-]. exact Hacc. }
  destruct (if truthy prop && strict_eq (own prop "format") (VStr "select")
               && truthy (get_opt (own prop "options") "async")
            then setupAsyncField rest fieldName original done
            else (done, None)) as [done1 thrown].
  specialize (Hstep _ _ eq_refl).
  destruct thrown; [intros [= <-]; exact Hstep |].
  destruct (truthy prop && strict_eq (own prop "type") (VStr "object")
            && truthy (own prop "properties")).
  - intros Hw. rewrite (Hwalk _ _ _ _ Hne Hd0 Hw). exact Hstep.
  - intros [= <-]. exact Hstep.
Qed.

(** X19.  In a schema none of whose property names contains a dot or is
    empty, setupWatchListeners mounts async selects at the top level
    only: every field for which setupAsyncField gets past its first line
    is a top-level property, looked up under its own name.  An async
    select inside a nested object is visited under the path
    "parent.child", which names no property of the nested object, and
    setupAsyncField returns at once.  (The walk is followed to any
    depth that exceeds the nesting of the schema.) *)
Theorem only_top_level_async_selects_are_mounted depth rest schema original :
  dotless original = true ->
  EmptyString ∉ Object_keys (own_entries (own schema "properties")) ->
  (height original < depth)%nat ->
  exists done thrown,
    setupWatchListeners depth rest schema original EmptyString [] = Some (done, thrown)
    /\ forall c, c ∈ done ->
         fieldPath c ∈ Object_keys (own_entries (own schema "properties"))
         /\ async_of original (fieldPath c) = Normal (Some (asyncOptions c)).
Proof.
  intros Hd Hkeys Hh.
  destruct (setupWatchListeners_total depth rest schema original EmptyString [] Hh)
    as [[done thrown] Hr].
  exists done, thrown. split; [exact Hr |].
  apply Forall_forall.
  destruct depth as [| depth]; [discriminate |].
  cbn [setupWatchListeners] in Hr.
  destruct (get schema "properties") as [properties | e] eqn:Hg;
    [| injection Hr as <- <-; constructor].
  destruct (negb (truthy properties)); [injection Hr as <- <-; constructor |].
  apply get_normal in Hg. subst properties.
  set (ks0 := Object_keys (own_entries (own schema "properties"))) in *.
  assert (Hfold : forall ks acc r,
    (forall k, k ∈ ks -> k ∈ ks0) ->
    (forall r0, acc = Some r0 ->
       Forall (fun c => fieldPath c ∈ ks0
                        /\ async_of original (fieldPath c)
                           = Normal (Some (asyncOptions c))) (fst r0)) ->
    fold_left
      (visit (fun prop fieldPath done0 =>
                setupWatchListeners depth rest prop prop fieldPath done0)
             rest original EmptyString) ks acc = Some r ->
    Forall (fun c => fieldPath c ∈ ks0
                     /\ async_of original (fieldPath c)
                        = Normal (Some (asyncOptions c))) (fst r)).
  { induction ks as [| fieldName ks IHks]; intros acc r Hsub Hacc; simpl.
    - apply Hacc.
    - apply IHks; [intros k Hk; apply Hsub; right; exact Hk |].
      intros r0. apply visit_top; try assumption.
      + intros ->. apply Hkeys, Hsub. left.
      + intros prop0 fieldPath done0 r1. apply nested_walk_mounts_nothing.
      + intros a Ha. split; [apply Hsub; left | exact Ha]. }
  apply (Hfold ks0 (Some ([], None)) (done, thrown)); [auto | | exact Hr].
  intros r0 [= <-]. constructor.
Qed.

End MountProperties.

Section MountExamples.
Import Js Mount.

Lemma only_top_level_async_selects_witness :
  exists done thrown,
    setupWatchListeners 8 (fun _ => None) Cases.schema_with_nested_select
      Cases.schema_with_nested_select EmptyString [] = Some (done, thrown)
    /\ forall c, c ∈ done ->
         fieldPath c ∈ Object_keys (own_entries
                          (own Cases.schema_with_nested_select "properties"))
         /\ async_of Cases.schema_with_nested_select (fieldPath c)
            = Normal (Some (asyncOptions c)).
Proof.
  apply (only_top_level_async_selects_are_mounted 8 (fun _ => None)
           Cases.schema_with_nested_select Cases.schema_with_nested_select).
  - reflexivity.
  - intros H. vm_compute in H. repeat (apply elem_of_cons in H as [H | H];
      [discriminate |]). inversion H.
  - apply Nat.ltb_lt. reflexivity.
Defined.

(** The select inside [db] is passed over; the one at the top is mounted. *)
Example nested_select_is_passed_over :
  setupWatchListeners 8 (fun _ => None) Cases.schema_with_nested_select
    Cases.schema_with_nested_select EmptyString []
  = Some ([{| fieldPath := "table";
              asyncOptions := VObj [("action", VStr "listTables");
                                    ("autoload", VBool true)] |}], None).
Proof. reflexivity. Qed.

End MountExamples.

(* ===================================================================== *)
(** ** Schema normalizer, further *)
(* ===================================================================== *)

Section NormalizerKeeps.
Import Js Normalizer.

Lemma mapM_entries_keys (f : value -> completion value) (o o' : obj) :
  mapM (fun kv => x <- f (snd kv) ;; Normal (fst kv, x)) o = Normal o' ->
  Object_keys o' = Object_keys o.
Proof.
  unfold Object_keys. revert o'. induction o as [| [k v] o IH]; intros o'; simpl.
  - intros [= <-]. reflexivity.
  - destruct (f v) as [x |]; [| discriminate]. cbn [cbind].
    destruct (mapM _ o) as [o1 |]; [| discriminate]. cbn [cbind].
    intros [= <-]. simpl. rewrite (IH o1 eq_refl). reflexivity.
Qed.

Lemma mapM_length {A B} (f : A -> completion B) l l' :
  mapM f l = Normal l' -> List.length l' = List.length l.
Proof.
  revert l'. induction l as [| a l IH]; intros l'; simpl.
  - intros [= <-]. reflexivity.
  - destruct (f a) as [b |]; [| discriminate]. cbn [cbind].
    destruct (mapM f l) as [l1 |]; [| discriminate]. cbn [cbind].
    intros [= <-]. simpl. rewrite (IH l1 eq_refl). reflexivity.
Qed.

Lemma imap_keys {A B} (g : nat -> string) (l : list A) (l' : list B) :
  List.length l' = List.length l ->
  map fst (imap (fun i x => (g i, x)) l') = map fst (imap (fun i x => (g i, x)) l).
Proof.
  revert g l'. induction l as [| a l IH]; intros g [| b l'] Hlen;
    try discriminate; [reflexivity |].
  simpl. f_equal. apply (IH (g ∘ S)). simpl in Hlen. lia.
Qed.

Lemma map_own_keys f v v' :
  map_own f v = Normal v' ->
  Object_keys (own_entries v') = Object_keys (own_entries v).
Proof.
  destruct v as [| | | | s | l | o]; simpl; try (intros [= <-]; reflexivity).
  - destruct (mapM f l) as [l' |] eqn:Hl; [| discriminate]. intros [= <-].
    simpl. apply imap_keys, (mapM_length _ _ _ Hl).
  - destruct (mapM _ o) as [o' |] eqn:Ho; [| discriminate]. intros [= <-].
    simpl. apply (mapM_entries_keys _ _ _ Ho).
Qed.

(** X20.  preprocessSchema keeps the names of the properties and their
    order, and touches nothing of the schema outside "properties". *)
Theorem preprocessSchema_keeps_the_property_names schema processed :
  preprocessSchema schema = Normal processed ->
  Object_keys (own_entries (own processed "properties"))
    = Object_keys (own_entries (own schema "properties"))
  /\ forall k, k <> "properties" -> own processed k = own schema k.
Proof.
  unfold preprocessSchema.
  destruct (get schema "properties") as [properties |] eqn:Hg; [| discriminate].
  apply get_normal in Hg. subst properties. cbn [cbind].
  destruct (truthy (own schema "properties")) eqn:Ht;
    [| intros [= <-]; split; reflexivity].
  destruct (map_own property (own schema "properties")) as [properties' |] eqn:Hm;
    [| discriminate].
  cbn [cbind]. intros [= <-].
  destruct schema as [| | | | s | l | o]; try discriminate.
  cbn [set_prop own]. split.
  - rewrite obj_get_set, String.eqb_refl. apply (map_own_keys _ _ _ Hm).
  - intros k Hk. rewrite obj_get_set.
    destruct (String.eqb_spec "properties" k) as [<- | _]; [contradiction | reflexivity].
Qed.

End NormalizerKeeps.

Section NormalizerExamples.
Import Js Normalizer.

Lemma preprocessSchema_keeps_the_property_names_witness :
  Object_keys (own_entries
    (own (VObj [("type", VStr "object");
                ("properties", VObj [("test", Sample.hidden_field "Test Connection")])])
         "properties"))
  = Object_keys (own_entries (own Sample.schema_depth1 "properties"))
  /\ forall k, k <> "properties" ->
       own (VObj [("type", VStr "object");
                  ("properties", VObj [("test", Sample.hidden_field "Test Connection")])]) k
       = own Sample.schema_depth1 k.
Proof.
  apply (preprocessSchema_keeps_the_property_names Sample.schema_depth1).
  reflexivity.
Defined.

End NormalizerExamples.

(* ===================================================================== *)
(** ** Field sections *)
(* ===================================================================== *)

Section SectionProperties.
Import Js Groups Sections.

Lemma organize_sections gs secs title fields :
  organize gs = Some secs ->
  (title, fields) ∈ secs ->
  title ∈ groupOrder /\ groups_get gs title = Some fields.
Proof.
  unfold organize. destruct (List.length (map fst gs) <=? 1)%nat; [discriminate |].
  set (plan := omap _ groupOrder). intros Heq Hin.
  assert (secs = plan) as -> by congruence.
  apply list_elem_of_omap in Hin as (g & Hg & Hsome).
  destruct (groups_get gs g) as [l |] eqn:Hl; [| discriminate].
  injection Hsome as <- <-. auto.
Qed.

Lemma entry_unique (props : obj) k v v' :
  NoDup (Object_keys props) -> (k, v) ∈ props -> (k, v') ∈ props -> v = v'.
Proof.
  unfold Object_keys. induction props as [| [k0 p0] props IH]; intros Hnd Hin Hin';
    [inversion Hin |].
  simpl in Hnd. apply NoDup_cons in Hnd as [Hk0 Hnd].
  assert (Hfresh : forall x, (k0, x) ∈ props -> False).
  { intros x Hx. apply Hk0. apply list_elem_of_fmap. exists (k0, x). auto. }
  apply elem_of_cons in Hin as [Hin | Hin], Hin' as [Hin' | Hin'].
  - congruence.
  - injection Hin as -> ->. destruct (Hfresh _ Hin').
  - injection Hin' as -> ->. destruct (Hfresh _ Hin).
  - apply IH; assumption.
Qed.

(** X21.  When organizeFieldsIntoSections reorganizes a form, it makes
    sections for the four fixed group names only.  A field whose group
    name is any other (a custom 'x-kbc-group' tag) is put in no section,
    and the sections are all that the form container holds afterwards. *)
Theorem custom_group_fields_get_no_section en s props key prop name :
  obj_get s "properties" = VObj props ->
  Forall (fun kv => groupable en (snd kv)) props ->
  NoDup (Object_keys props) ->
  (key, prop) ∈ props ->
  groupName en prop = Normal name ->
  to_string name ∉ groupOrder ->
  exists result,
    organizeFieldsIntoSections en (VObj s) = Normal result
    /\ forall secs title fields,
         result = Some secs -> (title, fields) ∈ secs -> key ∉ fields.
Proof.
  intros Hprops Hall Hnd Hin Hname Hcustom.
  destruct (detect_loop en props [] Hall) as (gs & Hfold & Hgs).
  assert (Hdetect : detectFieldGroups en (VObj s) = Normal gs).
  { unfold detectFieldGroups, get, cbind, own, own_entries.
    rewrite Hprops. simpl. exact Hfold. }
  exists (organize gs). split.
  { unfold organizeFieldsIntoSections. rewrite Hdetect. reflexivity. }
  intros secs title fields Hsecs Hsec Hkey.
  destruct (organize_sections _ _ _ _ Hsecs Hsec) as [Htitle Hget].
  assert (Hlisted : listed gs title key) by (exists fields; auto).
  apply Hgs in Hlisted as [(l & Hl & _) | (prop' & name' & Hin' & Hname' & Htitle')];
    [discriminate |].
  assert (prop' = prop) as -> by (apply (entry_unique props key); assumption).
  rewrite Hname in Hname'. injection Hname' as <-.
  apply Hcustom. rewrite Htitle'. exact Htitle.
Qed.

End SectionProperties.

Section SectionExamples.
Import Js Groups Sections.

Lemma custom_group_fields_get_no_section_witness :
  exists result,
    organizeFieldsIntoSections Sample.engine
      (VObj [("properties",
              VObj [("host", VObj [("propertyOrder", VNum 1)]);
                    ("token", VObj [("x-kbc-group", VStr "Authorization")])])])
    = Normal result
    /\ forall secs title fields,
         result = Some secs -> (title, fields) ∈ secs -> "token" ∉ fields.
Proof.
  apply (custom_group_fields_get_no_section Sample.engine
           [("properties",
             VObj [("host", VObj [("propertyOrder", VNum 1)]);
                   ("token", VObj [("x-kbc-group", VStr "Authorization")])])]
           [("host", VObj [("propertyOrder", VNum 1)]);
            ("token", VObj [("x-kbc-group", VStr "Authorization")])]
           "token" (VObj [("x-kbc-group", VStr "Authorization")])
           (VStr "Authorization")).
  - reflexivity.
  - repeat constructor.
    + exists [("propertyOrder", VNum 1)], (VStr "Connection"). repeat split.
    + exists [("x-kbc-group", VStr "Authorization")], (VStr "Authorization").
      repeat split.
  - unfold Object_keys. simpl. apply NoDup_cons. split.
    + intros H. apply list_elem_of_In in H. simpl in H.
      destruct H as [H | []]. discriminate H.
    + apply NoDup_singleton.
  - right. left.
  - reflexivity.
  - intros H. apply list_elem_of_In in H. simpl in H.
    destruct H as [H | [H | [H | [H | []]]]]; discriminate H.
Defined.

(** The tagged field is left out of the reorganized form. *)
Example custom_group_is_left_out :
  organizeFieldsIntoSections Sample.engine
    (VObj [("properties",
            VObj [("host", VObj [("propertyOrder", VNum 1)]);
                  ("token", VObj [("x-kbc-group", VStr "Authorization")])])])
  = Normal (Some [("Connection", ["host"])]).
Proof. reflexivity. Qed.

End SectionExamples.

(* ===================================================================== *)
(** ** Debounce keys *)
(* ===================================================================== *)

Section DebounceKeys.
Import Js Watch.

Lemma filter_none {A} (P : A -> Prop) `{!forall x, Decision (P x)} (l : list A) :
  (forall x, x ∈ l -> ~ P x) -> filter P l = [].
Proof.
  induction l as [| x l IH]; intros Hall; [reflexivity |].
  rewrite filter_cons. destruct (decide (P x)) as [Hx | _].
  - destruct (Hall x); [left | exact Hx].
  - apply IH. intros y Hy. apply Hall. right. exact Hy.
Qed.

(** X22.  The debounce timers are kept under the key
    "<field>_<watched field>", which two different pairs can share
    ("a_b" watching "c", and "a" watching "b_c").  When they do, a
    change seen by the watch of one pair cancels the pending reload of
    the other: after the two watches ran in turn, no reload of the first
    pair is pending. *)
Theorem colliding_debounce_keys_cancel_the_other_reload w w' pg :
  well_formed pg ->
  fieldPath w +:+ "_" +:+ watchField w = fieldPath w' +:+ "_" +:+ watchField w' ->
  (fieldPath w, watchField w) <> (fieldPath w', watchField w') ->
  debounce_timers (fieldPath w) (watchField w) pg = [] ->
  debounce_timers (fieldPath w) (watchField w) (on_watch w' (on_watch w pg)) = []
  /\ exists tm, tm ∈ pending (on_watch w pg)
                /\ run tm = Debounced (fieldPath w) (watchField w).
Proof.
  intros (Hpos & Hids & _) Hkey Hpair Hnone.
  destruct (on_watch_spec w pg)
    as (kept & Hnow & Hnext & Hpend & Htimers & _ & _ & _ & Hkept).
  split.
  2:{ eexists. split; [rewrite Hpend; apply elem_of_app; right; left |]. reflexivity. }
  assert (Hold : forall tm, tm ∈ kept ->
                   run tm <> Debounced (fieldPath w) (watchField w)).
  { intros tm Hin Hrun.
    assert (Hp : tm ∈ pending pg).
    { apply (kept_subset kept pg); [| exact Hin].
      destruct Hkept as [-> | (t & _ & _ & ->)]; eauto. }
    assert (Hin' : tm ∈ debounce_timers (fieldPath w) (watchField w) pg).
    { apply list_elem_of_filter. auto. }
    rewrite Hnone in Hin'. inversion Hin'. }
  unfold debounce_timers. apply filter_none. intros tm Hin Hrun.
  revert Hin. generalize dependent (on_watch w pg). intros pg1 Hnow Hnext Hpend Htimers.
  unfold on_watch. rewrite <- Hkey, Htimers, lookup_insert_eq.
  destruct (Nat.eqb_spec (next_id pg) 0) as [H0 | _]; [lia |].
  cbn [negb]. unfold setTimeout, clearTimeout, set_timer_key. cbn [pending].
  intros Hin. apply elem_of_app in Hin as [Hin | Hin].
  - apply list_elem_of_filter in Hin as [Hid Hin]. rewrite Hpend in Hin.
    apply elem_of_app in Hin as [Hin | Hin].
    + exact (Hold tm Hin Hrun).
    + apply list_elem_of_singleton in Hin. subst tm. simpl in Hid. congruence.
  - apply list_elem_of_singleton in Hin. subst tm. simpl in Hrun.
    injection Hrun as H1 H2. apply Hpair. congruence.
Qed.

End DebounceKeys.

Section DebounceKeyExamples.
Import Js Watch.

Lemma colliding_debounce_keys_witness :
  debounce_timers "a_b" "c"
    (on_watch {| path := "root.b_c"; fieldPath := "a"; watchField := "b_c" |}
       (on_watch {| path := "root.c"; fieldPath := "a_b"; watchField := "c" |}
          Sample.fresh_page)) = []
  /\ exists tm,
       tm ∈ pending (on_watch {| path := "root.c"; fieldPath := "a_b";
                                 watchField := "c" |} Sample.fresh_page)
       /\ run tm = Debounced "a_b" "c".
Proof.
  apply (colliding_debounce_keys_cancel_the_other_reload
           {| path := "root.c"; fieldPath := "a_b"; watchField := "c" |}
           {| path := "root.b_c"; fieldPath := "a"; watchField := "b_c" |}
           Sample.fresh_page).
  - split; [simpl; lia |]. split.
    + intros tm Hin. inversion Hin.
    + intros k t Hk. simpl in Hk. rewrite lookup_empty in Hk. discriminate Hk.
  - reflexivity.
  - discriminate.
  - reflexivity.
Defined.

End DebounceKeyExamples.

(* ===================================================================== *)
(** ** Folder selection and schema upload *)
(* ===================================================================== *)

Section UploadProperties.
Import Js Upload.

Lemma last_filter_cons {A} (P : A -> Prop) `{!forall x, Decision (P x)} x l :
  last (filter P (x :: l))
  = match last (filter P l) with
    | Some y => Some y
    | None => if decide (P x) then Some x else None
    end.
Proof.
  rewrite filter_cons. destruct (decide (P x)); [| destruct (last _); reflexivity].
  rewrite last_cons. destruct (last (filter P l)); reflexivity.
Qed.

(** Past the first index the loop keeps the folder name and takes, of
    either kind, the last file that matches. *)
Lemma scan_later files : forall i st,
  i <> 0%nat ->
  scan i files st
  = {| configSchemaFile :=
         match last (filter is_config files) with
         | Some f => Some f
         | None => configSchemaFile st
         end;
       rowSchemaFile :=
         match last (filter is_row files) with
         | Some f => Some f
         | None => rowSchemaFile st
         end;
       folderName := folderName st |}.
Proof.
  induction files as [| f files IH]; intros i st Hi.
  - destruct st; reflexivity.
  - cbn [scan]. rewrite (IH (S i)) by lia. rewrite !last_filter_cons.
    unfold look. destruct (Nat.eqb_spec i 0) as [? | _]; [contradiction |].
    cbn [andb]. unfold is_config, is_row.
    destruct (String.eqb_spec (fileName f) "configschema.json") as [Hc | Hc].
    + rewrite decide_True by exact Hc.
      rewrite (decide_False (P := fileName f = "configrowschema.json"))
        by (rewrite Hc; discriminate).
      cbn [configSchemaFile rowSchemaFile folderName].
      destruct (last (filter _ files)), (last (filter _ files)); reflexivity.
    + rewrite decide_False by exact Hc.
      destruct (String.eqb_spec (fileName f) "configrowschema.json") as [Hr | Hr].
      * rewrite decide_True by exact Hr.
        cbn [configSchemaFile rowSchemaFile folderName].
        destruct (last (filter _ files)), (last (filter _ files)); reflexivity.
      * rewrite decide_False by exact Hr.
        destruct (last (filter _ files)), (last (filter _ files)); reflexivity.
Qed.

(** The whole loop. *)
Lemma scan_spec files :
  scan 0 files {| configSchemaFile := None; rowSchemaFile := None;
                  folderName := "component_config" |}
  = {| configSchemaFile := last (filter is_config files);
       rowSchemaFile := last (filter is_row files);
       folderName := picked_folder files |}.
Proof.
  destruct files as [| f files]; [reflexivity |].
  cbn [scan]. rewrite scan_later by lia. rewrite !last_filter_cons.
  unfold look, picked_folder, is_config, is_row. cbn [Nat.eqb andb].
  destruct (String.eqb_spec (fileName f) "configschema.json") as [Hc | Hc].
  - rewrite decide_True by exact Hc.
    rewrite (decide_False (P := fileName f = "configrowschema.json"))
      by (rewrite Hc; discriminate).
    destruct (includes_slash (path_of f));
      cbn [configSchemaFile rowSchemaFile folderName];
      destruct (last (filter _ files)), (last (filter _ files)); reflexivity.
  - rewrite decide_False by exact Hc.
    destruct (String.eqb_spec (fileName f) "configrowschema.json") as [Hr | Hr].
    + rewrite decide_True by exact Hr.
      destruct (includes_slash (path_of f));
        cbn [configSchemaFile rowSchemaFile folderName];
        destruct (last (filter _ files)), (last (filter _ files)); reflexivity.
    + rewrite decide_False by exact Hr.
      destruct (includes_slash (path_of f));
        cbn [configSchemaFile rowSchemaFile folderName];
        destruct (last (filter _ files)), (last (filter _ files)); reflexivity.
Qed.

(** X23.  handleFolderSelection finds the two schema files by the
    lower-cased last segment of their path, at any depth of the picked
    folder, and of several files that match it takes the last one in the
    list.  When both are found, read and parsed, it uploads them under
    the name of the picked folder (the first path segment of the first
    file), "component_config" if that path has no slash, "Unknown" if
    the segment is empty. *)
Theorem folder_selection_uploads_the_last_match
    parse files config row configText rowText componentSchema rowSchema :
  last (filter is_config files) = Some config ->
  last (filter is_row files) = Some row ->
  text config = Normal configText ->
  text row = Normal rowText ->
  parse configText = Normal componentSchema ->
  parse rowText = Normal rowSchema ->
  handleFolderSelection parse (Some files)
  = Uploading (VObj [("componentSchema", componentSchema);
                     ("rowSchema", rowSchema);
                     ("componentName",
                      VStr (if String.eqb (picked_folder files) EmptyString
                            then "Unknown" else picked_folder files))]).
Proof.
  intros Hc Hr Htc Htr Hpc Hpr. unfold handleFolderSelection.
  destruct files as [| f files]; [discriminate |].
  rewrite scan_spec. cbn [configSchemaFile rowSchemaFile folderName].
  rewrite Hc, Hr, Htc. cbn [cbind]. rewrite Htr. cbn [cbind].
  rewrite Hpc. cbn [cbind]. rewrite Hpr. cbn [cbind].
  unfold upload_body, or_else. cbn [truthy].
  destruct (String.eqb (picked_folder (f :: files)) EmptyString); reflexivity.
Qed.

(** X24.  And when no file of one of the two kinds is in the list,
    nothing is read, parsed or uploaded: the selection ends with the
    list of the paths found. *)
Theorem folder_selection_needs_both_files parse files :
  files <> [] ->
  filter is_config files = [] \/ filter is_row files = [] ->
  handleFolderSelection parse (Some files)
  = MissingFiles (join ", " (map path_of files)).
Proof.
  intros Hne Hmiss. unfold handleFolderSelection.
  destruct files as [| f files]; [contradiction |].
  rewrite scan_spec. cbn [configSchemaFile rowSchemaFile].
  destruct Hmiss as [-> | ->]; cbn [last]; [reflexivity |].
  destruct (last (filter is_config (f :: files))); reflexivity.
Qed.

End UploadProperties.

Section DiscoveredName.
Import Js Upload.

Lemma split_slash_nonempty s : split_slash s <> [].
Proof.
  destruct s as [| c s]; simpl; [discriminate |].
  destruct (Ascii.eqb c "/"); [discriminate |].
  destruct (split_slash s); discriminate.
Qed.

Lemma split_slash_app a b :
  split_slash (a +:+ "/" +:+ b) = split_slash a ++ split_slash b.
Proof.
  induction a as [| c a IH].
  - reflexivity.
  - change (String c a +:+ "/" +:+ b) with (String c (a +:+ "/" +:+ b)).
    cbn [split_slash]. rewrite IH.
    destruct (Ascii.eqb c "/"); [reflexivity |].
    destruct (split_slash a) as [| seg segs] eqn:Ha; [| reflexivity].
    destruct (split_slash_nonempty _ Ha).
Qed.

Lemma indexOf_fresh parts x :
  x ∉ parts -> indexOf (parts ++ [x]) x = Z.of_nat (List.length parts).
Proof.
  induction parts as [| p parts IH]; intros Hx.
  - simpl. rewrite String.eqb_refl. reflexivity.
  - apply not_elem_of_cons in Hx as [Hne Hx].
    cbn [app indexOf]. destruct (String.eqb_spec p x) as [-> | _]; [contradiction |].
    rewrite (IH Hx). destruct (Z.ltb_spec (Z.of_nat (List.length parts)) 0); [lia |].
    cbn [List.length]. lia.
Qed.

Lemma nth_last (parts : list string) d :
  parts <> [] ->
  nth (List.length parts - 1) (parts ++ ["component_config"]) d
  = default EmptyString (last parts).
Proof.
  intros Hne.
  assert (Hlt : (List.length parts - 1 < List.length parts)%nat).
  { destruct parts; [contradiction | simpl; lia]. }
  rewrite nth_lookup, (lookup_app_l _ _ _ Hlt), last_lookup.
  replace (Nat.pred (List.length parts)) with (List.length parts - 1)%nat by lia.
  destruct (lookup_lt_is_Some_2 _ _ Hlt) as [x ->]. reflexivity.
Qed.

Lemma componentName_of_root root :
  "component_config" ∉ split_slash root ->
  componentName (root +:+ "/component_config")
  = default EmptyString (last (split_slash root)).
Proof.
  intros Hfresh. unfold componentName.
  change (root +:+ "/component_config") with (root +:+ "/" +:+ "component_config").
  rewrite split_slash_app. change (split_slash "component_config")
    with ["component_config"].
  rewrite (indexOf_fresh _ _ Hfresh).
  pose proof (split_slash_nonempty root) as Hne.
  destruct (split_slash root) as [| p parts] eqn:Hs; [contradiction |].
  destruct (Z.leb_spec 0 (Z.of_nat (List.length (p :: parts)) - 1));
    [| cbn [List.length] in *; lia].
  replace (Z.to_nat (Z.of_nat (List.length (p :: parts)) - 1))
    with (List.length (p :: parts) - 1)%nat by lia.
  apply nth_last. discriminate.
Qed.

(** X25.  The component name the page shows at startup is the last
    segment of the project root: loadDiscoveryInfo reads it off the path
    "<root>/component_config" that get_discovery_info answers, as the
    segment before the first "component_config" (so a root with a
    directory of that name above it shows a different one). *)
Theorem discovered_name_is_the_root_folder dumps g root :
  Views.component_config_path g = Some (root +:+ "/component_config") ->
  "component_config" ∉ split_slash root ->
  exists r,
    Views.get_discovery_info g = Server.Responded r
    /\ loadDiscoveryInfo (Normal (Actions.answered dumps r))
       = Some (default EmptyString (last (split_slash root))).
Proof.
  intros Hg Hfresh. unfold Views.get_discovery_info, Views.ok. rewrite Hg.
  eexists. split; [reflexivity |].
  assert (Hne : String.eqb (root +:+ "/component_config") EmptyString = false).
  { destruct root; reflexivity. }
  rewrite Hne. cbn [negb].
  unfold loadDiscoveryInfo, Actions.answered.
  cbn [Actions.ok Actions.json Server.status_code Server.body cbind Nat.leb andb].
  change (get (VObj [("componentConfig", VStr (root +:+ "/component_config"));
                     ("configJson",
                      match Views.config_json_path g with
                      | Some s => if negb (String.eqb s EmptyString) then VStr s
                                  else VNull
                      | None => VNull
                      end)]) "componentConfig")
    with (Normal (VStr (root +:+ "/component_config"))).
  cbn [cbind truthy]. rewrite Hne. cbn [negb].
  rewrite (componentName_of_root _ Hfresh). reflexivity.
Qed.

End DiscoveredName.

Section UploadExamples.
Import Js Upload.

Lemma folder_selection_uploads_the_last_match_witness :
  handleFolderSelection Cases.parse (Some Cases.picked_files)
  = Uploading (VObj [("componentSchema", VStr "second");
                     ("rowSchema", VStr "row");
                     ("componentName", VStr "ex-demo")]).
Proof.
  apply (folder_selection_uploads_the_last_match Cases.parse Cases.picked_files
           (Cases.picked "ex-demo/backup/CONFIGSCHEMA.JSON" "second")
           (Cases.picked "ex-demo/component_config/configRowSchema.json" "row")
           "second" "row" (VStr "second") (VStr "row")); reflexivity.
Defined.

Lemma folder_selection_needs_both_files_witness :
  handleFolderSelection Cases.parse
    (Some [Cases.picked "ex-demo/component_config/configSchema.json" "first"])
  = MissingFiles "ex-demo/component_config/configSchema.json".
Proof.
  apply (folder_selection_needs_both_files Cases.parse
           [Cases.picked "ex-demo/component_config/configSchema.json" "first"]).
  - discriminate.
  - right. reflexivity.
Defined.

Lemma discovered_name_is_the_root_folder_witness :
  exists r,
    Views.get_discovery_info
      {| Views.component_config_path := Some "/work/ex-demo/component_config";
         Views.config_json_path := None |} = Server.Responded r
    /\ loadDiscoveryInfo (Normal (Actions.answered (fun _ => "{...}") r))
       = Some "ex-demo".
Proof.
  apply (discovered_name_is_the_root_folder (fun _ => "{...}")
           {| Views.component_config_path := Some "/work/ex-demo/component_config";
              Views.config_json_path := None |} "/work/ex-demo").
  - reflexivity.
  - intros H. apply list_elem_of_In in H. simpl in H.
    destruct H as [H | [H | [H | []]]]; discriminate H.
Defined.

(** Picking the component_config folder itself names the component
    after it. *)
Example picking_component_config :
  picked_folder [Cases.picked "component_config/configSchema.json" "{}"]
  = "component_config".
Proof. reflexivity. Qed.

End UploadExamples.

(* ===================================================================== *)
(** ** An async field, from its declaration to its reloads *)
(* ===================================================================== *)

Section MountedWatch.
Import Js Watch.

Lemma substring_all s : substring 0 (String.length s) s = s.
Proof. induction s as [| c s IH]; simpl; congruence. Qed.

(** The namespace prefix is stripped from a watched path. *)
Lemma strip_parameters_prefixed W : strip_parameters ("parameters." +:+ W) = W.
Proof.
  unfold strip_parameters.
  change ("parameters." +:+ W)
    with (String "p" (String "a" (String "r" (String "a" (String "m"
           (String "e" (String "t" (String "e" (String "r" (String "s"
           (String "." W))))))))))).
  cbn [String.prefix Ascii.eqb Bool.eqb andb String.length Nat.sub substring].
  destruct W; [reflexivity |].
  cbn [String.prefix]. apply (substring_all (String a W)).
Qed.

(** The loop over the watched paths adds one watcher for each and
    touches nothing else. *)
Lemma register_watches F raws : forall pg,
  fold_left
    (fun acc watchFieldRaw =>
       pg <- acc ;;
       match watchFieldRaw with
       | VStr raw =>
           let watchField := strip_parameters raw in
           Normal (add_watcher {| path := "root." +:+ watchField;
                                  fieldPath := F;
                                  watchField := watchField |} pg)
       | _ => Throw TypeError_call
       end)
    (map VStr raws) (Normal pg)
  = Normal {| now := now pg; next_id := next_id pg; pending := pending pg;
              watchDebounceTimers := watchDebounceTimers pg;
              watchers := watchers pg ++ map (AsyncField.watcher_of F) raws;
              form := form pg; loads := loads pg |}.
Proof.
  induction raws as [| raw raws IH]; intros pg.
  - simpl. rewrite app_nil_r. destruct pg; reflexivity.
  - cbn [map fold_left cbind]. rewrite IH. unfold add_watcher. cbn.
    rewrite <- app_assoc. reflexivity.
Qed.

(** What [setupAsyncField] leaves of a page when the field's [autoload]
    lists paths: a watcher for each, and the timer of the mount-time
    load. *)
Lemma setupAsyncField_registers F asyncOptions raws raw pg0 :
  own asyncOptions "autoload" = VArr (map VStr raws) ->
  raw ∈ raws ->
  well_formed pg0 -> registered pg0 ->
  exists pg,
    setupAsyncField F asyncOptions pg0 = Normal pg
    /\ well_formed pg /\ registered pg
    /\ now pg = now pg0
    /\ loads pg = loads pg0
    /\ AsyncField.watcher_of F raw ∈ watchers pg
    /\ forall W, debounce_timers F W pg = debounce_timers F W pg0.
Proof.
  intros Hauto Hraw (Hpos & Hids & Hkeys) Hreg.
  unfold setupAsyncField. rewrite Hauto. rewrite register_watches. cbn [cbind].
  assert (Hload : strict_eq (VArr (map VStr raws)) (VBool true)
                  || isArray (VArr (map VStr raws))
                     && (0 <? List.length (map VStr raws))%nat = true).
  { destruct raws; [inversion Hraw | reflexivity]. }
  rewrite Hload. eexists. split; [reflexivity |].
  unfold setTimeout. cbn [snd now next_id pending watchDebounceTimers watchers
                           form loads].
  split; [| split; [| split; [| split; [| split]]]].
  - split; [cbn; lia |]. split.
    + intros tm Hin. cbn in Hin |- *. apply elem_of_app in Hin as [Hin | Hin].
      * specialize (Hids tm Hin). lia.
      * apply list_elem_of_singleton in Hin. subst tm. cbn. lia.
    + intros k t Hk. cbn in Hk |- *. specialize (Hkeys k t Hk). lia.
  - intros w Hw. cbn in Hw. apply elem_of_app in Hw as [Hw | Hw].
    + apply Hreg, Hw.
    + apply list_elem_of_fmap in Hw as (r & -> & _). reflexivity.
  - reflexivity.
  - reflexivity.
  - cbn. apply elem_of_app. right. apply list_elem_of_fmap. exists raw. auto.
  - intros W. unfold debounce_timers. cbn [pending].
    rewrite filter_app, filter_cons. cbn [run].
    rewrite decide_False by discriminate. rewrite filter_nil, app_nil_r.
    reflexivity.
Qed.

End MountedWatch.

Section MountedReloads.
Import Js Watch.

(** From the declaration of an async field to its reloads.  Let
    [setupAsyncField] find the field [F] under its name in the schema it
    is handed, with an [autoload] list of paths among which
    "parameters.W", and let it find the field's editor.  Then it goes
    through, and on the page it leaves, N >= 1 changes of [W], each less
    than 1000 after the one before, add exactly one reload of the pair
    to the log: 1000 after the last change, reading the form value the
    last change left. *)
Lemma mounted_field_reloads_once getEditor F W original asyncOptions raws pg0 c cs T :
  Mount.async_of original F = Normal (Some asyncOptions) ->
  getEditor ("root." +:+ F) = true ->
  own asyncOptions "autoload" = VArr (map VStr raws) ->
  "parameters." +:+ W ∈ raws ->
  well_formed pg0 ->
  registered pg0 ->
  debounce_timers F W pg0 = [] ->
  Forall (fun c' => where_ c' = "root." +:+ W) (c :: cs) ->
  now pg0 <= when c ->
  rapid (when c) cs ->
  when (default c (last cs)) + 1000 <= T ->
  exists pg,
    AsyncField.setupAsyncField getEditor F original pg0 = Normal pg
    /\ debounce_loads F W (run_until T (run_changes (c :: cs) pg))
       = debounce_loads F W pg0
         ++ [{| at_time := when (default c (last cs)) + 1000;
                by_callback := Debounced F W;
                parameters := form_after (default c (last cs)) |}]
    /\ debounce_timers F W (run_until T (run_changes (c :: cs) pg)) = [].
Proof.
  intros Hhead Hed Hauto Hraw Hwf Hreg Hnone Hall Hnow Hrapid HT.
  destruct (setupAsyncField_registers F asyncOptions raws _ pg0 Hauto Hraw Hwf Hreg)
    as (pg & Hpg & Hwf' & Hreg' & Hnow' & Hloads & Hw & Htimers).
  exists pg. split.
  { unfold AsyncField.setupAsyncField. rewrite Hhead. cbn [cbind].
    rewrite Hed. exact Hpg. }
  unfold AsyncField.watcher_of in Hw. rewrite strip_parameters_prefixed in Hw.
  assert (Hsame : debounce_loads F W pg = debounce_loads F W pg0).
  { unfold debounce_loads. rewrite Hloads. reflexivity. }
  rewrite <- Hsame.
  apply debounce_reloads_once; try assumption.
  - rewrite Htimers. exact Hnone.
  - eexists. split; [exact Hw |]. split; reflexivity.
  - rewrite Hnow'. exact Hnow.
Qed.

(** The select [table] at the top level of a schema, mounted on a fresh
    page and followed by three keystrokes in [base_id]. *)
Example mounted_table_reloads_once :
  exists pg,
    AsyncField.setupAsyncField (fun _ => true) "table" AsyncField.flat_schema
      Sample.fresh_page = Normal pg
    /\ debounce_loads "table" "base_id"
         (run_until 5000 (run_changes Sample.typing pg))
       = debounce_loads "table" "base_id" Sample.fresh_page
         ++ [{| at_time := 2200; by_callback := Debounced "table" "base_id";
                parameters := [("base_id", VStr "app")] |}]
    /\ debounce_timers "table" "base_id"
         (run_until 5000 (run_changes Sample.typing pg)) = [].
Proof.
  apply (mounted_field_reloads_once (fun _ => true) "table" "base_id"
           AsyncField.flat_schema Sample.async_tables ["parameters.base_id"]
           Sample.fresh_page (Sample.keystroke 100 "a")
           [Sample.keystroke 600 "ap"; Sample.keystroke 1200 "app"] 5000).
  - reflexivity.
  - reflexivity.
  - reflexivity.
  - apply list_elem_of_singleton. reflexivity.
  - split; [simpl; lia |]. split.
    + intros tm Hin. inversion Hin.
    + intros k t Hk. unfold Sample.fresh_page in Hk.
      cbn [watchDebounceTimers] in Hk. rewrite lookup_empty in Hk. discriminate Hk.
  - intros w Hin. inversion Hin.
  - reflexivity.
  - repeat constructor.
  - simpl. lia.
  - simpl. lia.
  - simpl. lia.
Qed.

(** C7.  The debounce holds for the fields for which [setupAsyncField]
    registers its watches, and [setupWatchListeners] leaves out the
    async fields of nested objects.  For a field that
    [setupAsyncField] finds under its name, whose [autoload] lists
    "parameters.W": N >= 1 changes of [W], each less than 1000 after the
    one before, cancel and reschedule the pair's timer, and exactly one
    reload fires, 1000 after the last change, reading the form value of
    that time.  But for an async select inside the object [db],
    [setupWatchListeners] calls [setupAsyncField] with the path
    "db.table" and the object [db], whose properties have no "db.table":
    it returns at its first line, no watch is registered, and the same
    three changes of the watched field are followed by no reload at
    all.  At the top level of the schema the same select is mounted and
    reloaded once. *)
Theorem nested_async_fields_get_no_reload :
  (forall getEditor F W original asyncOptions raws pg0 c cs T,
      Mount.async_of original F = Normal (Some asyncOptions) ->
      getEditor ("root." +:+ F) = true ->
      own asyncOptions "autoload" = VArr (map VStr raws) ->
      "parameters." +:+ W ∈ raws ->
      well_formed pg0 ->
      registered pg0 ->
      debounce_timers F W pg0 = [] ->
      Forall (fun c' => where_ c' = "root." +:+ W) (c :: cs) ->
      now pg0 <= when c ->
      rapid (when c) cs ->
      when (default c (last cs)) + 1000 <= T ->
      exists pg,
        AsyncField.setupAsyncField getEditor F original pg0 = Normal pg
        /\ debounce_loads F W (run_until T (run_changes (c :: cs) pg))
           = debounce_loads F W pg0
             ++ [{| at_time := when (default c (last cs)) + 1000;
                    by_callback := Debounced F W;
                    parameters := form_after (default c (last cs)) |}]
        /\ debounce_timers F W (run_until T (run_changes (c :: cs) pg)) = [])
  /\
  (Mount.setupWatchListeners 8 (fun _ => None) AsyncField.nested_schema
     AsyncField.nested_schema EmptyString [] = Some ([], None)
   /\ Mount.path_of "db" "table" = "db.table"
   /\ AsyncField.setupAsyncField (fun _ => true) "db.table" AsyncField.db_object
        Sample.fresh_page = Normal Sample.fresh_page
   /\ loads (run_until 5000 (run_changes Sample.typing Sample.fresh_page)) = [])
  /\
  (Mount.setupWatchListeners 8 (fun _ => None) AsyncField.flat_schema
     AsyncField.flat_schema EmptyString []
   = Some ([{| Mount.fieldPath := "table";
               Mount.asyncOptions := Sample.async_tables |}], None)
   /\ AsyncField.setupAsyncField (fun _ => true) "table" AsyncField.flat_schema
        Sample.fresh_page = Normal Sample.mounted_page
   /\ debounce_loads "table" "base_id"
        (run_until 5000 (run_changes Sample.typing Sample.mounted_page))
      = [{| at_time := 2200; by_callback := Debounced "table" "base_id";
            parameters := [("base_id", VStr "app")] |}]).
Proof.
  split; [| split].
  - intros getEditor F W original asyncOptions raws pg0 c cs T.
    apply mounted_field_reloads_once.
  - repeat split; vm_compute; reflexivity.
  - repeat split; vm_compute; reflexivity.
Qed.

End MountedReloads.
